(** * Car-Dream: the fault-tolerant workflow engine

    A shallow embedding of the parts of the repository that carry the
    engine's invariants:

    - [services/carla-runner/error_handler.py]: [CircuitBreaker] and
      [ErrorHandler] (the recovery dispatcher);
    - [services/carla-runner/state_manager.py]: [StateManager] (checkpoint
      store and error log);
    - [services/orchestrator/src/services/workflow_orchestrator.py]:
      [WorkflowOrchestrator] (the phase state machine).

    Conventions.  Python objects that are mutated in place are threaded
    explicitly.  Collaborators (database, event bus, service client, CARLA,
    the clock) are inputs: every call to one of them is answered by an
    environment, and may raise.  Python [float] payloads (poses, weather,
    metrics) are only stored and copied by the code modelled here; they are
    carried as rationals. *)

From stdpp Require Import gmap strings list fin_maps pretty.
From Stdlib Require Import ZArith QArith Lia.

Close Scope Q_scope.

(** Python's [float], used as an opaque payload. *)
Definition float : Type := Q.

(* ===================================================================== *)
(** * Circuit breaker ([error_handler.py], class [CircuitBreaker])        *)
(* ===================================================================== *)

Module CircuitBreaker.

Local Open Scope Z_scope.

(** [self.state] is one of the strings "closed", "open", "half-open". *)
Inductive BreakerState : Type := closed | open | half_open.

(** The breaker object.  Clock readings ([time.time()]) and [timeout] are
    in the same unit of time. *)
Record t : Type := mk {
  failure_threshold : Z;
  timeout : Z;
  failure_count : Z;
  last_failure_time : option Z;
  state : BreakerState
}.

(** [CircuitBreaker.__init__] *)
Definition init (failure_threshold timeout : Z) : t :=
  {| failure_threshold := failure_threshold;
     timeout := timeout;
     failure_count := 0;
     last_failure_time := None;
     state := closed |}.

Definition set_state (s : BreakerState) (cb : t) : t :=
  {| failure_threshold := failure_threshold cb;
     timeout := timeout cb;
     failure_count := failure_count cb;
     last_failure_time := last_failure_time cb;
     state := s |}.

(** [_should_attempt_reset], with [now] the value of [time.time()]. *)
Definition _should_attempt_reset (now : Z) (cb : t) : bool :=
  match last_failure_time cb with
  | None => true
  | Some last => timeout cb <=? now - last
  end.

(** [_on_success] *)
Definition _on_success (cb : t) : t :=
  {| failure_threshold := failure_threshold cb;
     timeout := timeout cb;
     failure_count := 0;
     last_failure_time := last_failure_time cb;
     state := closed |}.

(** [_on_failure], with [now] the value of [time.time()]. *)
Definition _on_failure (now : Z) (cb : t) : t :=
  let count := failure_count cb + 1 in
  {| failure_threshold := failure_threshold cb;
     timeout := timeout cb;
     failure_count := count;
     last_failure_time := Some now;
     state := if failure_threshold cb <=? count then open else state cb |}.

(** What the guarded function does when it is invoked. *)
Inductive Outcome (A : Type) : Type :=
| Returns (a : A)
| Raises (e : string).
Arguments Returns {A} a.
Arguments Raises {A} e.

(** What [call] does: it returns the function's result, raises
    [Exception("Circuit breaker is open")] without touching the function, or
    re-raises the function's exception. *)
Inductive CallResult (A : Type) : Type :=
| Returned (a : A)
| CircuitOpenError
| Propagated (e : string).
Arguments Returned {A} a.
Arguments CircuitOpenError {A}.
Arguments Propagated {A} e.

(** The guard at the head of [call]: [None] when the call is refused. *)
Definition guard (t_check : Z) (cb : t) : option t :=
  match state cb with
  | open =>
      if _should_attempt_reset t_check cb
      then Some (set_state half_open cb)
      else None
  | _ => Some cb
  end.

(** The [try]/[except] of [call], once the function has answered. *)
Definition settle {A : Type} (o : Outcome A) (t_fail : Z) (cb : t)
  : CallResult A * t :=
  match o with
  | Returns a => (Returned a, _on_success cb)
  | Raises e => (Propagated e, _on_failure t_fail cb)
  end.

(** [call].  The guarded dependency has a state [D] of its own, so that
    invoking it is visible; [t_check] is the clock when the guard runs and
    [t_fail] the clock when a failure is recorded. *)
Definition call {A D : Type} (func : D → Outcome A * D) (t_check t_fail : Z)
    (d : D) (cb : t) : CallResult A * D * t :=
  match guard t_check cb with
  | None => (CircuitOpenError, d, cb)
  | Some cb1 =>
      let '(o, d') := func d in
      let '(r, cb2) := settle o t_fail cb1 in
      (r, d', cb2)
  end.

(** The breaker after a call that reached the dependency and failed. *)
Definition failed_call (times : Z * Z) (cb : t) : t :=
  (call (A := unit) (λ d : unit, (Raises "dependency failed", d))
        times.1 times.2 () cb).2.

(** Consecutive failures, oldest first. *)
Definition failures (times : list (Z * Z)) (cb : t) : t :=
  foldl (λ cb tm, failed_call tm cb) cb times.

(** Breakers that arise from [__init__] by calls that run one after the
    other. *)
Inductive reachable (threshold cooldown : Z) : t → Prop :=
| reachable_init : reachable threshold cooldown (init threshold cooldown)
| reachable_call (A D : Type) (func : D → Outcome A * D) (tc tf : Z) (d : D)
    (cb : t) :
    reachable threshold cooldown cb →
    reachable threshold cooldown (call func tc tf d cb).2.

End CircuitBreaker.

(* ===================================================================== *)
(** * The simulated world (the part of CARLA's client API that is used)   *)
(* ===================================================================== *)

Module Carla.

Record Vector3D : Type := { x : float; y : float; z : float }.

Record Rotation : Type := { pitch : float; yaw : float; roll : float }.

Record Transform : Type := { location : Vector3D; rotation : Rotation }.

Record WeatherParameters : Type := {
  cloudiness : float;
  precipitation : float;
  sun_altitude_angle : float;
  wind_intensity : float
}.

(** An actor of the world; [type_id] is the blueprint it was spawned from.
    The getters of an actor that is no longer alive raise. *)
Record Actor : Type := {
  id : nat;
  type_id : string;
  is_alive : bool;
  get_transform : Transform;
  get_velocity : Vector3D;
  get_acceleration : Vector3D
}.

(** The world object.  [can_spawn] stands for CARLA's own decision to
    accept a spawn request ([spawn_actor] raises when it does not). *)
Record World : Type := {
  map_name : string;
  get_actors : list Actor;
  get_weather : WeatherParameters;
  next_actor_id : nat;
  can_spawn : string → Transform → bool
}.

Definition zero3 : Vector3D := {| x := 0%Q; y := 0%Q; z := 0%Q |}.

(** [world.spawn_actor(blueprint, transform)]: [None] when it raises. *)
Definition spawn_actor (w : World) (bp : string) (tr : Transform)
  : option (Actor * World) :=
  if can_spawn w bp tr then
    let a := {| id := next_actor_id w; type_id := bp; is_alive := true;
                get_transform := tr;
                get_velocity := zero3; get_acceleration := zero3 |} in
    Some (a, {| map_name := map_name w;
                get_actors := get_actors w ++ [a];
                get_weather := get_weather w;
                next_actor_id := S (next_actor_id w);
                can_spawn := can_spawn w |})
  else None.

(** [world.set_weather(weather)] *)
Definition set_weather (w : World) (we : WeatherParameters) : World :=
  {| map_name := map_name w;
     get_actors := get_actors w;
     get_weather := we;
     next_actor_id := next_actor_id w;
     can_spawn := can_spawn w |}.

(** [len(world.get_actors().filter(pattern))] for a pattern ["prefix*"]. *)
Definition count_actors (prefix : string) (w : World) : nat :=
  length (List.filter (λ a, String.prefix prefix (type_id a)) (get_actors w)).

End Carla.

(* ===================================================================== *)
(** * Checkpoint store and error log ([state_manager.py])                 *)
(* ===================================================================== *)

Module SimulationCheckpoint.

(** [vehicle_physics], [world_state] and [traffic_state] are the nested
    dictionaries that [create_checkpoint] builds. *)
Record t : Type := {
  simulation_id : string;
  timestamp : Z;
  vehicle_transform : Carla.Transform;
  vehicle_physics : Carla.Vector3D * Carla.Vector3D;
  world_state : string * nat;
  weather_conditions : Carla.WeatherParameters;
  traffic_state : nat * nat
}.

End SimulationCheckpoint.

Module ErrorRecord.

Record t : Type := {
  timestamp : Z;
  simulation_id : string;
  error_type : string;
  error_message : string;
  stack_trace : string;
  recovery_attempted : bool;
  recovery_successful : bool
}.

(** The two assignments at the end of [ErrorHandler.handle_error]. *)
Definition set_recovery (success : bool) (r : t) : t :=
  {| timestamp := timestamp r;
     simulation_id := simulation_id r;
     error_type := error_type r;
     error_message := error_message r;
     stack_trace := stack_trace r;
     recovery_attempted := true;
     recovery_successful := success |}.

End ErrorRecord.

Module StateManager.

(** The store: the two in-memory attributes, and the files under
    [storage_path] that mirror them ([checkpoint_<id>.pkl], one line of
    [errors.jsonl] per record).  The remote backup of a checkpoint is
    best-effort and changes nothing here; it is left out. *)
Record t : Type := {
  checkpoints : gmap string SimulationCheckpoint.t;
  error_history : list ErrorRecord.t;
  checkpoint_files : gmap string SimulationCheckpoint.t;
  errors_jsonl : list ErrorRecord.t
}.

Definition set_checkpoints (c f : gmap string SimulationCheckpoint.t) (sm : t) : t :=
  {| checkpoints := c;
     error_history := error_history sm;
     checkpoint_files := f;
     errors_jsonl := errors_jsonl sm |}.

Definition set_errors (h j : list ErrorRecord.t) (sm : t) : t :=
  {| checkpoints := checkpoints sm;
     error_history := h;
     checkpoint_files := checkpoint_files sm;
     errors_jsonl := j |}.

(** [create_checkpoint].  [now] is [datetime.now()]; [disk_ok] says whether
    the write of the checkpoint file goes through ([_save_checkpoint] logs
    and swallows its own failure). *)
Definition create_checkpoint (now : Z) (disk_ok : bool) (simulation_id : string)
    (vehicle : Carla.Actor) (world : Carla.World) (sm : t) : bool * t :=
  if Carla.is_alive vehicle then
    let checkpoint :=
      {| SimulationCheckpoint.simulation_id := simulation_id;
         SimulationCheckpoint.timestamp := now;
         SimulationCheckpoint.vehicle_transform := Carla.get_transform vehicle;
         SimulationCheckpoint.vehicle_physics :=
           (Carla.get_velocity vehicle, Carla.get_acceleration vehicle);
         SimulationCheckpoint.world_state :=
           (Carla.map_name world, length (Carla.get_actors world));
         SimulationCheckpoint.weather_conditions := Carla.get_weather world;
         SimulationCheckpoint.traffic_state :=
           (Carla.count_actors "vehicle." world,
            Carla.count_actors "walker." world) |} in
    (true,
     set_checkpoints (<[simulation_id := checkpoint]> (checkpoints sm))
       (if disk_ok then <[simulation_id := checkpoint]> (checkpoint_files sm)
        else checkpoint_files sm) sm)
  else (false, sm).

(** [restore_checkpoint]: the restored vehicle, or [None]; together with
    the world, which the method mutates. *)
Definition restore_checkpoint (simulation_id : string) (world : Carla.World)
    (vehicle_bp : string) (sm : t) : option Carla.Actor * Carla.World :=
  match checkpoints sm !! simulation_id with
  | None => (None, world)
  | Some checkpoint =>
      let location :=
        {| Carla.x := Carla.x (Carla.location (SimulationCheckpoint.vehicle_transform checkpoint));
           Carla.y := Carla.y (Carla.location (SimulationCheckpoint.vehicle_transform checkpoint));
           Carla.z := Carla.z (Carla.location (SimulationCheckpoint.vehicle_transform checkpoint)) |} in
      let rotation :=
        {| Carla.pitch := Carla.pitch (Carla.rotation (SimulationCheckpoint.vehicle_transform checkpoint));
           Carla.yaw := Carla.yaw (Carla.rotation (SimulationCheckpoint.vehicle_transform checkpoint));
           Carla.roll := Carla.roll (Carla.rotation (SimulationCheckpoint.vehicle_transform checkpoint)) |} in
      let transform := {| Carla.location := location; Carla.rotation := rotation |} in
      match Carla.spawn_actor world vehicle_bp transform with
      | None => (None, world)
      | Some (vehicle, world1) =>
          let weather :=
            {| Carla.cloudiness := Carla.cloudiness (SimulationCheckpoint.weather_conditions checkpoint);
               Carla.precipitation := Carla.precipitation (SimulationCheckpoint.weather_conditions checkpoint);
               Carla.sun_altitude_angle := Carla.sun_altitude_angle (SimulationCheckpoint.weather_conditions checkpoint);
               Carla.wind_intensity := Carla.wind_intensity (SimulationCheckpoint.weather_conditions checkpoint) |} in
          (Some vehicle, Carla.set_weather world1 weather)
      end
  end.

(** [record_error] *)
Definition record_error (now : Z) (disk_ok : bool)
    (simulation_id error_type error_message stack_trace : string) (sm : t) : t :=
  let error_record :=
    {| ErrorRecord.timestamp := now;
       ErrorRecord.simulation_id := simulation_id;
       ErrorRecord.error_type := error_type;
       ErrorRecord.error_message := error_message;
       ErrorRecord.stack_trace := stack_trace;
       ErrorRecord.recovery_attempted := false;
       ErrorRecord.recovery_successful := false |} in
  set_errors (error_history sm ++ [error_record])
    (if disk_ok then errors_jsonl sm ++ [error_record] else errors_jsonl sm) sm.

(** [cleanup_old_checkpoints], with the cut-off already computed. *)
Definition cleanup_old_checkpoints (cutoff_time : Z) (sm : t) : t :=
  let keep (c : SimulationCheckpoint.t) :=
    bool_decide (cutoff_time ≤ SimulationCheckpoint.timestamp c)%Z in
  let to_remove : gmap string SimulationCheckpoint.t :=
    filter (λ kv, keep kv.2 = false) (checkpoints sm) in
  set_checkpoints
    (filter (λ kv, keep kv.2 = true) (checkpoints sm))
    (checkpoint_files sm ∖ to_remove) sm.

(** [get_error_history], with the cut-off already computed from [hours];
    [simulation_id] is [None] when the caller asks for every simulation. *)
Definition get_error_history (simulation_id : option string) (cutoff_time : Z)
    (sm : t) : list ErrorRecord.t :=
  List.filter
    (λ error,
       bool_decide (cutoff_time ≤ ErrorRecord.timestamp error)%Z
       && match simulation_id with
          | None => true
          | Some sid => bool_decide (ErrorRecord.simulation_id error = sid)
          end)
    (error_history sm).

(** [__init__] over a storage directory, which ends in [_load_state]: every
    checkpoint file is read into [self.checkpoints] under the id that the
    checkpoint itself carries, a later file replacing an earlier one with the
    same id, and every line of [errors.jsonl] becomes a record of
    [self.error_history].  The files are taken in the order in which the
    directory lists them, here that of [map_to_list]. *)
Definition _load_state (files : gmap string SimulationCheckpoint.t)
    (jsonl : list ErrorRecord.t) : t :=
  {| checkpoints :=
       foldl (λ loaded file,
                <[SimulationCheckpoint.simulation_id file.2 := file.2]> loaded)
             ∅ (map_to_list files);
     error_history := jsonl;
     checkpoint_files := files;
     errors_jsonl := jsonl |}.

End StateManager.

(* ===================================================================== *)
(** * Recovery dispatcher ([error_handler.py], class [ErrorHandler])      *)
(* ===================================================================== *)

Module ErrorHandler.

Inductive ErrorType : Type :=
| CARLA_CRASH
| CARLA_TIMEOUT
| MEMORY_EXHAUSTION
| GPU_ERROR
| NETWORK_ERROR
| SIMULATION_ERROR
| RESOURCE_EXHAUSTION.

(** [error_type.value] *)
Definition value (e : ErrorType) : string :=
  match e with
  | CARLA_CRASH => "carla_crash"
  | CARLA_TIMEOUT => "carla_timeout"
  | MEMORY_EXHAUSTION => "memory_exhaustion"
  | GPU_ERROR => "gpu_error"
  | NETWORK_ERROR => "network_error"
  | SIMULATION_ERROR => "simulation_error"
  | RESOURCE_EXHAUSTION => "resource_exhaustion"
  end.

#[global] Instance ErrorType_eq_dec : EqDecision ErrorType.
Proof. solve_decision. Defined.

Definition ErrorType_to_nat (e : ErrorType) : nat :=
  match e with
  | CARLA_CRASH => 0
  | CARLA_TIMEOUT => 1
  | MEMORY_EXHAUSTION => 2
  | GPU_ERROR => 3
  | NETWORK_ERROR => 4
  | SIMULATION_ERROR => 5
  | RESOURCE_EXHAUSTION => 6
  end.

Definition ErrorType_of_nat (n : nat) : ErrorType :=
  match n with
  | 0 => CARLA_CRASH
  | 1 => CARLA_TIMEOUT
  | 2 => MEMORY_EXHAUSTION
  | 3 => GPU_ERROR
  | 4 => NETWORK_ERROR
  | 5 => SIMULATION_ERROR
  | _ => RESOURCE_EXHAUSTION
  end.

#[global] Instance ErrorType_countable : Countable ErrorType.
Proof.
  apply (inj_countable' ErrorType_to_nat ErrorType_of_nat). by intros [].
Defined.

Inductive RecoveryStrategy : Type :=
| RESTART_CARLA
| RESTART_SIMULATION
| RESTORE_CHECKPOINT
| SCALE_DOWN
| WAIT_AND_RETRY
| FAIL_GRACEFULLY.

#[global] Instance RecoveryStrategy_eq_dec : EqDecision RecoveryStrategy.
Proof. solve_decision. Defined.

Record RecoveryAction : Type := {
  strategy : RecoveryStrategy;
  max_attempts : nat;
  delay_seconds : nat;
  timeout_seconds : nat
}.

(** [self.recovery_strategies].  The dictionary is built once, in
    [__init__], with one entry for each member of [ErrorType]; it is a total
    table, so that neither [self.recovery_strategies[error_type]] nor
    [.get(error_type)] can miss. *)
Definition recovery_strategies (e : ErrorType) : RecoveryAction :=
  match e with
  | CARLA_CRASH =>
      {| strategy := RESTART_CARLA; max_attempts := 3;
         delay_seconds := 10; timeout_seconds := 120 |}
  | CARLA_TIMEOUT =>
      {| strategy := WAIT_AND_RETRY; max_attempts := 2;
         delay_seconds := 5; timeout_seconds := 30 |}
  | MEMORY_EXHAUSTION =>
      {| strategy := SCALE_DOWN; max_attempts := 1;
         delay_seconds := 0; timeout_seconds := 60 |}
  | GPU_ERROR =>
      {| strategy := RESTART_CARLA; max_attempts := 2;
         delay_seconds := 15; timeout_seconds := 180 |}
  | NETWORK_ERROR =>
      {| strategy := WAIT_AND_RETRY; max_attempts := 3;
         delay_seconds := 2; timeout_seconds := 10 |}
  | SIMULATION_ERROR =>
      {| strategy := RESTORE_CHECKPOINT; max_attempts := 2;
         delay_seconds := 1; timeout_seconds := 30 |}
  | RESOURCE_EXHAUSTION =>
      {| strategy := SCALE_DOWN; max_attempts := 1;
         delay_seconds := 0; timeout_seconds := 30 |}
  end.

(** The [context] dictionary: the keys that the handler reads.
    [sim_manager] holds whether its [cleanup_simulation] goes through. *)
Record Context : Type := {
  stack_trace : option string;
  world : option Carla.World;
  vehicle_bp : option string;
  sim_manager : option bool
}.

Definition empty_context : Context :=
  {| stack_trace := None; world := None; vehicle_bp := None;
     sim_manager := None |}.

Definition set_world (w : Carla.World) (c : Context) : Context :=
  {| stack_trace := stack_trace c; world := Some w;
     vehicle_bp := vehicle_bp c; sim_manager := sim_manager c |}.

(** What the surroundings answer during one call of [handle_error]: the
    clock, whether the write to [errors.jsonl] goes through, and whether a
    relaunched CARLA server answers the connection test. *)
Record Env : Type := {
  now : Z;
  disk_ok : bool;
  carla_comes_up : bool
}.

(** The handler object.  [executed] is a ghost field: the strategies that
    [_execute_recovery_strategy] has run, latest last. *)
Record t : Type := {
  state_manager : StateManager.t;
  recovery_attempts : gmap string (gmap ErrorType nat);
  carla_restart_count : nat;
  max_carla_restarts : nat;
  executed : list (string * RecoveryStrategy)
}.

(** [ErrorHandler.__init__] *)
Definition init (sm : StateManager.t) : t :=
  {| state_manager := sm;
     recovery_attempts := ∅;
     carla_restart_count := 0;
     max_carla_restarts := 5;
     executed := [] |}.

Definition set_state_manager (sm : StateManager.t) (h : t) : t :=
  {| state_manager := sm;
     recovery_attempts := recovery_attempts h;
     carla_restart_count := carla_restart_count h;
     max_carla_restarts := max_carla_restarts h;
     executed := executed h |}.

Definition set_recovery_attempts (r : gmap string (gmap ErrorType nat)) (h : t) : t :=
  {| state_manager := state_manager h;
     recovery_attempts := r;
     carla_restart_count := carla_restart_count h;
     max_carla_restarts := max_carla_restarts h;
     executed := executed h |}.

Definition set_carla_restart_count (n : nat) (h : t) : t :=
  {| state_manager := state_manager h;
     recovery_attempts := recovery_attempts h;
     carla_restart_count := n;
     max_carla_restarts := max_carla_restarts h;
     executed := executed h |}.

Definition log_executed (simulation_id : string) (s : RecoveryStrategy) (h : t) : t :=
  {| state_manager := state_manager h;
     recovery_attempts := recovery_attempts h;
     carla_restart_count := carla_restart_count h;
     max_carla_restarts := max_carla_restarts h;
     executed := executed h ++ [(simulation_id, s)] |}.

(** The counter of a pair, as [get_recovery_status] reads it. *)
Definition attempts (simulation_id : string) (e : ErrorType) (h : t) : nat :=
  default 0 (default ∅ (recovery_attempts h !! simulation_id) !! e).

(** [_should_attempt_recovery] *)
Definition _should_attempt_recovery (simulation_id : string) (e : ErrorType)
    (h : t) : bool :=
  match recovery_attempts h !! simulation_id with
  | None => true
  | Some per_type =>
      let attempts := default 0 (per_type !! e) in
      attempts <? max_attempts (recovery_strategies e)
  end.

(** [_increment_recovery_attempt] *)
Definition _increment_recovery_attempt (simulation_id : string) (e : ErrorType)
    (h : t) : t :=
  let per_type := default ∅ (recovery_attempts h !! simulation_id) in
  let current_attempts := default 0 (per_type !! e) in
  set_recovery_attempts
    (<[simulation_id := <[e := current_attempts + 1]> per_type]>
       (recovery_attempts h)) h.

(** [_restart_carla_server].  Terminating the old process, launching the new
    one and probing it happen outside the handler; [carla_comes_up] is their
    verdict. *)
Definition _restart_carla_server (env : Env) (h : t) : bool * t :=
  if max_carla_restarts h <=? carla_restart_count h then (false, h)
  else if carla_comes_up env
       then (true, set_carla_restart_count (carla_restart_count h + 1) h)
       else (false, h).

(** [_restart_simulation] *)
Definition _restart_simulation (simulation_id : string) (context : Context)
    (h : t) : bool :=
  match sim_manager context with
  | None => false
  | Some cleanup_ok =>
      if cleanup_ok then
        match StateManager.checkpoints (state_manager h) !! simulation_id with
        | None => false
        | Some _ => true
        end
      else false
  end.

(** [_restore_from_checkpoint] *)
Definition _restore_from_checkpoint (simulation_id : string) (context : Context)
    (h : t) : bool * Context :=
  match world context, vehicle_bp context with
  | Some w, Some bp =>
      match StateManager.restore_checkpoint simulation_id w bp (state_manager h) with
      | (Some restored_vehicle, w') => (true, set_world w' context)
      | (None, w') => (false, set_world w' context)
      end
  | _, _ => (false, context)
  end.

(** [_execute_recovery_strategy] *)
Definition _execute_recovery_strategy (simulation_id : string)
    (recovery_action : RecoveryAction) (context : Context) (env : Env) (h : t)
  : bool * t * Context :=
  let h := log_executed simulation_id (strategy recovery_action) h in
  match strategy recovery_action with
  | RESTART_CARLA =>
      let '(ok, h') := _restart_carla_server env h in (ok, h', context)
  | RESTART_SIMULATION =>
      (_restart_simulation simulation_id context h, h, context)
  | RESTORE_CHECKPOINT =>
      let '(ok, context') := _restore_from_checkpoint simulation_id context h in
      (ok, h, context')
  | SCALE_DOWN => (true, h, context)
  | WAIT_AND_RETRY => (true, h, context)
  | FAIL_GRACEFULLY => (true, h, context)
  end.

(** [last_error = error_history[-1]] and the two assignments, under
    [if self.state_manager.error_history]. *)
Definition update_last_error (success : bool) (history : list ErrorRecord.t)
  : list ErrorRecord.t :=
  match history with
  | [] => []
  | _ => alter (ErrorRecord.set_recovery success) (pred (length history)) history
  end.

(** The handler once [handle_error] has recorded the error (its first
    statement). *)
Definition recorded (simulation_id : string) (e : ErrorType) (msg : string)
    (context : option Context) (env : Env) (h : t) : t :=
  set_state_manager
    (StateManager.record_error (now env) (disk_ok env) simulation_id (value e) msg
       (match context with Some c => default "" (stack_trace c) | None => "" end)
       (state_manager h)) h.

(** [handle_error].  The result is the returned flag, the handler, and the
    caller's [context] (whose world a restore mutates). *)
Definition handle_error (simulation_id : string) (error_type : ErrorType)
    (error_message : string) (context : option Context) (env : Env) (h : t)
  : bool * t * option Context :=
  let sm :=
    StateManager.record_error (now env) (disk_ok env) simulation_id
      (value error_type) error_message
      (match context with
       | Some c => default "" (stack_trace c)
       | None => ""
       end)
      (state_manager h) in
  let h := set_state_manager sm h in
  if negb (_should_attempt_recovery simulation_id error_type h) then
    (false, h, context)
  else
    let recovery_action := recovery_strategies error_type in
    let h := _increment_recovery_attempt simulation_id error_type h in
    let '(success, h, context') :=
      _execute_recovery_strategy simulation_id recovery_action
        (default empty_context context) env h in
    let sm := state_manager h in
    let h :=
      set_state_manager
        (StateManager.set_errors
           (update_last_error success (StateManager.error_history sm))
           (StateManager.errors_jsonl sm) sm) h in
    (success, h, match context with Some _ => Some context' | None => None end).

(** Handlers that arise from [__init__] by calls of [handle_error] that run
    one after the other; the state manager is shared with the rest of the
    service, which may change it in between. *)
Inductive reachable : t → Prop :=
| reachable_init sm : reachable (init sm)
| reachable_handle_error simulation_id error_type error_message context env h :
    reachable h →
    reachable (handle_error simulation_id error_type error_message context env h).1.2
| reachable_state_manager sm h :
    reachable h → reachable (set_state_manager sm h).

End ErrorHandler.

(* ===================================================================== *)
(** * The CARLA runner service ([main.py], [lifespan])                    *)
(* ===================================================================== *)

Module CarlaRunner.

(** At start-up the service builds its [StateManager] over the storage
    directory and an [ErrorHandler] on top of it. *)
Definition start (files : gmap string SimulationCheckpoint.t)
    (jsonl : list ErrorRecord.t) : ErrorHandler.t :=
  ErrorHandler.init (StateManager._load_state files jsonl).

(** The service is stopped and started again over the same directory. *)
Definition restart (h : ErrorHandler.t) : ErrorHandler.t :=
  start (StateManager.checkpoint_files (ErrorHandler.state_manager h))
        (StateManager.errors_jsonl (ErrorHandler.state_manager h)).

(** [state_manager.create_checkpoint(...)], as [create_simulation] calls it. *)
Definition create_checkpoint (now : Z) (disk_ok : bool) (simulation_id : string)
    (vehicle : Carla.Actor) (world : Carla.World) (h : ErrorHandler.t)
  : ErrorHandler.t :=
  ErrorHandler.set_state_manager
    (StateManager.create_checkpoint now disk_ok simulation_id vehicle world
       (ErrorHandler.state_manager h)).2 h.

(** [state_manager.cleanup_old_checkpoints()], as [periodic_health_check]
    calls it. *)
Definition cleanup_old_checkpoints (cutoff_time : Z) (h : ErrorHandler.t)
  : ErrorHandler.t :=
  ErrorHandler.set_state_manager
    (StateManager.cleanup_old_checkpoints cutoff_time
       (ErrorHandler.state_manager h)) h.

(** The states of the service, from its first start over an empty directory:
    errors handled one after the other, checkpoints taken, old checkpoints
    cleaned up, and restarts. *)
Inductive reachable : ErrorHandler.t → Prop :=
| reachable_start : reachable (start ∅ [])
| reachable_handle_error simulation_id error_type error_message context env h :
    reachable h →
    reachable
      (ErrorHandler.handle_error simulation_id error_type error_message
         context env h).1.2
| reachable_create_checkpoint now disk_ok simulation_id vehicle world h :
    reachable h →
    reachable (create_checkpoint now disk_ok simulation_id vehicle world h)
| reachable_cleanup cutoff_time h :
    reachable h → reachable (cleanup_old_checkpoints cutoff_time h)
| reachable_restart h :
    reachable h → reachable (restart h).

(** What holds of the store in every state of the service. *)
Definition store_invariant (sm : StateManager.t) : Prop :=
  (∀ r, r ∈ StateManager.errors_jsonl sm →
        ErrorRecord.recovery_attempted r = false ∧
        ErrorRecord.recovery_successful r = false) ∧
  (∀ id cp, StateManager.checkpoint_files sm !! id = Some cp →
            SimulationCheckpoint.simulation_id cp = id ∧
            is_Some (StateManager.checkpoints sm !! id)) ∧
  (∀ id cp, StateManager.checkpoints sm !! id = Some cp →
            SimulationCheckpoint.simulation_id cp = id).

End CarlaRunner.

(* ===================================================================== *)
(** * Workflow orchestrator ([workflow_orchestrator.py])                  *)
(* ===================================================================== *)

Module ExperimentConfig.

(** [CarlaConfig], [DreamerConfig] and [ExperimentConfig] of the shared
    schemas.  The two nested configurations are optional here because
    [_validate_experiment_config] tests them for presence. *)
Record CarlaConfig : Type := {
  town : string;
  weather : string;
  num_vehicles : Z;
  num_pedestrians : Z;
  simulation_time : Z
}.

Record DreamerConfig : Type := {
  model_path : string;
  batch_size : Z;
  sequence_length : Z;
  use_gpu : bool
}.

Record t : Type := {
  experiment_id : string;
  name : string;
  carla_config : option CarlaConfig;
  dreamer_config : option DreamerConfig
}.

End ExperimentConfig.

Module Workflow.

Inductive WorkflowPhase : Type :=
| INITIALIZATION
| CARLA_SETUP
| DREAMER_SETUP
| SIMULATION_EXECUTION
| RESULT_PROCESSING
| CLEANUP
| COMPLETED
| FAILED.

#[global] Instance WorkflowPhase_eq_dec : EqDecision WorkflowPhase.
Proof. solve_decision. Defined.

(** [phase.value] *)
Definition value (p : WorkflowPhase) : string :=
  match p with
  | INITIALIZATION => "initialization"
  | CARLA_SETUP => "carla_setup"
  | DREAMER_SETUP => "dreamer_setup"
  | SIMULATION_EXECUTION => "simulation_execution"
  | RESULT_PROCESSING => "result_processing"
  | CLEANUP => "cleanup"
  | COMPLETED => "completed"
  | FAILED => "failed"
  end.

(** The part of [Settings] that the orchestrator reads. *)
Record Settings : Type := {
  max_retries : Z;
  retry_delay : Z
}.

(** The dictionary that [_run_simulation_loop] returns: ["metrics"],
    ["artifacts"], and of ["summary"] the two integer entries
    ["total_steps"] and ["error_count"] (the other two are durations). *)
Record SimulationResults : Type := {
  results_metrics : gmap string float;
  results_artifacts : list string;
  total_steps : nat;
  results_error_count : nat
}.

(** The integer entries of the dictionary of [_generate_experiment_summary]. *)
Record Summary : Type := {
  summary_error_count : nat;
  summary_retry_count : nat;
  metrics_count : nat;
  artifacts_count : nat
}.

Module WorkflowState.

(** [phase_data] is kept for its ["simulation_results"] entry, the only one
    that is read back; the two start times are written and never read by the
    phase machine and are left out. *)
Record t : Type := {
  experiment_id : string;
  config : ExperimentConfig.t;
  current_phase : WorkflowPhase;
  carla_session_id : option string;
  dreamer_session_id : option string;
  error_count : nat;
  retry_count : nat;
  simulation_results : option SimulationResults;
  metrics : gmap string float;
  artifacts : list string;
  is_cancelled : bool
}.

(** [WorkflowState.__init__] *)
Definition init (experiment_id : string) (config : ExperimentConfig.t) : t :=
  {| experiment_id := experiment_id;
     config := config;
     current_phase := INITIALIZATION;
     carla_session_id := None;
     dreamer_session_id := None;
     error_count := 0;
     retry_count := 0;
     simulation_results := None;
     metrics := ∅;
     artifacts := [];
     is_cancelled := false |}.

Definition set_current_phase (p : WorkflowPhase) (s : t) : t :=
  {| experiment_id := experiment_id s; config := config s;
     current_phase := p;
     carla_session_id := carla_session_id s;
     dreamer_session_id := dreamer_session_id s;
     error_count := error_count s; retry_count := retry_count s;
     simulation_results := simulation_results s;
     metrics := metrics s; artifacts := artifacts s;
     is_cancelled := is_cancelled s |}.

Definition set_carla_session_id (v : option string) (s : t) : t :=
  {| experiment_id := experiment_id s; config := config s;
     current_phase := current_phase s;
     carla_session_id := v;
     dreamer_session_id := dreamer_session_id s;
     error_count := error_count s; retry_count := retry_count s;
     simulation_results := simulation_results s;
     metrics := metrics s; artifacts := artifacts s;
     is_cancelled := is_cancelled s |}.

Definition set_dreamer_session_id (v : option string) (s : t) : t :=
  {| experiment_id := experiment_id s; config := config s;
     current_phase := current_phase s;
     carla_session_id := carla_session_id s;
     dreamer_session_id := v;
     error_count := error_count s; retry_count := retry_count s;
     simulation_results := simulation_results s;
     metrics := metrics s; artifacts := artifacts s;
     is_cancelled := is_cancelled s |}.

Definition set_error_count (v : nat) (s : t) : t :=
  {| experiment_id := experiment_id s; config := config s;
     current_phase := current_phase s;
     carla_session_id := carla_session_id s;
     dreamer_session_id := dreamer_session_id s;
     error_count := v; retry_count := retry_count s;
     simulation_results := simulation_results s;
     metrics := metrics s; artifacts := artifacts s;
     is_cancelled := is_cancelled s |}.

Definition set_retry_count (v : nat) (s : t) : t :=
  {| experiment_id := experiment_id s; config := config s;
     current_phase := current_phase s;
     carla_session_id := carla_session_id s;
     dreamer_session_id := dreamer_session_id s;
     error_count := error_count s; retry_count := v;
     simulation_results := simulation_results s;
     metrics := metrics s; artifacts := artifacts s;
     is_cancelled := is_cancelled s |}.

(** The three statements of [_execute_simulation_phase] that store the
    loop's results. *)
Definition store_simulation_results (r : SimulationResults) (s : t) : t :=
  {| experiment_id := experiment_id s; config := config s;
     current_phase := current_phase s;
     carla_session_id := carla_session_id s;
     dreamer_session_id := dreamer_session_id s;
     error_count := error_count s; retry_count := retry_count s;
     simulation_results := Some r;
     metrics := results_metrics r ∪ metrics s;
     artifacts := artifacts s ++ results_artifacts r;
     is_cancelled := is_cancelled s |}.

Definition set_is_cancelled (v : bool) (s : t) : t :=
  {| experiment_id := experiment_id s; config := config s;
     current_phase := current_phase s;
     carla_session_id := carla_session_id s;
     dreamer_session_id := dreamer_session_id s;
     error_count := error_count s; retry_count := retry_count s;
     simulation_results := simulation_results s;
     metrics := metrics s; artifacts := artifacts s;
     is_cancelled := v |}.

End WorkflowState.

(** The payload of a lifecycle event. *)
Inductive EventData : Type :=
| data_empty
| data_phase (phase : string)
| data_session_id (session_id : option string)
| data_phase_error (phase error_message : string) (error_count : nat)
| data_results_summary (total_steps error_count : nat)
| data_summary (summary : Summary)
| data_error_message (error_message : string).

(** The calls that leave the orchestrator: database manager, event
    publisher, service client, and [asyncio.sleep] (in milliseconds).  Each
    is a suspension point of the coroutine. *)
Inductive ExternalCall : Type :=
| update_experiment_phase (experiment_id phase : string)
| update_experiment_result_error (experiment_id error_message : string)
| update_experiment_result_failed (experiment_id error_message : string)
| update_experiment_progress (experiment_id : string) (elapsed_seconds simulation_time : Z)
| store_experiment_metrics (experiment_id : string) (metrics : gmap string float)
| store_experiment_artifact (experiment_id path : string)
| store_experiment_summary (experiment_id : string) (summary : Summary)
| publish_experiment_event (experiment_id event_subtype : string) (data : EventData)
| initialize_carla_simulation (carla_config : ExperimentConfig.CarlaConfig)
| initialize_dreamer_model (dreamer_config : ExperimentConfig.DreamerConfig)
| check_service_health (service_name : string)
| start_carla_simulation (session_id : option string)
| get_simulation_state (session_id : option string)
| get_ai_decision (session_id : option string) (sim_state : string)
| apply_simulation_action (session_id : option string) (ai_decision : string)
| get_simulation_metrics (session_id : option string)
| submit_experiment_results (experiment_id : string)
| stop_carla_simulation (session_id : string)
| release_dreamer_session (session_id : string)
| sleep (milliseconds : Z).

(** What is observed of a run, in order: each assignment to
    [state.current_phase], each external call as it is issued, and each
    [logger.warning] / [logger.error]. *)
Inductive Event : Type :=
| PhaseSet (p : WorkflowPhase)
| Call (c : ExternalCall)
| LogWarning (msg : string)
| LogError (msg : string).

(** The answer of the surroundings to one interaction (an external call or
    a reading of the clock).  [raises] makes the call raise that exception;
    the other fields are what a successful call returns, each call reading
    the ones that concern it: [session_id] and [status] are entries of the
    returned dictionary, [step_metrics] the metrics dictionary, [blob] an
    opaque state or decision, [clock] the value of [datetime.utcnow()] in
    microseconds.  [cancel_requested] says that [cancel_workflow] was called
    for this experiment while the call was suspended. *)
Record Reply : Type := {
  cancel_requested : bool;
  raises : option string;
  session_id : option string;
  status : string;
  step_metrics : gmap string float;
  blob : string;
  clock : Z
}.

(** The orchestrator together with the workflow it is running: the state of
    the workflow, the keys of [self.active_workflows], what has been observed
    so far, and the number of interactions so far. *)
Record Machine : Type := {
  wf : WorkflowState.t;
  active_workflows : gset string;
  trace : list Event;
  tick : nat
}.

Definition with_wf (f : WorkflowState.t → WorkflowState.t) (m : Machine) : Machine :=
  {| wf := f (wf m); active_workflows := active_workflows m;
     trace := trace m; tick := tick m |}.

Definition with_active (f : gset string → gset string) (m : Machine) : Machine :=
  {| wf := wf m; active_workflows := f (active_workflows m);
     trace := trace m; tick := tick m |}.

Definition record_event (ev : Event) (m : Machine) : Machine :=
  {| wf := wf m; active_workflows := active_workflows m;
     trace := trace m ++ [ev]; tick := tick m |}.

Definition next_tick (m : Machine) : Machine :=
  {| wf := wf m; active_workflows := active_workflows m;
     trace := trace m; tick := S (tick m) |}.

(** A coroutine step returns, raises an [Exception] with a message, or has
    not finished within the number of loop iterations it was given. *)
Inductive Result (A : Type) : Type :=
| Ret (a : A)
| Raise (e : string)
| OutOfFuel.
Arguments Ret {A} a.
Arguments Raise {A} e.
Arguments OutOfFuel {A}.

Definition M (A : Type) : Type := Machine → Result A * Machine.

Definition ret {A : Type} (a : A) : M A := λ m, (Ret a, m).

Definition bind {A B : Type} (c : M A) (k : A → M B) : M B :=
  λ m, match c m with
       | (Ret a, m') => k a m'
       | (Raise e, m') => (Raise e, m')
       | (OutOfFuel, m') => (OutOfFuel, m')
       end.

Notation "'let*' x := c 'in' k" := (bind c (λ x, k))
  (at level 10, x name, c at level 100, k at level 200, only parsing).
Notation "c ;;; k" := (bind c (λ _, k))
  (at level 100, k at level 200, right associativity, only parsing).

Definition raise {A : Type} (e : string) : M A := λ m, (Raise e, m).

(** [try: body  except Exception as e: handler(str(e))] *)
Definition try_except {A : Type} (body : M A) (handler : string → M A) : M A :=
  λ m, match body m with
       | (Raise e, m') => handler e m'
       | r => r
       end.

(** The outcome of a piece of a [try] body, handed to what follows it:
    [inl] the value it returned, [inr] the message of the exception that the
    [except] clause receives. *)
Definition attempt {A : Type} (body : M A) : M (A + string) :=
  λ m, match body m with
       | (Ret a, m') => (Ret (inl a), m')
       | (Raise e, m') => (Ret (inr e), m')
       | (OutOfFuel, m') => (OutOfFuel, m')
       end.

(** [try: body  finally: final] *)
Definition try_finally {A : Type} (body : M A) (final : M unit) : M A :=
  λ m, match body m with
       | (OutOfFuel, m') => (OutOfFuel, m')
       | (r, m') =>
           match final m' with
           | (Ret _, m'') => (r, m'')
           | (Raise e, m'') => (Raise e, m'')
           | (OutOfFuel, m'') => (OutOfFuel, m'')
           end
       end.

Definition get {A : Type} (f : WorkflowState.t → A) : M A := λ m, (Ret (f (wf m)), m).

Definition modify (f : WorkflowState.t → WorkflowState.t) : M unit :=
  λ m, (Ret (), with_wf f m).

Definition emit (ev : Event) : M unit := λ m, (Ret (), record_event ev m).

(** [state.current_phase = p] *)
Definition set_phase (p : WorkflowPhase) : M unit :=
  modify (WorkflowState.set_current_phase p) ;;; emit (PhaseSet p).

(** [cancel_workflow], called with the id of the experiment that the
    machine runs: if the id is in [active_workflows], the flag is set and the
    cancellation is published. *)
Definition cancel_workflow (m : Machine) : bool * Machine :=
  let experiment_id := WorkflowState.experiment_id (wf m) in
  if decide (experiment_id ∈ active_workflows m) then
    (true,
     record_event
       (Call (publish_experiment_event experiment_id "workflow_cancelled"
                (data_phase (value (WorkflowState.current_phase (wf m))))))
       (with_wf (WorkflowState.set_is_cancelled true) m))
  else (false, m).

Section WithEnvironment.

Context (settings : Settings) (env : nat → Reply).

(** While a call is suspended, [cancel_workflow] may run. *)
Definition suspended (r : Reply) (m : Machine) : Machine :=
  if cancel_requested r then (cancel_workflow m).2 else m.

(** [await] of an external call. *)
Definition await (c : ExternalCall) : M Reply :=
  λ m, let r := env (tick m) in
       let m' := suspended r (next_tick (record_event (Call c) m)) in
       match raises r with
       | Some e => (Raise e, m')
       | None => (Ret r, m')
       end.

(** [await asyncio.sleep(...)], which does not raise an [Exception]. *)
Definition asyncio_sleep (milliseconds : Z) : M unit :=
  λ m, let r := env (tick m) in
       (Ret (), suspended r (next_tick (record_event (Call (sleep milliseconds)) m))).

(** [datetime.utcnow()] *)
Definition utcnow : M Z := λ m, (Ret (clock (env (tick m))), next_tick m).

(** [timedelta.seconds] of a difference of two clock readings: the seconds
    field of the normalised [timedelta], which leaves the days out. *)
Definition timedelta_seconds (microseconds : Z) : Z :=
  ((microseconds `div` 1000000) `mod` 86400)%Z.

(** [_update_workflow_phase] *)
Definition _update_workflow_phase : M unit :=
  let* eid := get WorkflowState.experiment_id in
  let* phase := get WorkflowState.current_phase in
  await (update_experiment_phase eid (value phase)) ;;;
  ret ().

(** [_validate_experiment_config]: the message of the [ValueError] it
    raises, if any. *)
Definition invalid_config (config : ExperimentConfig.t) : option string :=
  if decide (ExperimentConfig.experiment_id config = "") then
    Some "Experiment ID is required"
  else match ExperimentConfig.carla_config config with
  | None => Some "CARLA configuration is required"
  | Some carla_config =>
    match ExperimentConfig.dreamer_config config with
    | None => Some "DreamerV3 configuration is required"
    | Some dreamer_config =>
      if (ExperimentConfig.simulation_time carla_config <=? 0)%Z then
        Some "Simulation time must be positive"
      else if decide (ExperimentConfig.model_path dreamer_config = "") then
        Some "DreamerV3 model path is required"
      else None
    end
  end.

Definition _validate_experiment_config (config : ExperimentConfig.t) : M unit :=
  match invalid_config config with
  | Some e => raise e
  | None => ret ()
  end.

(** [_initialize_workflow_resources] and [_cleanup_temporary_resources] are
    [pass]. *)
Definition _initialize_workflow_resources : M unit := ret ().

Definition _cleanup_temporary_resources : M unit := ret ().

(** [_handle_phase_error] *)
Definition _handle_phase_error (phase : string) (error : string) : M unit :=
  modify (λ s, WorkflowState.set_error_count (WorkflowState.error_count s + 1) s) ;;;
  let* eid := get WorkflowState.experiment_id in
  let* error_count := get WorkflowState.error_count in
  let error_message := "Error in " +:+ phase +:+ " phase: " +:+ error in
  emit (LogError ("Phase error for " +:+ eid +:+ ": " +:+ error_message)) ;;;
  await (publish_experiment_event eid "workflow_phase_error"
           (data_phase_error phase error_message error_count)) ;;;
  let* retry_count := get WorkflowState.retry_count in
  (if (Z.of_nat retry_count <? max_retries settings)%Z then
     modify (WorkflowState.set_retry_count (retry_count + 1)) ;;;
     asyncio_sleep (1000 * retry_delay settings)
   else ret ()) ;;;
  await (update_experiment_result_error eid error_message) ;;;
  ret ().

(** The [try] statement of a phase: the body, with [_handle_phase_error]
    and a bare [raise] in the [except] clause. *)
Definition phase_try (p : WorkflowPhase) (body : M unit) : M unit :=
  try_except body
    (λ e, _handle_phase_error (value p) e ;;; raise e).

(** A phase: the assignment to [current_phase] and the phase update, then
    the [try] statement. *)
Definition phase (p : WorkflowPhase) (body : M unit) : M unit :=
  set_phase p ;;;
  _update_workflow_phase ;;;
  phase_try p body.

(** [_execute_initialization_phase] *)
Definition initialization_body : M unit :=
  let* config := get WorkflowState.config in
  _validate_experiment_config config ;;;
  _initialize_workflow_resources ;;;
  let* eid := get WorkflowState.experiment_id in
  await (publish_experiment_event eid "workflow_phase_started"
           (data_phase (value INITIALIZATION))) ;;;
  ret ().

Definition _execute_initialization_phase : M unit :=
  phase INITIALIZATION initialization_body.

(** The [for attempt in range(max_retries)] loop of [_verify_carla_readiness]
    and of [_verify_dreamer_readiness], which differ in the service name and
    in the texts. *)
Fixpoint verify_readiness (service_name label failure : string)
    (attempt remaining : nat) : M unit :=
  match remaining with
  | 0 => raise failure
  | S remaining' =>
      let* healthy :=
        try_except
          (let* health_status := await (check_service_health service_name) in
           if decide (status health_status = "healthy") then ret true
           else
             emit (LogWarning (label +:+ " not ready, attempt "
                                 +:+ pretty (attempt + 1) +:+ "/5")) ;;;
             asyncio_sleep 2000 ;;;
             ret false)
          (λ e,
             emit (LogWarning (label +:+ " readiness check failed: " +:+ e)) ;;;
             asyncio_sleep 2000 ;;;
             ret false) in
      if healthy : bool then ret ()
      else verify_readiness service_name label failure (attempt + 1) remaining'
  end.

Definition _verify_carla_readiness : M unit :=
  verify_readiness "carla-runner" "CARLA"
    "CARLA simulation failed to become ready" 0 5.

Definition _verify_dreamer_readiness : M unit :=
  verify_readiness "dreamerv3-service" "DreamerV3"
    "DreamerV3 model failed to become ready" 0 5.

(** Reading an attribute of a configuration that is [None]. *)
Definition attribute_error : string :=
  "'NoneType' object has no attribute".

(** [_execute_carla_setup_phase] *)
Definition carla_setup_body : M unit :=
  let* config := get WorkflowState.config in
  match ExperimentConfig.carla_config config with
  | None => raise attribute_error
  | Some carla_config =>
      let* carla_result := await (initialize_carla_simulation carla_config) in
      modify (WorkflowState.set_carla_session_id (session_id carla_result)) ;;;
      _verify_carla_readiness ;;;
      let* eid := get WorkflowState.experiment_id in
      let* sid := get WorkflowState.carla_session_id in
      await (publish_experiment_event eid "carla_setup_completed"
               (data_session_id sid)) ;;;
      ret ()
  end.

Definition _execute_carla_setup_phase : M unit :=
  phase CARLA_SETUP carla_setup_body.

(** [_execute_dreamer_setup_phase] *)
Definition dreamer_setup_body : M unit :=
  let* config := get WorkflowState.config in
  match ExperimentConfig.dreamer_config config with
  | None => raise attribute_error
  | Some dreamer_config =>
      let* dreamer_result := await (initialize_dreamer_model dreamer_config) in
      modify (WorkflowState.set_dreamer_session_id (session_id dreamer_result)) ;;;
      _verify_dreamer_readiness ;;;
      let* eid := get WorkflowState.experiment_id in
      let* sid := get WorkflowState.dreamer_session_id in
      await (publish_experiment_event eid "dreamer_setup_completed"
               (data_session_id sid)) ;;;
      ret ()
  end.

Definition _execute_dreamer_setup_phase : M unit :=
  phase DREAMER_SETUP dreamer_setup_body.

(** What the loop of [_run_simulation_loop] holds in local variables. *)
Record LoopLocals : Type := {
  start_time : Z;
  step_count : nat;
  loop_metrics : gmap string float
}.

(** The dictionary built after the loop. *)
Definition loop_results (l : LoopLocals) : M SimulationResults :=
  let* _ := utcnow in
  let* error_count := get WorkflowState.error_count in
  ret {| results_metrics := loop_metrics l;
         results_artifacts := [];
         total_steps := step_count l;
         results_error_count := error_count |}.

(** The four service calls at the head of an iteration; the result is the
    metrics of the step. *)
Definition simulation_step_calls : M (gmap string float) :=
  let* carla := get WorkflowState.carla_session_id in
  let* dreamer := get WorkflowState.dreamer_session_id in
  let* sim_state := await (get_simulation_state carla) in
  let* ai_decision := await (get_ai_decision dreamer (blob sim_state)) in
  await (apply_simulation_action carla (blob ai_decision)) ;;;
  let* step_metrics := await (get_simulation_metrics carla) in
  ret (step_metrics.(Workflow.step_metrics)).

(** The update of the progress, which follows the merge of the metrics. *)
Definition simulation_step_progress (simulation_time : Z) (l : LoopLocals)
  : M unit :=
  let* now := utcnow in
  let* eid := get WorkflowState.experiment_id in
  await (update_experiment_progress eid
           (timedelta_seconds (now - start_time l)) simulation_time) ;;;
  ret ().

(** The [except] clause of an iteration: the error is logged and counted;
    past ten errors the loop raises, otherwise it goes on ([continue]) with
    the locals it has. *)
Definition simulation_step_failed (l : LoopLocals) (e : string)
  : M LoopLocals :=
  emit (LogError ("Error in simulation step " +:+ pretty (step_count l)
                    +:+ ": " +:+ e)) ;;;
  modify (λ s, WorkflowState.set_error_count (WorkflowState.error_count s + 1) s) ;;;
  let* error_count := get WorkflowState.error_count in
  if 10 <? error_count then
    raise ("Too many simulation errors (" +:+ pretty error_count +:+ ")")
  else ret l.

(** The [try] statement that is the body of an iteration.  The metrics are
    merged in before the progress is written, so that a failure of that
    write keeps them; the step is counted after it. *)
Definition simulation_step (simulation_time : Z) (l : LoopLocals)
  : M LoopLocals :=
  let* called := attempt simulation_step_calls in
  match called with
  | inr e => simulation_step_failed l e
  | inl metrics =>
      let l1 := {| start_time := start_time l;
                   step_count := step_count l;
                   loop_metrics := metrics ∪ loop_metrics l |} in
      let* written := attempt (simulation_step_progress simulation_time l1) in
      match written with
      | inr e => simulation_step_failed l1 e
      | inl _ =>
          asyncio_sleep 100 ;;;
          ret {| start_time := start_time l1;
                 step_count := step_count l1 + 1;
                 loop_metrics := loop_metrics l1 |}
      end
  end.

(** The [while] loop of [_run_simulation_loop], with a bound on the number
    of times its condition is evaluated. *)
Fixpoint simulation_loop (fuel : nat) (simulation_time : Z) (l : LoopLocals)
  : M LoopLocals :=
  match fuel with
  | 0 => λ m, (OutOfFuel, m)
  | S fuel' =>
      let* now := utcnow in
      if (timedelta_seconds (now - start_time l) <? simulation_time)%Z then
        let* cancelled := get WorkflowState.is_cancelled in
        if cancelled : bool then ret l
        else
          let* l' := simulation_step simulation_time l in
          simulation_loop fuel' simulation_time l'
      else ret l
  end.

(** [_run_simulation_loop] *)
Definition _run_simulation_loop (fuel : nat) : M SimulationResults :=
  let* config := get WorkflowState.config in
  match ExperimentConfig.carla_config config with
  | None => raise attribute_error
  | Some carla_config =>
      let* start := utcnow in
      let* l :=
        simulation_loop fuel (ExperimentConfig.simulation_time carla_config)
          {| start_time := start; step_count := 0; loop_metrics := ∅ |} in
      loop_results l
  end.

(** [_execute_simulation_phase] *)
Definition simulation_body (fuel : nat) : M unit :=
  let* carla := get WorkflowState.carla_session_id in
  await (start_carla_simulation carla) ;;;
  let* simulation_results := _run_simulation_loop fuel in
  modify (WorkflowState.store_simulation_results simulation_results) ;;;
  let* eid := get WorkflowState.experiment_id in
  await (publish_experiment_event eid "simulation_completed"
           (data_results_summary (total_steps simulation_results)
              (results_error_count simulation_results))) ;;;
  ret ().

Definition _execute_simulation_phase (fuel : nat) : M unit :=
  phase SIMULATION_EXECUTION (simulation_body fuel).

(** [for artifact in state.artifacts: await store_experiment_artifact(...)] *)
Fixpoint store_artifacts (eid : string) (artifacts : list string) : M unit :=
  match artifacts with
  | [] => ret ()
  | artifact :: rest =>
      await (store_experiment_artifact eid artifact) ;;;
      store_artifacts eid rest
  end.

(** [_generate_experiment_summary] *)
Definition _generate_experiment_summary : M Summary :=
  let* s := get id in
  ret {| summary_error_count := WorkflowState.error_count s;
         summary_retry_count := WorkflowState.retry_count s;
         metrics_count := size (WorkflowState.metrics s);
         artifacts_count := length (WorkflowState.artifacts s) |}.

(** [_execute_result_processing_phase].  [_process_simulation_results]
    builds a dictionary from the state without calling out; what it returns
    is the payload of [submit_experiment_results]. *)
Definition result_processing_body : M unit :=
  let* eid := get WorkflowState.experiment_id in
  let* metrics := get WorkflowState.metrics in
  await (store_experiment_metrics eid metrics) ;;;
  let* artifacts := get WorkflowState.artifacts in
  store_artifacts eid artifacts ;;;
  let* summary := _generate_experiment_summary in
  await (store_experiment_summary eid summary) ;;;
  await (submit_experiment_results eid) ;;;
  await (publish_experiment_event eid "result_processing_completed"
           (data_summary summary)) ;;;
  ret ().

Definition _execute_result_processing_phase : M unit :=
  phase RESULT_PROCESSING result_processing_body.

(** The message of the exception that the loop raises past ten errors. *)
Definition too_many (count : nat) : string :=
  "Too many simulation errors (" +:+ pretty count +:+ ")".

(** [_execute_cleanup_phase]: the body under [try], and the phase, whose
    [except] clause logs a warning and does not raise. *)
Definition cleanup_body : M unit :=
  let* carla := get WorkflowState.carla_session_id in
  (match carla with
   | Some sid =>
       if decide (sid = "") then ret ()
       else await (stop_carla_simulation sid) ;;; ret ()
   | None => ret ()
   end) ;;;
  let* dreamer := get WorkflowState.dreamer_session_id in
  (match dreamer with
   | Some sid =>
       if decide (sid = "") then ret ()
       else await (release_dreamer_session sid) ;;; ret ()
   | None => ret ()
   end) ;;;
  _cleanup_temporary_resources ;;;
  let* eid := get WorkflowState.experiment_id in
  await (publish_experiment_event eid "cleanup_completed" data_empty) ;;;
  ret ().

Definition _execute_cleanup_phase : M unit :=
  set_phase CLEANUP ;;;
  _update_workflow_phase ;;;
  try_except cleanup_body
    (λ e,
       let* eid := get WorkflowState.experiment_id in
       emit (LogWarning ("Cleanup phase had errors for " +:+ eid +:+ ": " +:+ e))).

(** [_handle_workflow_failure] *)
Definition _handle_workflow_failure (error_message : string) : M unit :=
  let* eid := get WorkflowState.experiment_id in
  emit (LogError ("Workflow failed for " +:+ eid +:+ ": " +:+ error_message)) ;;;
  await (update_experiment_result_failed eid error_message) ;;;
  await (publish_experiment_event eid "workflow_failed"
           (data_error_message error_message)) ;;;
  try_except _execute_cleanup_phase
    (λ cleanup_error,
       emit (LogError ("Cleanup after failure also failed: " +:+ cleanup_error))).

(** The statements under [try] in [execute_experiment_workflow]. *)
Definition workflow_body (fuel : nat) : M unit :=
  _execute_initialization_phase ;;;
  _execute_carla_setup_phase ;;;
  _execute_dreamer_setup_phase ;;;
  _execute_simulation_phase fuel ;;;
  _execute_result_processing_phase ;;;
  _execute_cleanup_phase ;;;
  set_phase COMPLETED ;;;
  _update_workflow_phase.

(** Its [except] clause. *)
Definition workflow_failed (e : string) : M unit :=
  let* eid := get WorkflowState.experiment_id in
  emit (LogError ("Experiment workflow failed for " +:+ eid +:+ ": " +:+ e)) ;;;
  set_phase FAILED ;;;
  _handle_workflow_failure e.

(** Its [finally] clause. *)
Definition workflow_finally (experiment_id : string) : M unit :=
  λ m, (Ret (), with_active (λ a, a ∖ {[experiment_id]}) m).

(** The first two statements of [execute_experiment_workflow], in an
    orchestrator whose [active_workflows] has the keys [active]. *)
Definition workflow_start (experiment_id : string) (config : ExperimentConfig.t)
    (active : gset string) : Machine :=
  {| wf := WorkflowState.init experiment_id config;
     active_workflows := {[experiment_id]} ∪ active;
     trace := [];
     tick := 0 |}.

(** [execute_experiment_workflow] *)
Definition execute_experiment_workflow (fuel : nat) (experiment_id : string)
    (config : ExperimentConfig.t) (active : gset string)
  : Result unit * Machine :=
  try_finally (try_except (workflow_body fuel) workflow_failed)
    (workflow_finally experiment_id)
    (workflow_start experiment_id config active).

End WithEnvironment.

(** ** Observations of a run *)

(** The phases in their required order; [FAILED] stands apart. *)
Definition phase_order : list WorkflowPhase :=
  [INITIALIZATION; CARLA_SETUP; DREAMER_SETUP; SIMULATION_EXECUTION;
   RESULT_PROCESSING; CLEANUP; COMPLETED].

(** The skeleton of a trace: the assignments to [current_phase], and the
    publications of a phase error, which [_handle_phase_error] makes. *)
Inductive Mark : Type :=
| MPhase (p : WorkflowPhase)
| MPhaseError (phase : string).

#[global] Instance Mark_eq_dec : EqDecision Mark.
Proof. solve_decision. Defined.

Definition mark (ev : Event) : option Mark :=
  match ev with
  | PhaseSet p => Some (MPhase p)
  | Call (publish_experiment_event _ subtype (data_phase_error phase _ _)) =>
      if decide (subtype = "workflow_phase_error")
      then Some (MPhaseError phase) else None
  | _ => None
  end.

Definition marks (t : list Event) : list Mark := omap mark t.

(** The calls that allocate a session. *)
Definition allocation (ev : Event) : option ExternalCall :=
  match ev with
  | Call (initialize_carla_simulation c) => Some (initialize_carla_simulation c)
  | Call (initialize_dreamer_model c) => Some (initialize_dreamer_model c)
  | _ => None
  end.

(** The publications that the workflow itself makes; the one of
    [cancel_workflow] is made by its caller. *)
Definition publication (ev : Event) : option string :=
  match ev with
  | Call (publish_experiment_event _ subtype _) =>
      if decide (subtype = "workflow_cancelled") then None else Some subtype
  | _ => None
  end.

(** The calls to the service client that an iteration of the simulation
    loop makes. *)
Definition iteration_call (ev : Event) : option ExternalCall :=
  match ev with
  | Call (get_simulation_state s) => Some (get_simulation_state s)
  | Call (get_ai_decision s b) => Some (get_ai_decision s b)
  | Call (apply_simulation_action s b) => Some (apply_simulation_action s b)
  | Call (get_simulation_metrics s) => Some (get_simulation_metrics s)
  | _ => None
  end.

(** The iterations that were started, and those that ended in the [except]
    clause. *)
Definition iteration_start (ev : Event) : option unit :=
  match ev with
  | Call (get_simulation_state _) => Some ()
  | _ => None
  end.

Definition logged_error (ev : Event) : option string :=
  match ev with
  | LogError msg => Some msg
  | _ => None
  end.

(** What a projection of the events sees of a machine. *)
Definition observe {X : Type} (f : Event → option X) (m : Machine) : list X :=
  omap f (trace m).

(** A projection that sees neither cancellations nor sleeps. *)
Definition plain {X : Type} (f : Event → option X) : Prop :=
  (∀ eid ph, f (Call (publish_experiment_event eid "workflow_cancelled"
                        (data_phase ph))) = None) ∧
  (∀ ms, f (Call (sleep ms)) = None).

(** A computation that ends, whatever the bound on the loop. *)
Definition terminates {A : Type} (c : M A) : Prop := ∀ m, (c m).1 ≠ OutOfFuel.

(** The skeleton of a run that failed at its [k]-th phase: the phases up to
    that one in order, the publication of the phase error if the failure came
    from the body of one of the first five, and what the failure added. *)
Definition failed_skeleton (tail skeleton : list Mark) : Prop :=
  ∃ (k : nat) (err : list Mark),
    1 ≤ k ∧ k ≤ 7 ∧
    skeleton = (MPhase <$> take k phase_order) ++ err ++ tail ∧
    (err = [] ∨
     k ≤ 5 ∧ ∃ p, phase_order !! (k - 1) = Some p ∧
                  err = [MPhaseError (value p)]).

(** What a reading of the workflow state sees of a machine, for a reading
    that does not look at the cancellation flag. *)
Definition observe_state {X : Type} (g : WorkflowState.t → X) (m : Machine) : X :=
  g (wf m).

Definition blind_to_cancel {X : Type} (g : WorkflowState.t → X) : Prop :=
  ∀ s v, g (WorkflowState.set_is_cancelled v s) = g s.

Definition error_count_of (m : Machine) : nat :=
  WorkflowState.error_count (wf m).

(** The cancellation flag is set. *)
Definition cancelled (m : Machine) : Prop :=
  WorkflowState.is_cancelled (wf m) = true.

(** A computation that keeps a property of the machine, however it ends. *)
Definition maintains {A : Type} (P : Machine → Prop) (c : M A) : Prop :=
  ∀ m, P m → P (c m).2.

Definition current_phase_of (m : Machine) : WorkflowPhase :=
  WorkflowState.current_phase (wf m).

(** A computation that leaves an observation of the machine as it is,
    however it ends. *)
Definition preserves {A X : Type} (g : Machine → X) (c : M A) : Prop :=
  ∀ m, g (c m).2 = g m.

(** The dictionary that [get_workflow_status] returns (the two start times
    apart). *)
Record WorkflowStatus : Type := {
  status_experiment_id : string;
  status_current_phase : string;
  status_error_count : nat;
  status_retry_count : nat;
  status_is_cancelled : bool
}.

(** [get_workflow_status], called with the id of the experiment that the
    machine runs: [None] when the id is not in [active_workflows]. *)
Definition get_workflow_status (m : Machine) : option WorkflowStatus :=
  let state := wf m in
  if decide (WorkflowState.experiment_id state ∈ active_workflows m) then
    Some {| status_experiment_id := WorkflowState.experiment_id state;
            status_current_phase := value (WorkflowState.current_phase state);
            status_error_count := WorkflowState.error_count state;
            status_retry_count := WorkflowState.retry_count state;
            status_is_cancelled := WorkflowState.is_cancelled state |}
  else None.

(** The health checks and the sleeps of a run, and the artifacts it stores. *)
Definition health_check (ev : Event) : option string :=
  match ev with
  | Call (check_service_health service_name) => Some service_name
  | _ => None
  end.

Definition slept (ev : Event) : option Z :=
  match ev with
  | Call (sleep milliseconds) => Some milliseconds
  | _ => None
  end.

Definition artifact_stored (ev : Event) : option string :=
  match ev with
  | Call (store_experiment_artifact _ path) => Some path
  | _ => None
  end.

(** No artifact is listed in the workflow state, and none has been stored. *)
Definition no_artifacts (m : Machine) : Prop :=
  WorkflowState.artifacts (wf m) = [] ∧ observe artifact_stored m = [].

(** What a run is not expected to change: the id and the configuration of
    its workflow, and the registry of active workflows. *)
Definition footprint (m : Machine)
  : string * ExperimentConfig.t * gset string :=
  (WorkflowState.experiment_id (wf m), WorkflowState.config (wf m),
   active_workflows m).

(** The surroundings at interaction [n] answer without raising and report
    the service healthy. *)
Definition healthy_at (env : nat → Reply) (n : nat) : Prop :=
  raises (env n) = None ∧ status (env n) = "healthy".

(** Surroundings in which no call ever raises and every health check finds
    its service healthy, and surroundings in which nobody cancels the
    workflow. *)
Definition calm (env : nat → Reply) : Prop := ∀ n, healthy_at env n.

Definition never_cancelled (env : nat → Reply) : Prop :=
  ∀ n, cancel_requested (env n) = false.

(** A machine that runs the workflow of [config], and whose flag is not set
    if nobody cancels. *)
Definition on_course (env : nat → Reply) (config : ExperimentConfig.t)
    (m : Machine) : Prop :=
  WorkflowState.config (wf m) = config ∧
  (never_cancelled env → WorkflowState.is_cancelled (wf m) = false).

(** A computation that, started on course, returns a value with [Q] after
    at most [cost] interactions, and stays on course. *)
Definition proceeds (env : nat → Reply) (config : ExperimentConfig.t)
    {A : Type} (cost : nat) (c : M A) (Q : A → Prop) : Prop :=
  ∀ m, on_course env config m →
    ∃ a m', c m = (Ret a, m') ∧ Q a ∧ on_course env config m' ∧
            tick m ≤ tick m' ≤ tick m + cost.

(** The error counter stays within bounds: from at most [a], at most [R]
    when the computation returns and at most [E] when it raises. *)
Definition within {A : Type} (a R E : nat) (c : M A) : Prop :=
  ∀ m, error_count_of m ≤ a →
    match c m with
    | (Ret _, m') => error_count_of m' ≤ R
    | (Raise _, m') => error_count_of m' ≤ E
    | (OutOfFuel, _) => True
    end.

End Workflow.

(* ===================================================================== *)
(** * Overlapping runs of [execute_experiment_workflow]                   *)
(* ===================================================================== *)

Module Registry.

(** Several runs of the coroutine may be in progress in one orchestrator.
    What they share is [self.active_workflows]; each run holds the
    [WorkflowState] object it created in a local variable.  Objects are told
    apart by the order in which they were created. *)
Record Run : Type := {
  experiment_id : string;
  workflow_state : nat
}.

#[global] Instance Run_eq_dec : EqDecision Run.
Proof. solve_decision. Defined.

Record Orchestrator : Type := {
  active_workflows : gmap string nat;
  created : nat;
  running : list Run
}.

(** [WorkflowOrchestrator.__init__] *)
Definition init : Orchestrator :=
  {| active_workflows := ∅; created := 0; running := [] |}.

(** The two statements at the head of [execute_experiment_workflow]:
    [workflow_state = WorkflowState(...)] and
    [self.active_workflows[experiment_id] = workflow_state]. *)
Definition enter (experiment_id : string) (o : Orchestrator) : Orchestrator :=
  {| active_workflows := <[experiment_id := created o]> (active_workflows o);
     created := S (created o);
     running := running o
                ++ [{| experiment_id := experiment_id;
                       workflow_state := created o |}] |}.

(** The [finally] clause, which a run reaches after [Completed] or
    [Failed]: [if experiment_id in self.active_workflows: del ...]. *)
Definition leave (r : Run) (o : Orchestrator) : Orchestrator :=
  {| active_workflows := delete (experiment_id r) (active_workflows o);
     created := created o;
     running := List.filter (λ r', bool_decide (r' ≠ r)) (running o) |}.

(** Any interleaving of entries and exits. *)
Inductive reachable : Orchestrator → Prop :=
| reachable_init : reachable init
| reachable_enter experiment_id o :
    reachable o → reachable (enter experiment_id o)
| reachable_leave r o :
    reachable o → r ∈ running o → reachable (leave r o).

(** The interleavings in which a run is started only for an experiment id
    that has no run in progress. *)
Inductive reachable_exclusive : Orchestrator → Prop :=
| exclusive_init : reachable_exclusive init
| exclusive_enter experiment_id o :
    reachable_exclusive o →
    experiment_id ∉ List.map Registry.experiment_id (running o) →
    reachable_exclusive (enter experiment_id o)
| exclusive_leave r o :
    reachable_exclusive o → r ∈ running o → reachable_exclusive (leave r o).

(** At most one [WorkflowState] per experiment id among the runs in
    progress. *)
Definition one_state_per_id (o : Orchestrator) : Prop :=
  ∀ r1 r2, r1 ∈ running o → r2 ∈ running o →
    experiment_id r1 = experiment_id r2 → r1 = r2.

End Registry.

(* ===================================================================== *)
(** * Concrete inputs                                                     *)
(* ===================================================================== *)

Module Examples.

Import Workflow.

(** A breaker with threshold 2 and cooldown 60, and the same breaker after
    two failures in a row, recorded at times 1 and 6. *)
Definition breaker : CircuitBreaker.t := CircuitBreaker.init 2 60.



(** An empty store, and a store that holds one checkpoint. *)
Definition empty_store : StateManager.t :=
  {| StateManager.checkpoints := ∅;
     StateManager.error_history := [];
     StateManager.checkpoint_files := ∅;
     StateManager.errors_jsonl := [] |}.

Definition pose : Carla.Transform :=
  {| Carla.location := {| Carla.x := 12.5; Carla.y := -3; Carla.z := 0.5 |};
     Carla.rotation := {| Carla.pitch := 0; Carla.yaw := 90; Carla.roll := 0 |} |}%Q.

Definition clear_noon : Carla.WeatherParameters :=
  {| Carla.cloudiness := 10; Carla.precipitation := 0;
     Carla.sun_altitude_angle := 70; Carla.wind_intensity := 5 |}%Q.

Definition checkpoint : SimulationCheckpoint.t :=
  {| SimulationCheckpoint.simulation_id := "sim-1";
     SimulationCheckpoint.timestamp := 1000;
     SimulationCheckpoint.vehicle_transform := pose;
     SimulationCheckpoint.vehicle_physics := (Carla.zero3, Carla.zero3);
     SimulationCheckpoint.world_state := ("Town01", 0);
     SimulationCheckpoint.weather_conditions := clear_noon;
     SimulationCheckpoint.traffic_state := (0, 0) |}.

Definition store : StateManager.t :=
  {| StateManager.checkpoints := {[ "sim-1" := checkpoint ]};
     StateManager.error_history := [];
     StateManager.checkpoint_files := {[ "sim-1" := checkpoint ]};
     StateManager.errors_jsonl := [] |}.

Definition town : Carla.World :=
  {| Carla.map_name := "Town01";
     Carla.get_actors := [];
     Carla.get_weather := clear_noon;
     Carla.next_actor_id := 1;
     Carla.can_spawn := λ _ _, true |}.

(** A handler that has used its single attempt for memory exhaustion of the
    "system" pseudo-simulation. *)
Definition quiet_env : ErrorHandler.Env :=
  {| ErrorHandler.now := 1000; ErrorHandler.disk_ok := true;
     ErrorHandler.carla_comes_up := true |}.

Definition exhausted : ErrorHandler.t :=
  (ErrorHandler.handle_error "system" ErrorHandler.MEMORY_EXHAUSTION
     "Memory usage: 95.0%" None quiet_env (ErrorHandler.init empty_store)).1.2.

(** An experiment, and the same experiment with a time budget of zero. *)
Definition carla_config (simulation_time : Z) : ExperimentConfig.CarlaConfig :=
  {| ExperimentConfig.town := "Town01";
     ExperimentConfig.weather := "ClearNoon";
     ExperimentConfig.num_vehicles := 50;
     ExperimentConfig.num_pedestrians := 100;
     ExperimentConfig.simulation_time := simulation_time |}.

Definition dreamer_config : ExperimentConfig.DreamerConfig :=
  {| ExperimentConfig.model_path := "models/dreamer";
     ExperimentConfig.batch_size := 16;
     ExperimentConfig.sequence_length := 64;
     ExperimentConfig.use_gpu := true |}.

Definition experiment (simulation_time : Z) : ExperimentConfig.t :=
  {| ExperimentConfig.experiment_id := "exp";
     ExperimentConfig.name := "daily";
     ExperimentConfig.carla_config := Some (carla_config simulation_time);
     ExperimentConfig.dreamer_config := Some dreamer_config |}.

Definition settings : Settings := {| max_retries := 3; retry_delay := 30 |}.

(** Answers of the surroundings: a call that goes through at clock [t], one
    that raises, and one during which the workflow is cancelled. *)
Definition fine (t : Z) : Reply :=
  {| cancel_requested := false; raises := None; session_id := Some "s1";
     status := "healthy"; step_metrics := ∅; blob := ""; clock := t |}.

Definition failing (t : Z) : Reply :=
  {| cancel_requested := false; raises := Some "boom"; session_id := None;
     status := ""; step_metrics := ∅; blob := ""; clock := t |}.


(** Everything goes through and the clock stands still. *)
Definition all_fine (n : nat) : Reply := fine 0.

(** The fourth interaction, which is [initialize_carla_simulation], raises. *)
Definition carla_down (n : nat) : Reply :=
  if decide (n = 3) then failing 0 else fine 0.


(** The clock passes the time budget at the first evaluation of the loop
    condition. *)
Definition budget_elapsed (n : nat) : Reply :=
  fine (if decide (n < 13) then 0 else 400000000).

(** As before, and the phase update at the entry of Cleanup raises. *)
Definition cleanup_update_fails (n : nat) : Reply :=
  if decide (n = 21) then failing 400000000 else budget_elapsed n.

(** [initialize_dreamer_model] raises, and so does the write of the
    failure. *)
Definition database_down (n : nat) : Reply :=
  if decide (n = 7 ∨ n = 11) then failing 0 else fine 0.


(** A machine at the start of a run, and the same with the flag set. *)
Definition fresh : Machine := workflow_start "exp" (experiment 300) ∅.



(** The runner service after its first start and one handled error, and a
    vehicle standing at [pose]. *)
Definition served : ErrorHandler.t :=
  (ErrorHandler.handle_error "sim-1" ErrorHandler.SIMULATION_ERROR "spawn failed"
     None quiet_env (CarlaRunner.start ∅ [])).1.2.


End Examples.

(* ===================================================================== *)
(** * Theorems                                                            *)
(* ===================================================================== *)

(** ** Circuit breaker *)

Section CircuitBreakerFacts.
Import CircuitBreaker.
Local Open Scope Z_scope.


(** A breaker that is not closed has used up its failure budget. *)
Lemma reachable_budget threshold cooldown cb :
  reachable threshold cooldown cb →
  state cb ≠ closed → failure_threshold cb ≤ failure_count cb.
Proof.
  induction 1 as [|A D func tc tf d cb _ IH]; [done|].
  unfold call, guard, settle.
  destruct (state cb) eqn:Hs; simpl;
    try destruct (_should_attempt_reset tc cb); simpl; try (rewrite Hs; done);
    destruct (func d) as [[a|e] d']; simpl; try done;
    destruct (Z.leb_spec (failure_threshold cb) (failure_count cb + 1));
    simpl; try done; try rewrite Hs; intros _; try lia;
    assert (failure_threshold cb ≤ failure_count cb) by (apply IH; done); lia.
Qed.

(** Between two calls the breaker is never left half-open. *)
Lemma reachable_not_half_open threshold cooldown cb :
  reachable threshold cooldown cb → state cb ≠ half_open.
Proof.
  intros H. pose proof (reachable_budget _ _ _ H) as Hb. revert Hb.
  induction H as [|A D func tc tf d cb Hr IH]; [done|]. intros _.
  pose proof (reachable_budget _ _ _ Hr) as Hb.
  unfold call, guard, settle.
  destruct (state cb) eqn:Hs; simpl;
    try destruct (_should_attempt_reset tc cb); simpl; try (rewrite Hs; done);
    try (exfalso; apply IH; done);
    destruct (func d) as [[a|e] d']; simpl; try done;
    destruct (Z.leb_spec (failure_threshold cb) (failure_count cb + 1));
    simpl; try done; try (rewrite Hs; done).
  assert (failure_threshold cb ≤ failure_count cb) by (apply Hb; done). lia.
Qed.

Lemma failed_call_closed tm cb :
  state cb = closed →
  failed_call tm cb = _on_failure tm.2 cb.
Proof. intros Hs. unfold failed_call, call, guard. by rewrite Hs. Qed.




End CircuitBreakerFacts.

(** ** Recovery dispatcher *)

Section ErrorHandlerFacts.
Import ErrorHandler.

Lemma max_attempts_pos e : 1 ≤ max_attempts (recovery_strategies e).
Proof. destruct e; simpl; lia. Qed.

Lemma should_attempt_true simulation_id e h :
  _should_attempt_recovery simulation_id e h = true →
  attempts simulation_id e h < max_attempts (recovery_strategies e).
Proof.
  unfold _should_attempt_recovery, attempts.
  destruct (recovery_attempts h !! simulation_id) as [per_type|]; simpl.
  - intros H%Nat.ltb_lt. done.
  - intros _. rewrite lookup_empty. simpl. pose proof (max_attempts_pos e). lia.
Qed.

Lemma should_attempt_false simulation_id e h :
  _should_attempt_recovery simulation_id e h = false →
  max_attempts (recovery_strategies e) ≤ attempts simulation_id e h.
Proof.
  unfold _should_attempt_recovery, attempts.
  destruct (recovery_attempts h !! simulation_id) as [per_type|]; simpl; [|done].
  intros H%Nat.ltb_ge. done.
Qed.

Lemma attempts_increment simulation_id e sim' e' h :
  attempts sim' e' (_increment_recovery_attempt simulation_id e h)
  = if decide (simulation_id = sim' ∧ e = e')
    then attempts simulation_id e h + 1
    else attempts sim' e' h.
Proof.
  unfold attempts, _increment_recovery_attempt. simpl.
  destruct (decide (simulation_id = sim')) as [->|Hs].
  - rewrite lookup_insert_eq. simpl.
    destruct (decide (e = e')) as [->|He].
    + rewrite lookup_insert_eq. simpl. rewrite decide_True; done.
    + rewrite lookup_insert_ne by done. rewrite decide_False; [done|].
      intros [_ ?]. done.
  - rewrite lookup_insert_ne by done. rewrite decide_False; [done|].
    intros [? _]. done.
Qed.

Lemma execute_recovery_attempts simulation_id action context env h :
  recovery_attempts (_execute_recovery_strategy simulation_id action context env h).1.2
  = recovery_attempts h.
Proof.
  unfold _execute_recovery_strategy, _restart_carla_server.
  destruct (strategy action); simpl; try done.
  - destruct (max_carla_restarts h <=? carla_restart_count h); [done|].
    destruct (carla_comes_up env); done.
  - destruct (_restore_from_checkpoint _ _ _); done.
Qed.

Lemma execute_recovery_executed simulation_id action context env h :
  executed (_execute_recovery_strategy simulation_id action context env h).1.2
  = executed h ++ [(simulation_id, strategy action)].
Proof.
  unfold _execute_recovery_strategy, _restart_carla_server.
  destruct (strategy action); simpl; try done.
  - destruct (max_carla_restarts h <=? carla_restart_count h); [done|].
    destruct (carla_comes_up env); done.
  - destruct (_restore_from_checkpoint _ _ _); done.
Qed.

Lemma execute_recovery_state_manager simulation_id action context env h :
  state_manager (_execute_recovery_strategy simulation_id action context env h).1.2
  = state_manager h.
Proof.
  unfold _execute_recovery_strategy, _restart_carla_server.
  destruct (strategy action); simpl; try done.
  - destruct (max_carla_restarts h <=? carla_restart_count h); [done|].
    destruct (carla_comes_up env); done.
  - destruct (_restore_from_checkpoint _ _ _); done.
Qed.

Lemma attempts_recorded simulation_id e msg context env h sim' e' :
  attempts sim' e' (recorded simulation_id e msg context env h) = attempts sim' e' h.
Proof. done. Qed.

Lemma should_attempt_recorded simulation_id e msg context env h :
  _should_attempt_recovery simulation_id e (recorded simulation_id e msg context env h)
  = _should_attempt_recovery simulation_id e h.
Proof. done. Qed.

(** The two ways through [handle_error]. *)
Lemma handle_error_refused simulation_id e msg context env h :
  _should_attempt_recovery simulation_id e h = false →
  handle_error simulation_id e msg context env h
  = (false, recorded simulation_id e msg context env h, context).
Proof.
  intros Hs. unfold handle_error. fold (recorded simulation_id e msg context env h).
  rewrite should_attempt_recorded, Hs. done.
Qed.

Lemma handle_error_attempted simulation_id e msg context env h :
  _should_attempt_recovery simulation_id e h = true →
  let run :=
    _execute_recovery_strategy simulation_id (recovery_strategies e)
      (default empty_context context) env
      (_increment_recovery_attempt simulation_id e
         (recorded simulation_id e msg context env h)) in
  handle_error simulation_id e msg context env h
  = (run.1.1,
     set_state_manager
       (StateManager.set_errors
          (update_last_error run.1.1
             (StateManager.error_history (state_manager run.1.2)))
          (StateManager.errors_jsonl (state_manager run.1.2))
          (state_manager run.1.2)) run.1.2,
     match context with Some _ => Some run.2 | None => None end).
Proof.
  intros Hs run. unfold handle_error.
  fold (recorded simulation_id e msg context env h).
  rewrite should_attempt_recorded, Hs. simpl. fold run.
  destruct run as [[success h'] context']. done.
Qed.

Lemma handle_error_attempts simulation_id e msg context env h sim' e' :
  attempts sim' e' (handle_error simulation_id e msg context env h).1.2
  = if _should_attempt_recovery simulation_id e h
    then if decide (simulation_id = sim' ∧ e = e')
         then attempts simulation_id e h + 1
         else attempts sim' e' h
    else attempts sim' e' h.
Proof.
  destruct (_should_attempt_recovery simulation_id e h) eqn:Hs.
  - rewrite (handle_error_attempted simulation_id e msg context env h Hs).
    unfold attempts at 1. simpl. rewrite execute_recovery_attempts.
    fold (attempts sim' e'
            (_increment_recovery_attempt simulation_id e
               (recorded simulation_id e msg context env h))).
    rewrite attempts_increment. done.
  - rewrite handle_error_refused by done. done.
Qed.

Lemma reachable_attempts_bounded h :
  reachable h →
  ∀ simulation_id e,
    attempts simulation_id e h ≤ max_attempts (recovery_strategies e).
Proof.
  induction 1 as [sm|sim0 e0 msg context env h _ IH|sm h _ IH];
    intros simulation_id e.
  - unfold attempts; simpl. rewrite lookup_empty; simpl. rewrite lookup_empty.
    simpl. lia.
  - rewrite handle_error_attempts.
    destruct (_should_attempt_recovery sim0 e0 h) eqn:Hs; [|apply IH].
    case_decide as Hd; [|apply IH]. destruct Hd as [-> ->].
    apply should_attempt_true in Hs. lia.
  - apply IH.
Qed.

(** C4.  In every handler state that arises from [__init__] the counter of
    each (simulation, error type) pair is at most that type's [max_attempts];
    and a call of [handle_error] for a pair whose counter has reached
    [max_attempts] returns [False], runs no recovery strategy and leaves
    every counter as it was. *)
Theorem recovery_attempts_bounded
    (h h_full : t) (simulation_id : string) (e : ErrorType) (msg : string)
    (context : option Context) (env : Env) :
  reachable h →
  max_attempts (recovery_strategies e) ≤ attempts simulation_id e h_full →
  (∀ sim' e', attempts sim' e' h ≤ max_attempts (recovery_strategies e')) ∧
  (handle_error simulation_id e msg context env h_full).1.1 = false ∧
  executed (handle_error simulation_id e msg context env h_full).1.2
  = executed h_full ∧
  (∀ sim' e',
     attempts sim' e' (handle_error simulation_id e msg context env h_full).1.2
     = attempts sim' e' h_full).
Proof.
  intros Hr Hfull. split; [by apply reachable_attempts_bounded|].
  assert (_should_attempt_recovery simulation_id e h_full = false) as Hs.
  { destruct (_should_attempt_recovery simulation_id e h_full) eqn:Hs; [|done].
    apply should_attempt_true in Hs. lia. }
  rewrite handle_error_refused by done. done.
Qed.



End ErrorHandlerFacts.

(** ** Checkpoint restore *)

Section CheckpointFacts.
Import StateManager.

Lemma transform_eta (tr : Carla.Transform) :
  {| Carla.location :=
       {| Carla.x := Carla.x (Carla.location tr);
          Carla.y := Carla.y (Carla.location tr);
          Carla.z := Carla.z (Carla.location tr) |};
     Carla.rotation :=
       {| Carla.pitch := Carla.pitch (Carla.rotation tr);
          Carla.yaw := Carla.yaw (Carla.rotation tr);
          Carla.roll := Carla.roll (Carla.rotation tr) |} |} = tr.
Proof. destruct tr as [[] []]. done. Qed.

Lemma restore_checkpoint_missing simulation_id world vehicle_bp sm :
  checkpoints sm !! simulation_id = None →
  restore_checkpoint simulation_id world vehicle_bp sm = (None, world).
Proof. intros H. unfold restore_checkpoint. by rewrite H. Qed.

Lemma restore_checkpoint_stored simulation_id world vehicle_bp sm cp :
  checkpoints sm !! simulation_id = Some cp →
  Carla.can_spawn world vehicle_bp (SimulationCheckpoint.vehicle_transform cp) = true →
  ∃ vehicle world',
    restore_checkpoint simulation_id world vehicle_bp sm = (Some vehicle, world') ∧
    Carla.get_transform vehicle = SimulationCheckpoint.vehicle_transform cp ∧
    Carla.type_id vehicle = vehicle_bp ∧
    Carla.get_actors world' = Carla.get_actors world ++ [vehicle].
Proof.
  intros H Hs. unfold restore_checkpoint. rewrite H, transform_eta.
  unfold Carla.spawn_actor. rewrite Hs. eexists _, _. done.
Qed.

Lemma set_world_same w c :
  ErrorHandler.world c = Some w → ErrorHandler.set_world w c = c.
Proof. destruct c. simpl. by intros ->. Qed.

(** C10.  For a simulation id without a stored checkpoint, restoring
    returns nothing and leaves the world as it was (the store is only read),
    the dispatcher's strategy reports failure with the context untouched, and
    a [handle_error] that ends in that strategy changes neither the
    checkpoints in memory nor their files.  For an id with a stored
    checkpoint, and a world that accepts the spawn, restoring returns a
    vehicle whose transform is the stored one, field for field, adds it to
    the world's actors, and the dispatcher's strategy reports success.  The
    stored checkpoint is the one of the latest [create_checkpoint] for that
    id, whose transform is the one the vehicle had then. *)
Theorem restore_checkpoint_exact
    (simulation_id : string) (world : Carla.World) (vehicle_bp : string)
    (sm_missing sm_stored : StateManager.t) (cp : SimulationCheckpoint.t) :
  checkpoints sm_missing !! simulation_id = None →
  checkpoints sm_stored !! simulation_id = Some cp →
  Carla.can_spawn world vehicle_bp (SimulationCheckpoint.vehicle_transform cp) = true →
  (restore_checkpoint simulation_id world vehicle_bp sm_missing = (None, world) ∧
   ∀ (context : ErrorHandler.Context) (h : ErrorHandler.t) (msg : string)
     (env : ErrorHandler.Env),
     ErrorHandler.state_manager h = sm_missing →
     ErrorHandler._restore_from_checkpoint simulation_id context h = (false, context) ∧
     let '(success, h', context') :=
       ErrorHandler.handle_error simulation_id ErrorHandler.SIMULATION_ERROR msg
         (Some context) env h in
     success = false ∧ context' = Some context ∧
     checkpoints (ErrorHandler.state_manager h') = checkpoints sm_missing ∧
     checkpoint_files (ErrorHandler.state_manager h') = checkpoint_files sm_missing) ∧
  (∃ vehicle world',
     restore_checkpoint simulation_id world vehicle_bp sm_stored
     = (Some vehicle, world') ∧
     Carla.get_transform vehicle = SimulationCheckpoint.vehicle_transform cp ∧
     Carla.type_id vehicle = vehicle_bp ∧
     Carla.get_actors world' = Carla.get_actors world ++ [vehicle] ∧
     ∀ (context : ErrorHandler.Context) (h : ErrorHandler.t),
       ErrorHandler.state_manager h = sm_stored →
       ErrorHandler.world context = Some world →
       ErrorHandler.vehicle_bp context = Some vehicle_bp →
       ErrorHandler._restore_from_checkpoint simulation_id context h
       = (true, ErrorHandler.set_world world' context)) ∧
  (∀ (now : Z) (disk_ok : bool) (vehicle : Carla.Actor) (w : Carla.World)
     (sm : StateManager.t),
     Carla.is_alive vehicle = true →
     ∃ cp', checkpoints (create_checkpoint now disk_ok simulation_id vehicle w sm).2
              !! simulation_id = Some cp' ∧
            SimulationCheckpoint.vehicle_transform cp' = Carla.get_transform vehicle).
Proof.
  intros Hmiss Hstored Hspawn. split; [|split].
  - split; [by apply restore_checkpoint_missing|].
    intros context h msg env Hsm.
    assert (ErrorHandler._restore_from_checkpoint simulation_id context h
            = (false, context)) as Hrestore.
    { unfold ErrorHandler._restore_from_checkpoint.
      destruct (ErrorHandler.world context) as [w|] eqn:Hw; [|done].
      destruct (ErrorHandler.vehicle_bp context) as [bp|]; [|done].
      rewrite Hsm, restore_checkpoint_missing by done.
      by rewrite set_world_same. }
    split; [done|].
    destruct (ErrorHandler._should_attempt_recovery simulation_id
                ErrorHandler.SIMULATION_ERROR h) eqn:Hs.
    + rewrite (handle_error_attempted _ _ msg (Some context) env h Hs).
      unfold ErrorHandler._execute_recovery_strategy. simpl.
      assert (∀ h0, ErrorHandler.state_manager h0
                    = ErrorHandler.state_manager
                        (ErrorHandler.recorded simulation_id
                           ErrorHandler.SIMULATION_ERROR msg (Some context) env h) →
                ErrorHandler._restore_from_checkpoint simulation_id context h0
                = (false, context)) as Hrestore'.
      { intros h0 Hh0. unfold ErrorHandler._restore_from_checkpoint.
        destruct (ErrorHandler.world context) as [w|] eqn:Hw; [|done].
        destruct (ErrorHandler.vehicle_bp context) as [bp|]; [|done].
        rewrite restore_checkpoint_missing; [by rewrite set_world_same|].
        rewrite Hh0. simpl. by rewrite Hsm. }
      rewrite Hrestore' by done. simpl. by rewrite Hsm.
    + rewrite handle_error_refused by done. simpl. by rewrite Hsm.
  - destruct (restore_checkpoint_stored simulation_id world vehicle_bp
                sm_stored cp Hstored Hspawn) as (vehicle & world' & Hr & ? & ? & ?).
    exists vehicle, world'. do 4 (split; [done|]).
    intros context h Hsm Hw Hbp.
    unfold ErrorHandler._restore_from_checkpoint. by rewrite Hw, Hbp, Hsm, Hr.
  - intros now disk_ok vehicle w sm Halive.
    unfold create_checkpoint. rewrite Halive. simpl.
    eexists. rewrite lookup_insert_eq. done.
Qed.

End CheckpointFacts.

(** ** The registry of active workflows *)

Section RegistryFacts.
Import Registry.

Lemma running_created o :
  reachable o → ∀ r, r ∈ running o → workflow_state r < created o.
Proof.
  induction 1 as [|eid o _ IH|r0 o _ IH Hin]; intros r Hr; simpl in *.
  - by apply elem_of_nil in Hr.
  - apply elem_of_app in Hr as [Hr|Hr%list_elem_of_singleton].
    + specialize (IH r Hr). lia.
    + subst r. simpl. lia.
  - apply list_elem_of_In, List.filter_In in Hr as [Hr%list_elem_of_In _]. by apply IH.
Qed.

Lemma reachable_exclusive_reachable o : reachable_exclusive o → reachable o.
Proof. induction 1; by constructor. Qed.

Lemma exclusive_invariant o :
  reachable_exclusive o →
  one_state_per_id o ∧
  (∀ r, r ∈ running o →
        active_workflows o !! experiment_id r = Some (workflow_state r)) ∧
  (∀ eid st, active_workflows o !! eid = Some st →
             {| experiment_id := eid; workflow_state := st |} ∈ running o).
Proof.
  induction 1 as [|eid o Ho (IH1 & IH2 & IH3) Hfresh|r0 o Ho (IH1 & IH2 & IH3) Hin].
  - split; [|split].
    + intros r1 r2 Hr1. by apply elem_of_nil in Hr1.
    + intros r Hr. by apply elem_of_nil in Hr.
    + intros eid st. simpl. by rewrite lookup_empty.
  - assert (∀ r, r ∈ running o → experiment_id r ≠ eid) as Hne.
    { intros r Hr Heq. apply Hfresh. rewrite <- Heq.
      apply list_elem_of_In, List.in_map, list_elem_of_In. done. }
    split; [|split].
    + intros r1 r2 Hr1 Hr2 Heq. simpl in *.
      apply elem_of_app in Hr1 as [Hr1|Hr1%list_elem_of_singleton];
        apply elem_of_app in Hr2 as [Hr2|Hr2%list_elem_of_singleton].
      * by apply IH1.
      * subst r2. simpl in Heq. by apply Hne in Hr1.
      * subst r1. simpl in Heq. symmetry in Heq. by apply Hne in Hr2.
      * by subst.
    + intros r Hr. simpl in *.
      apply elem_of_app in Hr as [Hr|Hr%list_elem_of_singleton].
      * rewrite lookup_insert_ne by (symmetry; by apply Hne). by apply IH2.
      * subst r. simpl. by rewrite lookup_insert_eq.
    + intros eid' st. simpl. destruct (decide (eid = eid')) as [->|Hd].
      * rewrite lookup_insert_eq. intros [= <-]. apply elem_of_app. right.
        by apply list_elem_of_singleton.
      * rewrite lookup_insert_ne by done. intros Hl. apply elem_of_app. left.
        by apply IH3.
  - split; [|split].
    + intros r1 r2 Hr1 Hr2 Heq. simpl in *.
      apply list_elem_of_In, List.filter_In in Hr1 as [Hr1%list_elem_of_In _].
      apply list_elem_of_In, List.filter_In in Hr2 as [Hr2%list_elem_of_In _].
      by apply IH1.
    + intros r Hr. simpl in *.
      apply list_elem_of_In, List.filter_In in Hr as [Hr%list_elem_of_In Hd].
      apply bool_decide_eq_true in Hd.
      rewrite lookup_delete_ne; [by apply IH2|].
      intros Heq. apply Hd. symmetry. by apply IH1.
    + intros eid st. simpl. destruct (decide (experiment_id r0 = eid)) as [<-|Hd].
      * by rewrite lookup_delete_eq.
      * rewrite lookup_delete_ne by done. intros Hl.
        apply list_elem_of_In, List.filter_In. split.
        -- apply list_elem_of_In. by apply IH3.
        -- apply bool_decide_eq_true. intros <-. done.
Qed.

End RegistryFacts.

(** ** Workflow orchestrator *)

Section WorkflowMonad.
Import Workflow.

Context (settings : Settings) (env : nat → Reply).

(** *** The monad *)

Lemma bind_unfold {A B : Type} (c : M A) (k : A → M B) m :
  bind c k m = match c m with
               | (Ret a, m') => k a m'
               | (Raise e, m') => (Raise e, m')
               | (OutOfFuel, m') => (OutOfFuel, m')
               end.
Proof. done. Qed.

Lemma preserves_ret {A X : Type} (g : Machine → X) (a : A) : preserves g (ret a).
Proof. done. Qed.

Lemma preserves_raise {A X : Type} (g : Machine → X) e :
  preserves g (raise (A := A) e).
Proof. done. Qed.

Lemma preserves_get {A X : Type} (g : Machine → X) (f : WorkflowState.t → A) :
  preserves g (get f).
Proof. done. Qed.

Lemma preserves_bind {A B X : Type} (g : Machine → X) (c : M A) (k : A → M B) :
  preserves g c → (∀ a, preserves g (k a)) → preserves g (bind c k).
Proof.
  intros Hc Hk m. unfold bind. specialize (Hc m).
  destruct (c m) as [[a|e|] m1]; simpl in *; try done.
  by rewrite Hk.
Qed.

Lemma preserves_try_except {A X : Type} (g : Machine → X) (c : M A)
    (h : string → M A) :
  preserves g c → (∀ e, preserves g (h e)) → preserves g (try_except c h).
Proof.
  intros Hc Hh m. unfold try_except. specialize (Hc m).
  destruct (c m) as [[a|e|] m1]; simpl in *; try done.
  by rewrite Hh.
Qed.

(** *** Observations of the trace *)

Lemma observe_record {X : Type} (f : Event → option X) ev m :
  observe f (record_event ev m) = observe f m ++ from_option (λ x, [x]) [] (f ev).
Proof.
  unfold observe. simpl. rewrite omap_app. simpl. by destruct (f ev).
Qed.

Lemma observe_suspended {X : Type} (f : Event → option X) r m :
  (∀ eid ph, f (Call (publish_experiment_event eid "workflow_cancelled"
                        (data_phase ph))) = None) →
  observe f (suspended r m) = observe f m.
Proof.
  intros Hf. unfold suspended, cancel_workflow.
  destruct (cancel_requested r); [|done]. case_decide; [|done]. simpl.
  rewrite observe_record, Hf. simpl. by rewrite app_nil_r.
Qed.

Lemma observe_await {X : Type} (f : Event → option X) c m :
  (∀ eid ph, f (Call (publish_experiment_event eid "workflow_cancelled"
                        (data_phase ph))) = None) →
  observe f (await env c m).2
  = observe f m ++ from_option (λ x, [x]) [] (f (Call c)).
Proof.
  intros Hf. unfold await.
  destruct (raises (env (tick m))); simpl;
    rewrite observe_suspended by done; apply (observe_record f (Call c) m).
Qed.

Lemma observe_sleep {X : Type} (f : Event → option X) ms m :
  (∀ eid ph, f (Call (publish_experiment_event eid "workflow_cancelled"
                        (data_phase ph))) = None) →
  observe f (asyncio_sleep env ms m).2
  = observe f m ++ from_option (λ x, [x]) [] (f (Call (sleep ms))).
Proof.
  intros Hf. unfold asyncio_sleep. simpl.
  rewrite observe_suspended by done. apply (observe_record f (Call (sleep ms)) m).
Qed.

Lemma preserves_await {X : Type} (f : Event → option X) c :
  plain f → f (Call c) = None → preserves (observe f) (await env c).
Proof.
  intros [Hf _] Hc m. rewrite observe_await, Hc by done. simpl.
  by rewrite app_nil_r.
Qed.

Lemma preserves_sleep {X : Type} (f : Event → option X) ms :
  plain f → preserves (observe f) (asyncio_sleep env ms).
Proof.
  intros [Hf Hs] m. rewrite observe_sleep, Hs by done. simpl.
  by rewrite app_nil_r.
Qed.

Lemma preserves_emit {X : Type} (f : Event → option X) ev :
  f ev = None → preserves (observe f) (emit ev).
Proof.
  intros Hev m. unfold emit. simpl. rewrite observe_record, Hev. simpl.
  by rewrite app_nil_r.
Qed.

Lemma preserves_modify {X : Type} (f : Event → option X) u :
  preserves (observe f) (modify u).
Proof. done. Qed.

Lemma preserves_utcnow {X : Type} (f : Event → option X) :
  preserves (observe f) (utcnow env).
Proof. done. Qed.

Lemma preserves_attempt {A X : Type} (g : Machine → X) (c : M A) :
  preserves g c → preserves g (attempt c).
Proof.
  intros Hc m. unfold attempt. specialize (Hc m).
  by destruct (c m) as [[a|e|] m1].
Qed.

(** *** The current phase *)

Lemma phase_suspended r m : current_phase_of (suspended r m) = current_phase_of m.
Proof.
  unfold suspended, cancel_workflow. destruct (cancel_requested r); [|done].
  by case_decide.
Qed.

Lemma phase_await c : preserves current_phase_of (await env c).
Proof.
  intros m. unfold await. destruct (raises (env (tick m))); simpl;
    by rewrite phase_suspended.
Qed.

Lemma phase_sleep ms : preserves current_phase_of (asyncio_sleep env ms).
Proof. intros m. unfold asyncio_sleep. simpl. by rewrite phase_suspended. Qed.

Lemma phase_emit ev : preserves current_phase_of (emit ev).
Proof. done. Qed.

Lemma phase_utcnow : preserves current_phase_of (utcnow env).
Proof. done. Qed.

Lemma phase_modify u :
  (∀ s, WorkflowState.current_phase (u s) = WorkflowState.current_phase s) →
  preserves current_phase_of (modify u).
Proof. intros Hu m. apply Hu. Qed.

(** *** Readings of the workflow state *)

Lemma state_suspended {X : Type} (g : WorkflowState.t → X) r m :
  blind_to_cancel g → observe_state g (suspended r m) = observe_state g m.
Proof.
  intros Hg. unfold suspended, cancel_workflow.
  destruct (cancel_requested r); [|done]. case_decide; [|done]. apply Hg.
Qed.

Lemma state_await {X : Type} (g : WorkflowState.t → X) c :
  blind_to_cancel g → preserves (observe_state g) (await env c).
Proof.
  intros Hg m. unfold await. destruct (raises (env (tick m))); simpl;
    by rewrite state_suspended.
Qed.

Lemma state_sleep {X : Type} (g : WorkflowState.t → X) ms :
  blind_to_cancel g → preserves (observe_state g) (asyncio_sleep env ms).
Proof. intros Hg m. unfold asyncio_sleep. simpl. by rewrite state_suspended. Qed.

Lemma state_emit {X : Type} (g : WorkflowState.t → X) ev :
  preserves (observe_state g) (emit ev).
Proof. done. Qed.

Lemma state_utcnow {X : Type} (g : WorkflowState.t → X) :
  preserves (observe_state g) (utcnow env).
Proof. done. Qed.

Lemma state_modify {X : Type} (g : WorkflowState.t → X) u :
  (∀ s, g (u s) = g s) → preserves (observe_state g) (modify u).
Proof. intros Hu m. apply Hu. Qed.

Lemma tick_suspended r m : tick (suspended r m) = tick m.
Proof.
  unfold suspended, cancel_workflow. destruct (cancel_requested r); [|done].
  by case_decide.
Qed.

Lemma trace_suspended r m : ∃ rest, trace (suspended r m) = trace m ++ rest.
Proof.
  unfold suspended, cancel_workflow. destruct (cancel_requested r);
    [|exists []; by rewrite app_nil_r].
  case_decide; [by eexists|exists []; by rewrite app_nil_r].
Qed.

Lemma await_returns c m :
  raises (env (tick m)) = None →
  await env c m
  = (Ret (env (tick m)),
     suspended (env (tick m)) (next_tick (record_event (Call c) m))).
Proof. intros H. unfold await. by rewrite H. Qed.

Lemma await_raises c m e :
  raises (env (tick m)) = Some e →
  await env c m
  = (Raise e, suspended (env (tick m)) (next_tick (record_event (Call c) m))).
Proof. intros H. unfold await. by rewrite H. Qed.

Lemma plain_mark : plain mark.
Proof. split; done. Qed.

Lemma plain_allocation : plain allocation.
Proof. split; done. Qed.

Lemma plain_publication : plain publication.
Proof. split; done. Qed.

Lemma plain_iteration_call : plain iteration_call.
Proof. split; done. Qed.

Lemma plain_iteration_start : plain iteration_start.
Proof. split; done. Qed.

Lemma plain_logged_error : plain logged_error.
Proof. split; done. Qed.

Lemma error_count_blind : blind_to_cancel WorkflowState.error_count.
Proof. done. Qed.

(** *** The cancellation flag *)


Lemma maintains_raise {A : Type} (P : Machine → Prop) e :
  maintains P (raise (A := A) e).
Proof. by intros m. Qed.

Lemma maintains_get {A : Type} (P : Machine → Prop) (f : WorkflowState.t → A) :
  maintains P (get f).
Proof. by intros m. Qed.

Lemma maintains_bind {A B : Type} (P : Machine → Prop) (c : M A) (k : A → M B) :
  maintains P c → (∀ a, maintains P (k a)) → maintains P (bind c k).
Proof.
  intros Hc Hk m Hm. unfold bind. specialize (Hc m Hm).
  destruct (c m) as [[a|e|] m1]; simpl in *; try done. by apply Hk.
Qed.








(** *** Termination *)

Lemma terminates_ret {A : Type} (a : A) : terminates (ret a).
Proof. done. Qed.
Lemma terminates_raise {A : Type} e : terminates (raise (A := A) e).
Proof. done. Qed.
Lemma terminates_get {A : Type} (f : WorkflowState.t → A) : terminates (get f).
Proof. done. Qed.
Lemma terminates_modify u : terminates (modify u).
Proof. done. Qed.
Lemma terminates_emit ev : terminates (emit ev).
Proof. done. Qed.
Lemma terminates_utcnow : terminates (utcnow env).
Proof. done. Qed.
Lemma terminates_sleep ms : terminates (asyncio_sleep env ms).
Proof. done. Qed.
Lemma terminates_await c : terminates (await env c).
Proof. intros m. unfold await. by destruct (raises (env (tick m))). Qed.
Lemma terminates_bind {A B : Type} (c : M A) (k : A → M B) :
  terminates c → (∀ a, terminates (k a)) → terminates (bind c k).
Proof.
  intros Hc Hk m. unfold bind. specialize (Hc m).
  destruct (c m) as [[a|e|] m1]; simpl in *; try done. apply Hk.
Qed.
Lemma terminates_try_except {A : Type} (c : M A) (h : string → M A) :
  terminates c → (∀ e, terminates (h e)) → terminates (try_except c h).
Proof.
  intros Hc Hh m. unfold try_except. specialize (Hc m).
  destruct (c m) as [[a|e|] m1]; simpl in *; try done. apply Hh.
Qed.
End WorkflowMonad.

(** Goals [preserves g c], for [g] a plain projection of the trace or the
    current phase, by the structure of [c]. *)
Ltac quiet_step :=
  first
    [ apply preserves_ret | apply preserves_raise | apply preserves_get
    | apply preserves_bind; [|intros ?]
    | apply preserves_try_except; [|intros ?]
    | apply preserves_attempt
    | apply preserves_modify | apply preserves_utcnow
    | apply preserves_sleep; split; done
    | apply preserves_emit; done
    | apply preserves_await; [split; done|done]
    | apply phase_await | apply phase_sleep | apply phase_emit
    | apply phase_utcnow | apply phase_modify; done
    | apply state_await; done | apply state_sleep; done | apply state_emit
    | apply state_utcnow | apply state_modify; done
    | match goal with
      | |- Workflow.preserves _ (match ?x with _ => _ end) => destruct x
      end
    | assumption ].

Ltac quiet := repeat quiet_step.



Ltac total_step :=
  first
    [ apply terminates_ret | apply terminates_raise | apply terminates_get
    | apply terminates_modify | apply terminates_emit | apply terminates_utcnow
    | apply terminates_sleep | apply terminates_await
    | apply terminates_bind; [|intros ?]
    | apply terminates_try_except; [|intros ?]
    | match goal with
      | |- Workflow.terminates (match ?x with _ => _ end) => destruct x
      end
    | assumption ].
Ltac total := repeat total_step.


Section WorkflowFacts.
Import Workflow.

Context (settings : Settings) (env : nat → Reply).

Lemma update_workflow_phase_quiet {X : Type} (f : Event → option X) :
  plain f → (∀ eid ph, f (Call (update_experiment_phase eid ph)) = None) →
  preserves (observe f) (_update_workflow_phase env).
Proof.
  intros Hp Hf. unfold _update_workflow_phase. quiet.
  apply preserves_await; done.
Qed.

Lemma update_workflow_phase_phase :
  preserves current_phase_of (_update_workflow_phase env).
Proof. unfold _update_workflow_phase. quiet. Qed.

Lemma initialization_body_marks :
  preserves (observe mark) (initialization_body env).
Proof.
  unfold initialization_body, _validate_experiment_config,
    _initialize_workflow_resources. quiet.
Qed.

Lemma initialization_body_phase :
  preserves current_phase_of (initialization_body env).
Proof.
  unfold initialization_body, _validate_experiment_config,
    _initialize_workflow_resources. quiet.
Qed.

Lemma verify_readiness_marks service_name label failure attempt remaining :
  preserves (observe mark)
    (verify_readiness env service_name label failure attempt remaining).
Proof.
  revert attempt. induction remaining as [|remaining IH]; intros attempt; simpl.
  - quiet.
  - quiet. apply IH.
Qed.

Lemma verify_readiness_phase service_name label failure attempt remaining :
  preserves current_phase_of
    (verify_readiness env service_name label failure attempt remaining).
Proof.
  revert attempt. induction remaining as [|remaining IH]; intros attempt; simpl.
  - quiet.
  - quiet. apply IH.
Qed.

Lemma carla_setup_body_marks : preserves (observe mark) (carla_setup_body env).
Proof.
  unfold carla_setup_body, _verify_carla_readiness. quiet.
Qed.

Lemma carla_setup_body_phase : preserves current_phase_of (carla_setup_body env).
Proof.
  unfold carla_setup_body, _verify_carla_readiness. quiet.
Qed.

Lemma dreamer_setup_body_marks : preserves (observe mark) (dreamer_setup_body env).
Proof.
  unfold dreamer_setup_body, _verify_dreamer_readiness. quiet.
Qed.

Lemma dreamer_setup_body_phase :
  preserves current_phase_of (dreamer_setup_body env).
Proof.
  unfold dreamer_setup_body, _verify_dreamer_readiness. quiet.
Qed.

Lemma simulation_step_marks simulation_time l :
  preserves (observe mark) (simulation_step env simulation_time l).
Proof.
  unfold simulation_step, simulation_step_calls, simulation_step_progress,
    simulation_step_failed. quiet.
Qed.

Lemma simulation_step_phase simulation_time l :
  preserves current_phase_of (simulation_step env simulation_time l).
Proof.
  unfold simulation_step, simulation_step_calls, simulation_step_progress,
    simulation_step_failed. quiet.
Qed.

Lemma simulation_loop_marks fuel simulation_time l :
  preserves (observe mark) (simulation_loop env fuel simulation_time l).
Proof.
  revert l. induction fuel as [|fuel IH]; intros l; simpl; [done|].
  quiet; first [apply IH | apply simulation_step_marks].
Qed.

Lemma simulation_loop_phase fuel simulation_time l :
  preserves current_phase_of (simulation_loop env fuel simulation_time l).
Proof.
  revert l. induction fuel as [|fuel IH]; intros l; simpl; [done|].
  quiet; first [apply IH | apply simulation_step_phase].
Qed.

Lemma simulation_body_marks fuel :
  preserves (observe mark) (simulation_body env fuel).
Proof.
  unfold simulation_body, _run_simulation_loop, loop_results.
  quiet; apply simulation_loop_marks.
Qed.

Lemma simulation_body_phase fuel :
  preserves current_phase_of (simulation_body env fuel).
Proof.
  unfold simulation_body, _run_simulation_loop, loop_results.
  quiet; apply simulation_loop_phase.
Qed.

Lemma store_artifacts_marks eid artifacts :
  preserves (observe mark) (store_artifacts env eid artifacts).
Proof. induction artifacts as [|a artifacts IH]; simpl; quiet. Qed.

Lemma store_artifacts_phase eid artifacts :
  preserves current_phase_of (store_artifacts env eid artifacts).
Proof. induction artifacts as [|a artifacts IH]; simpl; quiet. Qed.

Lemma result_processing_body_marks :
  preserves (observe mark) (result_processing_body env).
Proof.
  unfold result_processing_body, _generate_experiment_summary.
  quiet; apply store_artifacts_marks.
Qed.

Lemma result_processing_body_phase :
  preserves current_phase_of (result_processing_body env).
Proof.
  unfold result_processing_body, _generate_experiment_summary.
  quiet; apply store_artifacts_phase.
Qed.

Lemma cleanup_body_marks : preserves (observe mark) (cleanup_body env).
Proof. unfold cleanup_body, _cleanup_temporary_resources. quiet. Qed.

Lemma cleanup_body_phase : preserves current_phase_of (cleanup_body env).
Proof. unfold cleanup_body, _cleanup_temporary_resources. quiet. Qed.

Lemma observe_bind_tail {A B X : Type} (f : Event → option X) (c : M A)
    (k : A → M B) m :
  (∀ a, preserves (observe f) (k a)) →
  observe f (bind c k m).2 = observe f (c m).2.
Proof.
  intros Hk. unfold bind. destruct (c m) as [[a|e|] m1]; simpl; try done.
  apply Hk.
Qed.

Lemma handle_phase_error_marks ph e m :
  observe mark (_handle_phase_error settings env ph e m).2
  = observe mark m ++ [MPhaseError ph].
Proof.
  unfold _handle_phase_error.
  rewrite bind_unfold. simpl. rewrite bind_unfold. simpl.
  rewrite bind_unfold. simpl. rewrite bind_unfold. simpl.
  rewrite observe_bind_tail.
  - rewrite observe_await by done. simpl. rewrite observe_record. simpl.
    by rewrite app_nil_r.
  - intros _. quiet.
Qed.

Lemma handle_phase_error_phase ph e :
  preserves current_phase_of (_handle_phase_error settings env ph e).
Proof. unfold _handle_phase_error. quiet. Qed.

Lemma update_workflow_phase_marks :
  preserves (observe mark) (_update_workflow_phase env).
Proof. unfold _update_workflow_phase. quiet. Qed.

Lemma update_workflow_phase_total : terminates (_update_workflow_phase env).
Proof. unfold _update_workflow_phase. total. Qed.

Lemma cleanup_body_total : terminates (cleanup_body env).
Proof. unfold cleanup_body, _cleanup_temporary_resources. total. Qed.

(** What a phase adds to the skeleton. *)
Lemma phase_spec p body m :
  preserves (observe mark) body → preserves current_phase_of body →
  match phase settings env p body m with
  | (Ret _, m') =>
      observe mark m' = observe mark m ++ [MPhase p] ∧ current_phase_of m' = p
  | (Raise _, m') =>
      (observe mark m' = observe mark m ++ [MPhase p] ∨
       observe mark m' = observe mark m ++ [MPhase p; MPhaseError (value p)]) ∧
      current_phase_of m' = p
  | (OutOfFuel, _) => True
  end.
Proof.
  intros Hbm Hbp. unfold phase, phase_try, set_phase.
  rewrite bind_unfold. simpl. rewrite bind_unfold.
  set (m1 := record_event (PhaseSet p) (with_wf (WorkflowState.set_current_phase p) m)).
  assert (observe mark m1 = observe mark m ++ [MPhase p]) as Hm1
    by (unfold m1; rewrite observe_record; done).
  assert (current_phase_of m1 = p) as Hp1 by done.
  pose proof (update_workflow_phase_marks m1) as Hu.
  pose proof (update_workflow_phase_phase m1) as Hup.
  destruct (_update_workflow_phase env m1) as [[[]|e|] m2]; simpl in *; [| |done].
  - pose proof (Hbm m2) as Hb. pose proof (Hbp m2) as Hb'. unfold try_except.
    destruct (body m2) as [[[]|e|] m3]; simpl in *; [| |done].
    + split; congruence.
    + rewrite bind_unfold.
      pose proof (handle_phase_error_marks (value p) e m3) as Hh.
      pose proof (handle_phase_error_phase (value p) e m3) as Hh'.
      destruct (_handle_phase_error settings env (value p) e m3)
        as [[[]|e'|] m4]; simpl in *; [| |done].
      * split; [right|congruence]. rewrite Hh, Hb, Hu, Hm1, <- app_assoc. done.
      * split; [right|congruence]. rewrite Hh, Hb, Hu, Hm1, <- app_assoc. done.
  - split; [left|]; congruence.
Qed.

(** The cleanup phase returns unless its phase update raises. *)
Lemma cleanup_phase_spec m :
  match _execute_cleanup_phase env m with
  | (Ret _, m') =>
      observe mark m' = observe mark m ++ [MPhase CLEANUP] ∧
      current_phase_of m' = CLEANUP
  | (Raise e, m') =>
      raises (env (tick m)) = Some e ∧
      observe mark m' = observe mark m ++ [MPhase CLEANUP] ∧
      current_phase_of m' = CLEANUP
  | (OutOfFuel, _) => False
  end.
Proof.
  unfold _execute_cleanup_phase, set_phase.
  rewrite bind_unfold. simpl. rewrite bind_unfold.
  set (m1 := record_event (PhaseSet CLEANUP)
               (with_wf (WorkflowState.set_current_phase CLEANUP) m)).
  assert (observe mark m1 = observe mark m ++ [MPhase CLEANUP]) as Hm1
    by (unfold m1; rewrite observe_record; done).
  assert (current_phase_of m1 = CLEANUP) as Hp1 by done.
  pose proof (update_workflow_phase_marks m1) as Hu.
  pose proof (update_workflow_phase_phase m1) as Hup.
  assert (∀ e m2, _update_workflow_phase env m1 = (Raise e, m2) →
                  raises (env (tick m)) = Some e) as Hraise.
  { unfold _update_workflow_phase. intros e m2.
    rewrite bind_unfold. simpl. rewrite bind_unfold. simpl.
    rewrite bind_unfold. unfold await. simpl.
    destruct (raises (env (tick m))); simpl; intros ?; by simplify_eq. }
  pose proof (update_workflow_phase_total m1) as Ht.
  destruct (_update_workflow_phase env m1) as [[[]|e|] m2]; simpl in *; [| |done].
  - pose proof (cleanup_body_marks m2) as Hb.
    pose proof (cleanup_body_phase m2) as Hb'.
    pose proof (cleanup_body_total m2) as Hbt.
    unfold try_except.
    destruct (cleanup_body env m2) as [[[]|e|] m3]; simpl in *; [| |done].
    + split; congruence.
    + unfold observe in *. simpl.
      rewrite omap_app. simpl. rewrite app_nil_r. split; [congruence|].
      change (current_phase_of m3 = CLEANUP). congruence.
  - split; [by eapply Hraise|]. split; congruence.
Qed.

Lemma workflow_failed_spec e m :
  match workflow_failed env e m with
  | (Ret _, m') =>
      observe mark m' = observe mark m ++ [MPhase FAILED; MPhase CLEANUP] ∧
      current_phase_of m' = CLEANUP
  | (Raise _, m') =>
      observe mark m' = observe mark m ++ [MPhase FAILED] ∧
      current_phase_of m' = FAILED
  | (OutOfFuel, _) => False
  end.
Proof.
  unfold workflow_failed, set_phase.
  rewrite bind_unfold. simpl. rewrite bind_unfold. simpl.
  rewrite bind_unfold. simpl.
  set (m1 := record_event (PhaseSet FAILED) _).
  assert (observe mark m1 = observe mark m ++ [MPhase FAILED]) as Hm1.
  { unfold m1, observe. simpl. rewrite !omap_app. simpl.
    by rewrite app_nil_r. }
  assert (current_phase_of m1 = FAILED) as Hp1 by done.
  unfold _handle_workflow_failure.
  rewrite bind_unfold. simpl. rewrite bind_unfold. simpl.
  set (m2 := record_event (LogError _) m1).
  assert (observe mark m2 = observe mark m1) as Hm2.
  { unfold m2. rewrite observe_record. simpl. by rewrite app_nil_r. }
  assert (current_phase_of m2 = FAILED) as Hp2 by done.
  rewrite bind_unfold.
  set (c1 := update_experiment_result_failed _ _).
  pose proof (preserves_await env mark c1 plain_mark eq_refl m2) as Ha.
  pose proof (phase_await env c1 m2) as Ha'.
  pose proof (terminates_await env c1 m2) as Hat.
  destruct (await env c1 m2) as [[r1|e1|] m3]; simpl in *; [| |done].
  - rewrite bind_unfold.
    set (c2 := publish_experiment_event _ _ _).
    pose proof (preserves_await env mark c2 plain_mark eq_refl m3) as Hb.
    pose proof (phase_await env c2 m3) as Hb'.
    pose proof (terminates_await env c2 m3) as Hbt.
    destruct (await env c2 m3) as [[r2|e2|] m4]; simpl in *; [| |done].
    + unfold try_except. pose proof (cleanup_phase_spec m4) as Hc.
      destruct (_execute_cleanup_phase env m4) as [[[]|e3|] m5]; simpl in *;
        [| |done].
      * destruct Hc as [Hc ?]. split; [|done].
        rewrite Hc, Hb, Ha, Hm2, Hm1, <- app_assoc. done.
      * destruct Hc as (_ & Hc & ?). split; [|done].
        rewrite observe_record. simpl. rewrite app_nil_r.
        rewrite Hc, Hb, Ha, Hm2, Hm1, <- app_assoc. done.
    + split; congruence.
  - split; congruence.
Qed.

Lemma workflow_body_spec fuel m :
  match workflow_body settings env fuel m with
  | (Ret _, m') =>
      observe mark m' = observe mark m ++ (MPhase <$> phase_order) ∧
      current_phase_of m' = COMPLETED
  | (Raise _, m') =>
      ∃ k err,
        1 ≤ k ∧ k ≤ 7 ∧
        observe mark m' = observe mark m ++ (MPhase <$> take k phase_order) ++ err ∧
        (err = [] ∨
         k ≤ 5 ∧ ∃ p, phase_order !! (k - 1) = Some p ∧
                      err = [MPhaseError (value p)])
  | (OutOfFuel, _) => True
  end.
Proof.
  unfold workflow_body.
  rewrite bind_unfold. unfold _execute_initialization_phase.
  pose proof (phase_spec INITIALIZATION _ m
                initialization_body_marks initialization_body_phase) as H1.
  destruct (phase settings env INITIALIZATION _ m) as [[[]|e|] m1]; [| |done].
  2:{ destruct H1 as [[H1|H1] _]; rewrite H1.
      - exists 1, []. split_and!; [lia|lia|done|by left].
      - exists 1, [MPhaseError (value INITIALIZATION)].
        split_and!; [lia|lia|done|]. right. split; [lia|]. by eexists. }
  destruct H1 as [H1 _].
  rewrite bind_unfold. unfold _execute_carla_setup_phase.
  pose proof (phase_spec CARLA_SETUP _ m1
                carla_setup_body_marks carla_setup_body_phase) as H2.
  destruct (phase settings env CARLA_SETUP _ m1) as [[[]|e|] m2]; [| |done].
  2:{ destruct H2 as [[H2|H2] _]; rewrite H2, H1, <- app_assoc.
      - exists 2, []. split_and!; [lia|lia|done|by left].
      - exists 2, [MPhaseError (value CARLA_SETUP)].
        split_and!; [lia|lia|done|]. right. split; [lia|]. by eexists. }
  destruct H2 as [H2 _]. rewrite H1, <- app_assoc in H2. simpl in H2.
  rewrite bind_unfold. unfold _execute_dreamer_setup_phase.
  pose proof (phase_spec DREAMER_SETUP _ m2
                dreamer_setup_body_marks dreamer_setup_body_phase) as H3.
  destruct (phase settings env DREAMER_SETUP _ m2) as [[[]|e|] m3]; [| |done].
  2:{ destruct H3 as [[H3|H3] _]; rewrite H3, H2, <- app_assoc.
      - exists 3, []. split_and!; [lia|lia|done|by left].
      - exists 3, [MPhaseError (value DREAMER_SETUP)].
        split_and!; [lia|lia|done|]. right. split; [lia|]. by eexists. }
  destruct H3 as [H3 _]. rewrite H2, <- app_assoc in H3. simpl in H3.
  rewrite bind_unfold. unfold _execute_simulation_phase.
  pose proof (phase_spec SIMULATION_EXECUTION _ m3
                (simulation_body_marks fuel) (simulation_body_phase fuel)) as H4.
  destruct (phase settings env SIMULATION_EXECUTION _ m3) as [[[]|e|] m4]; [| |done].
  2:{ destruct H4 as [[H4|H4] _]; rewrite H4, H3, <- app_assoc.
      - exists 4, []. split_and!; [lia|lia|done|by left].
      - exists 4, [MPhaseError (value SIMULATION_EXECUTION)].
        split_and!; [lia|lia|done|]. right. split; [lia|]. by eexists. }
  destruct H4 as [H4 _]. rewrite H3, <- app_assoc in H4. simpl in H4.
  rewrite bind_unfold. unfold _execute_result_processing_phase.
  pose proof (phase_spec RESULT_PROCESSING _ m4
                result_processing_body_marks result_processing_body_phase) as H5.
  destruct (phase settings env RESULT_PROCESSING _ m4) as [[[]|e|] m5]; [| |done].
  2:{ destruct H5 as [[H5|H5] _]; rewrite H5, H4, <- app_assoc.
      - exists 5, []. split_and!; [lia|lia|done|by left].
      - exists 5, [MPhaseError (value RESULT_PROCESSING)].
        split_and!; [lia|lia|done|]. right. split; [lia|]. by eexists. }
  destruct H5 as [H5 _]. rewrite H4, <- app_assoc in H5. simpl in H5.
  rewrite bind_unfold.
  pose proof (cleanup_phase_spec m5) as H6.
  destruct (_execute_cleanup_phase env m5) as [[[]|e|] m6]; [| |done].
  2:{ destruct H6 as (_ & H6 & _). rewrite H6, H5, <- app_assoc.
      exists 6, []. split_and!; [lia|lia|done|by left]. }
  destruct H6 as [H6 _]. rewrite H5, <- app_assoc in H6. simpl in H6.
  rewrite bind_unfold. unfold set_phase. rewrite bind_unfold. simpl.
  set (m7 := record_event (PhaseSet COMPLETED) _).
  assert (observe mark m7 = observe mark m ++ (MPhase <$> phase_order)) as H7.
  { unfold m7. rewrite observe_record. simpl.
    change (observe mark (with_wf (WorkflowState.set_current_phase COMPLETED) m6))
      with (observe mark m6). rewrite H6, <- app_assoc. done. }
  pose proof (update_workflow_phase_marks m7) as Hu.
  pose proof (update_workflow_phase_phase m7) as Hup.
  destruct (_update_workflow_phase env m7) as [[[]|e|] m8]; simpl in *; [| |done].
  - split; [congruence|]. by rewrite Hup.
  - exists 7, []. split_and!; [lia|lia| |by left].
    rewrite Hu, H7, app_nil_r. done.
Qed.

End WorkflowFacts.

(** ** Whole runs of the workflow *)

Section WorkflowRuns.
Import Workflow.

Context (settings : Settings) (env : nat → Reply).

(** The skeleton of a whole run, and the phase it ends in. *)
Lemma workflow_skeleton fuel experiment_id config active :
  match execute_experiment_workflow settings env fuel experiment_id config active with
  | (Ret _, m) =>
      (experiment_id ∉ active_workflows m) ∧
      ((marks (trace m) = MPhase <$> phase_order ∧ current_phase_of m = COMPLETED) ∨
       (failed_skeleton [MPhase FAILED; MPhase CLEANUP] (marks (trace m)) ∧
        current_phase_of m = CLEANUP))
  | (Raise _, m) =>
      (experiment_id ∉ active_workflows m) ∧
      (failed_skeleton [MPhase FAILED] (marks (trace m)) ∧
       current_phase_of m = FAILED)
  | (OutOfFuel, _) => True
  end.
Proof.
  assert (∀ a : gset string, experiment_id ∉ a ∖ {[experiment_id]}) as Hgone.
  { intros a [_ Hn]%elem_of_difference. by apply Hn, elem_of_singleton. }
  unfold execute_experiment_workflow, try_finally, try_except.
  set (m0 := workflow_start experiment_id config active).
  pose proof (workflow_body_spec settings env fuel m0) as Hb.
  change (observe mark m0) with (@nil Mark) in Hb.
  destruct (workflow_body settings env fuel m0) as [[[]|e|] m1]; [| |done].
  - simpl. split; [apply Hgone|]. left. done.
  - pose proof (workflow_failed_spec env e m1) as Hf.
    destruct (workflow_failed env e m1) as [[[]|e'|] m2]; [| |done];
      simpl; (split; [apply Hgone|]); destruct Hb as (k & err & ? & ? & Hm & Herr);
      destruct Hf as [Hf ?]; [right|]; (split; [|done]);
      exists k, err; split_and!; try done;
      change (marks (trace m2)) with (observe mark m2);
      rewrite Hf, Hm; simpl; by rewrite <- app_assoc.
Qed.


Lemma failed_skeleton_error tail skeleton ph :
  failed_skeleton tail skeleton → MPhase FAILED ∈ tail →
  MPhaseError ph ∈ skeleton → MPhase FAILED ∈ skeleton.
Proof.
  intros (k & err & _ & _ & -> & _) Ht _.
  apply elem_of_app. right. apply elem_of_app. by right.
Qed.

Lemma filter_eq_absent {A : Type} `{EqDecision A} (x : A) (l : list A) :
  x ∉ l → filter (λ y, y = x) l = [].
Proof.
  induction l as [|y l IH]; [done|]. intros Hx.
  apply not_elem_of_cons in Hx as [Hne Hx].
  rewrite filter_cons_False by (by intros ->). by apply IH.
Qed.

Lemma filter_eq_NoDup {A : Type} `{EqDecision A} (x : A) (l : list A) :
  NoDup l → length (filter (λ y, y = x) l) ≤ 1.
Proof.
  induction 1 as [|y l Hy Hnd IH]; [simpl; lia|].
  destruct (decide (y = x)) as [->|Hne].
  - rewrite filter_cons_True by done. simpl.
    rewrite filter_eq_absent by done. simpl. lia.
  - rewrite filter_cons_False by done. done.
Qed.

Lemma failed_skeleton_once tail skeleton p :
  failed_skeleton tail skeleton →
  (∀ q, MPhase q ∈ tail → q = FAILED ∨ q = CLEANUP) →
  p ∈ take 5 phase_order →
  length (filter (λ mk, mk = MPhase p) skeleton) ≤ 1.
Proof.
  intros (k & err & Hk1 & Hk7 & -> & Herr) Htail Hp.
  rewrite !filter_app, !length_app.
  assert (length (filter (λ mk, mk = MPhase p) tail) = 0) as ->.
  { rewrite filter_eq_absent; [done|]. intros Hmk%Htail.
    apply list_elem_of_In in Hp. simpl in Hp.
    intuition (subst; discriminate). }
  assert (length (filter (λ mk, mk = MPhase p) err) = 0) as ->.
  { destruct Herr as [->|(_ & q & _ & ->)]; [done|].
    rewrite filter_cons_False; done. }
  assert (NoDup (MPhase <$> take k phase_order)) as Hnd.
  { apply NoDup_fmap_2; [by intros ?? [=]|].
    eapply sublist_NoDup; [|apply sublist_take].
    unfold phase_order. apply NoDup_ListNoDup.
    repeat constructor; simpl; intuition congruence. }
  pose proof (filter_eq_NoDup (MPhase p) _ Hnd). lia.
Qed.

(** C2, as amended.  In every run that ends, the phases are entered in
    their order, each of the five working phases at most once: no phase is
    entered again after an error, whatever [max_retries] allows.  A run whose
    phases all return is the seven phases in order.  Otherwise the run stops
    at the phase that raised, the workflow is set to [FAILED], and after that
    only [CLEANUP] is entered, at most once; in particular a published phase
    error is always followed by [FAILED]. *)
Theorem phases_forward_without_retry
    (fuel : nat) (experiment_id : string) (config : ExperimentConfig.t)
    (active : gset string) :
  match execute_experiment_workflow settings env fuel experiment_id config active with
  | (OutOfFuel, _) => True
  | (r, m) =>
      ((r = Ret () ∧ marks (trace m) = MPhase <$> phase_order) ∨
       failed_skeleton [MPhase FAILED] (marks (trace m)) ∨
       failed_skeleton [MPhase FAILED; MPhase CLEANUP] (marks (trace m))) ∧
      (∀ ph, MPhaseError ph ∈ marks (trace m) → MPhase FAILED ∈ marks (trace m)) ∧
      (∀ p, p ∈ take 5 phase_order →
            length (filter (λ mk, mk = MPhase p) (marks (trace m))) ≤ 1)
  end.
Proof.
  pose proof (workflow_skeleton fuel experiment_id config active) as H.
  assert (∀ q, MPhase q ∈ [MPhase FAILED; MPhase CLEANUP] →
               q = FAILED ∨ q = CLEANUP) as Ht2.
  { intros q Hq%list_elem_of_In. simpl in Hq. intuition congruence. }
  assert (∀ q, MPhase q ∈ [MPhase FAILED] → q = FAILED ∨ q = CLEANUP) as Ht1.
  { intros q Hq%list_elem_of_In. simpl in Hq. intuition congruence. }
  assert (MPhase FAILED ∈ [MPhase FAILED; MPhase CLEANUP]) as Hin2
    by apply list_elem_of_here.
  assert (MPhase FAILED ∈ [MPhase FAILED]) as Hin1 by apply list_elem_of_here.
  assert (∀ p, p ∈ take 5 phase_order →
               length (filter (λ mk, mk = MPhase p) (MPhase <$> phase_order)) ≤ 1)
    as Hall.
  { intros p Hp%list_elem_of_In. simpl in Hp.
    destruct Hp as [<-|[<-|[<-|[<-|[<-|[]]]]]]; vm_compute; lia. }
  destruct (execute_experiment_workflow settings env fuel experiment_id config active)
    as [[[]|e|] m]; [| |done].
  - destruct H as [_ [[Hm _]|[Hm _]]].
    + split; [left; done|]. rewrite Hm. split; [|done].
      intros ph Hph%list_elem_of_In. simpl in Hph. intuition discriminate.
    + split; [right; right; done|]. split.
      * intros ph. by apply (failed_skeleton_error _ _ _ Hm).
      * intros p. by apply (failed_skeleton_once _ _ _ Hm).
  - destruct H as [_ [Hm _]]. split; [right; left; done|]. split.
    + intros ph. by apply (failed_skeleton_error _ _ _ Hm).
    + intros p. by apply (failed_skeleton_once _ _ _ Hm).
Qed.


(** C9, as amended.  Once the phase update at the entry of Cleanup has gone
    through, the cleanup phase returns normally whatever the session releases,
    the clean-up of temporary resources and the final publication do: an error
    among them is logged as a warning and swallowed.  After the transition to
    [FAILED], once the failure has been written and published, Cleanup is
    entered exactly once and the failure handler returns normally; the
    handler raises only from that writing or publishing, and then Cleanup is
    not entered. *)
Theorem cleanup_errors_swallowed (m m_failed : Machine) (e : string) :
  raises (env (tick m)) = None →
  raises (env (tick m_failed)) = None →
  raises (env (S (tick m_failed))) = None →
  let entered :=
    suspended (env (tick m))
      (next_tick
         (record_event
            (Call (update_experiment_phase
                     (WorkflowState.experiment_id (wf m)) (value CLEANUP)))
            (record_event (PhaseSet CLEANUP)
               (with_wf (WorkflowState.set_current_phase CLEANUP) m)))) in
  ((_execute_cleanup_phase env m).1 = Ret () ∧
   ∀ e' m',
     cleanup_body env entered = (Raise e', m') →
     _execute_cleanup_phase env m
     = (Ret (),
        record_event
          (LogWarning ("Cleanup phase had errors for "
                         +:+ WorkflowState.experiment_id (wf m')
                         +:+ ": " +:+ e')) m')) ∧
  (∃ m', workflow_failed env e m_failed = (Ret (), m') ∧
         observe mark m'
         = observe mark m_failed ++ [MPhase FAILED; MPhase CLEANUP]) ∧
  (∀ e0 m0,
     match workflow_failed env e0 m0 with
     | (Ret _, m') =>
         observe mark m' = observe mark m0 ++ [MPhase FAILED; MPhase CLEANUP]
     | (Raise _, m') => observe mark m' = observe mark m0 ++ [MPhase FAILED]
     | (OutOfFuel, _) => False
     end).
Proof.
  intros Hupd Hwrite Hpublish entered. split; [|split].
  - assert (_execute_cleanup_phase env m
            = try_except (cleanup_body env)
                (λ e',
                   bind (get WorkflowState.experiment_id)
                     (λ eid, emit (LogWarning
                        ("Cleanup phase had errors for " +:+ eid +:+ ": " +:+ e'))))
                entered) as Heq.
    { unfold _execute_cleanup_phase, set_phase, _update_workflow_phase.
      rewrite bind_unfold. simpl. rewrite bind_unfold.
      rewrite bind_unfold. simpl. rewrite bind_unfold. simpl.
      rewrite bind_unfold. rewrite (await_returns env) by done. done. }
    split.
    + pose proof (cleanup_phase_spec env m) as Hc.
      destruct (_execute_cleanup_phase env m) as [[[]|e1|] m1]; [done| |done].
      destruct Hc as [Hc _]. congruence.
    + intros e' m' Hbody. rewrite Heq. unfold try_except. rewrite Hbody. done.
  - pose proof (workflow_failed_spec env e m_failed) as Hf.
    assert (∀ e1 m1, workflow_failed env e m_failed ≠ (Raise e1, m1)) as Hnot.
    { unfold workflow_failed, set_phase, _handle_workflow_failure.
      intros e1 m1.
      rewrite bind_unfold. simpl. rewrite bind_unfold. simpl.
      rewrite bind_unfold. simpl. rewrite bind_unfold. simpl.
      rewrite bind_unfold. simpl. rewrite bind_unfold.
      rewrite (await_returns env) by done. rewrite bind_unfold.
      rewrite (await_returns env) by (rewrite tick_suspended; done).
      unfold try_except.
      destruct (_execute_cleanup_phase env _) as [[[]|e3|] m5]; done. }
    destruct (workflow_failed env e m_failed) as [[[]|e1|] m1]; [| |done].
    + exists m1. by destruct Hf.
    + by destruct (Hnot e1 m1).
  - intros e0 m0. pose proof (workflow_failed_spec env e0 m0) as Hf.
    destruct (workflow_failed env e0 m0) as [[[]|e1|] m1]; [| |done];
      by destruct Hf.
Qed.


Lemma config_blind : blind_to_cancel WorkflowState.config.
Proof. done. Qed.

Lemma initialization_phase_allocation :
  preserves (observe allocation) (_execute_initialization_phase settings env).
Proof.
  unfold _execute_initialization_phase, phase, phase_try, set_phase,
    _update_workflow_phase, initialization_body, _validate_experiment_config,
    _initialize_workflow_resources, _handle_phase_error.
  quiet.
Qed.

Lemma workflow_failed_allocation e :
  preserves (observe allocation) (workflow_failed env e).
Proof.
  unfold workflow_failed, set_phase, _handle_workflow_failure,
    _execute_cleanup_phase, set_phase, _update_workflow_phase, cleanup_body,
    _cleanup_temporary_resources.
  quiet.
Qed.

Lemma handle_phase_error_total ph e :
  terminates (_handle_phase_error settings env ph e).
Proof. unfold _handle_phase_error. total. Qed.

(** With an invalid configuration the initialization phase raises. *)
Lemma initialization_raises config e m :
  invalid_config config = Some e →
  WorkflowState.config (wf m) = config →
  ∃ e' m', _execute_initialization_phase settings env m = (Raise e', m').
Proof.
  intros Hinv Hcfg.
  unfold _execute_initialization_phase, phase, phase_try, set_phase.
  rewrite bind_unfold. simpl. rewrite bind_unfold.
  set (m1 := record_event _ _).
  assert (observe_state WorkflowState.config m1 = config) as Hc1 by done.
  pose proof (update_workflow_phase_total env m1) as Ht.
  assert (preserves (observe_state WorkflowState.config)
            (_update_workflow_phase env)) as Hpres.
  { unfold _update_workflow_phase. quiet. }
  specialize (Hpres m1).
  destruct (_update_workflow_phase env m1) as [[[]|e1|] m2];
    [|by eexists _, _|done].
  assert (WorkflowState.config (wf m2) = config) as Hc2
    by (rewrite <- Hc1; exact Hpres).
  unfold try_except, initialization_body. rewrite bind_unfold. simpl.
  rewrite Hc2. rewrite bind_unfold. unfold _validate_experiment_config. rewrite Hinv. simpl.
  rewrite bind_unfold.
  match goal with
  | |- context [_handle_phase_error ?a ?b ?c ?d ?m0] =>
      pose proof (handle_phase_error_total c d m0) as Hh;
      destruct (_handle_phase_error a b c d m0) as [[[]|e2|] m3]
  end; simpl in *; [by eexists _, _|by eexists _, _|done].
Qed.

(** C5, as amended.  Validation raises for an invalid configuration and
    touches nothing.  It runs inside the initialization phase, after the
    workflow state has been registered and the phase update has been issued
    to the database: before validation the only external call is that
    update; nothing has been published and no session has been allocated.
    The phase then raises, the run never enters [CARLA_SETUP], and no session
    is allocated in the whole run, which ends on the failure path. *)
Theorem invalid_config_rejected
    (config : ExperimentConfig.t) (e : string) (m : Machine)
    (fuel : nat) (experiment_id : string) (active : gset string) :
  invalid_config config = Some e →
  WorkflowState.config (wf m) = config →
  (∀ m0, _validate_experiment_config config m0 = (Raise e, m0)) ∧
  (let entered :=
     (bind (set_phase INITIALIZATION) (λ _, _update_workflow_phase env) m).2 in
   observe publication entered = observe publication m ∧
   observe allocation entered = observe allocation m ∧
   ∃ rest,
     trace entered
     = trace m ++ PhaseSet INITIALIZATION
         :: Call (update_experiment_phase
                    (WorkflowState.experiment_id (wf m)) "initialization")
         :: rest) ∧
  (∃ e' m', _execute_initialization_phase settings env m = (Raise e', m') ∧
            observe allocation m' = observe allocation m) ∧
  match execute_experiment_workflow settings env fuel experiment_id config active with
  | (OutOfFuel, _) => False
  | (_, m') =>
      experiment_id ∈ active_workflows (workflow_start experiment_id config active) ∧
      observe allocation m' = [] ∧
      ∃ err tail,
        marks (trace m') = MPhase INITIALIZATION :: err ++ MPhase FAILED :: tail ∧
        (err = [] ∨ err = [MPhaseError "initialization"]) ∧
        (tail = [] ∨ tail = [MPhase CLEANUP])
  end.
Proof.
  intros Hinv Hcfg. split; [|split; [|split]].
  - intros m0. unfold _validate_experiment_config. by rewrite Hinv.
  - intros entered.
    assert (∀ {X : Type} (f : Event → option X),
              plain f → f (PhaseSet INITIALIZATION) = None →
              (∀ eid ph, f (Call (update_experiment_phase eid ph)) = None) →
              observe f entered = observe f m) as Hobs.
    { intros X f Hp Hs Hu. unfold entered.
      assert (preserves (observe f)
                (bind (set_phase INITIALIZATION)
                   (λ _, _update_workflow_phase env))) as Hq.
      { unfold set_phase, _update_workflow_phase.
        quiet; first [by apply preserves_emit | by apply preserves_await]. }
      apply Hq. }
    split; [by apply Hobs|]. split; [by apply Hobs|].
    unfold entered, set_phase, _update_workflow_phase, bind, modify, emit, get,
      ret, await. simpl.
    match goal with
    | |- context [suspended ?r ?m1] =>
        destruct (trace_suspended r m1) as [rest Hrest]
    end.
    exists rest.
    destruct (raises (env (tick m))); simpl; rewrite Hrest; simpl;
      by rewrite <- !app_assoc.
  - destruct (initialization_raises config e m Hinv Hcfg) as (e' & m' & Hr).
    exists e', m'. split; [done|].
    pose proof (initialization_phase_allocation m) as Ha. by rewrite Hr in Ha.
  - unfold execute_experiment_workflow, try_finally, try_except.
    set (m0 := workflow_start experiment_id config active).
    assert (experiment_id ∈ active_workflows m0) as Hreg.
    { simpl. apply elem_of_union. left. by apply elem_of_singleton. }
    destruct (initialization_raises config e m0 Hinv eq_refl) as (e' & m1 & Hr).
    pose proof (initialization_phase_allocation m0) as Ha. rewrite Hr in Ha.
    pose proof (phase_spec settings env INITIALIZATION (initialization_body env) m0
                  (initialization_body_marks env) (initialization_body_phase env))
      as Hm.
    fold (_execute_initialization_phase settings env) in Hm. rewrite Hr in Hm.
    destruct Hm as [Hm _].
    unfold workflow_body. rewrite bind_unfold, Hr.
    pose proof (workflow_failed_spec env e' m1) as Hf.
    pose proof (workflow_failed_allocation e' m1) as Hfa.
    destruct (workflow_failed env e' m1) as [[[]|e2|] m2]; simpl in *; [| |done].
    + split; [done|]. split; [change (observe allocation m2 = []); by rewrite Hfa, Ha|].
      destruct Hf as [Hf _]. change (marks (trace m2)) with (observe mark m2).
      destruct Hm as [Hm|Hm]; rewrite Hf, Hm.
      * exists [], [MPhase CLEANUP]. split; [done|]. split; [by left|by right].
      * exists [MPhaseError "initialization"], [MPhase CLEANUP].
        split; [done|]. split; by right.
    + split; [done|]. split; [change (observe allocation m2 = []); by rewrite Hfa, Ha|].
      destruct Hf as [Hf _]. change (marks (trace m2)) with (observe mark m2).
      destruct Hm as [Hm|Hm]; rewrite Hf, Hm.
      * exists [], []. split; [done|]. split; by left.
      * exists [MPhaseError "initialization"], [].
        split; [done|]. split; [by right|by left].
Qed.

End WorkflowRuns.

(** ** The registry of active workflows *)

Section RegistryRuns.
Import Registry.

Context (settings : Workflow.Settings) (env : nat → Workflow.Reply).

(** C1, as amended.  [self.active_workflows] is a dictionary, so it holds
    at most one [WorkflowState] per experiment id.  Entering
    [execute_experiment_workflow] registers the run's own new [WorkflowState]
    under its id, whatever was registered there before, and touches no other
    id; leaving it removes the entry of that id.  When a run is started only
    for an id that has no run in progress, at any time the runs in progress
    have pairwise different ids, each run's state is the one registered under
    its id, and every registered state belongs to a run in progress.  A run
    of [execute_experiment_workflow] has its id registered when it starts,
    and when it has ended, returning or raising, the id is registered no
    more. *)
Theorem active_workflows_registry (o o_any : Orchestrator) (eid : string) (r : Run)
    (fuel : nat) (config : ExperimentConfig.t) (active : gset string) :
  reachable_exclusive o →
  reachable o_any →
  (active_workflows (enter eid o_any) !! eid = Some (created o_any) ∧
   (∀ r', r' ∈ running o_any → workflow_state r' ≠ created o_any) ∧
   (∀ eid', eid' ≠ eid →
      active_workflows (enter eid o_any) !! eid' = active_workflows o_any !! eid') ∧
   running (enter eid o_any)
   = running o_any ++ [{| experiment_id := eid; workflow_state := created o_any |}]) ∧
  (active_workflows (leave r o_any) !! experiment_id r = None ∧
   r ∉ running (leave r o_any)) ∧
  (one_state_per_id o ∧
   (∀ r', r' ∈ running o →
      active_workflows o !! experiment_id r' = Some (workflow_state r')) ∧
   (∀ eid' st, active_workflows o !! eid' = Some st →
      {| experiment_id := eid'; workflow_state := st |} ∈ running o)) ∧
  (eid ∈ Workflow.active_workflows (Workflow.workflow_start eid config active) ∧
   match Workflow.execute_experiment_workflow settings env fuel eid config active with
   | (Workflow.OutOfFuel, _) => True
   | (_, m) => eid ∉ Workflow.active_workflows m
   end).
Proof.
  intros Ho Hany. split; [|split; [|split]].
  - simpl. split; [by rewrite lookup_insert_eq|]. split.
    + intros r' Hr'. pose proof (running_created _ Hany r' Hr'). lia.
    + split; [|done]. intros eid' Hne. by rewrite lookup_insert_ne.
  - simpl. split; [by rewrite lookup_delete_eq|].
    intros Hr%list_elem_of_In%List.filter_In. destruct Hr as [_ Hd].
    apply bool_decide_eq_true in Hd. done.
  - by apply exclusive_invariant.
  - split.
    + simpl. apply elem_of_union_l, elem_of_singleton. done.
    + pose proof (workflow_skeleton settings env fuel eid config active) as H.
      destruct (Workflow.execute_experiment_workflow settings env fuel eid
                  config active) as [[[]|e|] m]; [apply H|apply H|done].
Qed.

End RegistryRuns.

(** ** The loop of the Execution phase *)

Section WorkflowLoop.
Import Workflow.

Context (settings : Settings) (env : nat → Reply).

(** What one iteration does to the counters. *)
Lemma simulation_step_calls_spec m :
  match simulation_step_calls env m with
  | (OutOfFuel, _) => False
  | (_, m') =>
      observe iteration_start m' = observe iteration_start m ++ [()] ∧
      observe logged_error m' = observe logged_error m ∧
      observe_state WorkflowState.error_count m'
      = observe_state WorkflowState.error_count m
  end.
Proof.
  assert (preserves (observe logged_error) (simulation_step_calls env)) as Hl
    by (unfold simulation_step_calls; quiet).
  assert (preserves (observe_state WorkflowState.error_count)
            (simulation_step_calls env)) as He
    by (unfold simulation_step_calls; quiet).
  assert (terminates (simulation_step_calls env)) as Ht
    by (unfold simulation_step_calls; total).
  assert (observe iteration_start (simulation_step_calls env m).2
          = observe iteration_start m ++ [()]) as Hs.
  { unfold simulation_step_calls.
    rewrite bind_unfold. simpl. rewrite bind_unfold. simpl.
    rewrite observe_bind_tail.
    - rewrite observe_await by done. done.
    - intros r. quiet. }
  specialize (Hl m). specialize (He m). specialize (Ht m).
  destruct (simulation_step_calls env m) as [[a|e|] m']; done.
Qed.

Lemma simulation_step_progress_spec simulation_time l m :
  match simulation_step_progress env simulation_time l m with
  | (OutOfFuel, _) => False
  | (_, m') =>
      observe iteration_start m' = observe iteration_start m ∧
      observe logged_error m' = observe logged_error m ∧
      observe_state WorkflowState.error_count m'
      = observe_state WorkflowState.error_count m
  end.
Proof.
  assert (preserves (observe iteration_start)
            (simulation_step_progress env simulation_time l)) as Hs
    by (unfold simulation_step_progress; quiet).
  assert (preserves (observe logged_error)
            (simulation_step_progress env simulation_time l)) as Hl
    by (unfold simulation_step_progress; quiet).
  assert (preserves (observe_state WorkflowState.error_count)
            (simulation_step_progress env simulation_time l)) as He
    by (unfold simulation_step_progress; quiet).
  assert (terminates (simulation_step_progress env simulation_time l)) as Ht
    by (unfold simulation_step_progress; total).
  specialize (Hs m). specialize (Hl m). specialize (He m). specialize (Ht m).
  destruct (simulation_step_progress env simulation_time l m) as [[a|e|] m']; done.
Qed.

Lemma simulation_step_failed_spec l e m :
  let count := WorkflowState.error_count (wf m) + 1 in
  ∃ m',
    simulation_step_failed l e m
    = (if 10 <? count
       then Raise ("Too many simulation errors (" +:+ pretty count +:+ ")")
       else Ret l, m') ∧
    observe iteration_start m' = observe iteration_start m ∧
    length (observe logged_error m') = S (length (observe logged_error m)) ∧
    WorkflowState.error_count (wf m') = count.
Proof.
  intros count.
  exists (with_wf (WorkflowState.set_error_count count)
            (record_event
               (LogError ("Error in simulation step " +:+ pretty (step_count l)
                            +:+ ": " +:+ e)) m)).
  split; [|split; [|split]].
  - unfold simulation_step_failed, bind, emit, modify, get. simpl.
    fold count. by destruct (10 <? count).
  - unfold observe. simpl. rewrite omap_app. simpl. by rewrite app_nil_r.
  - unfold observe. simpl. rewrite omap_app, length_app. simpl. lia.
  - done.
Qed.

Lemma simulation_step_spec simulation_time l m :
  match simulation_step env simulation_time l m with
  | (OutOfFuel, _) => False
  | (Ret l', m') =>
      length (observe iteration_start m')
      = length (observe iteration_start m) + 1 ∧
      ((step_count l' = step_count l + 1 ∧
        length (observe logged_error m') = length (observe logged_error m) ∧
        error_count_of m' = error_count_of m) ∨
       (step_count l' = step_count l ∧
        length (observe logged_error m') = length (observe logged_error m) + 1 ∧
        error_count_of m' = error_count_of m + 1 ∧
        error_count_of m' ≤ 10))
  | (Raise e, m') =>
      length (observe iteration_start m')
      = length (observe iteration_start m) + 1 ∧
      length (observe logged_error m') = length (observe logged_error m) + 1 ∧
      error_count_of m' = error_count_of m + 1 ∧
      10 < error_count_of m' ∧
      e = too_many (error_count_of m')
  end.
Proof.
  assert (∀ l0 e0 m1,
            length (observe iteration_start m1)
            = length (observe iteration_start m) + 1 →
            length (observe logged_error m1) = length (observe logged_error m) →
            error_count_of m1 = error_count_of m →
            step_count l0 = step_count l →
            match simulation_step_failed l0 e0 m1 with
            | (OutOfFuel, _) => False
            | (Ret l', m') =>
                length (observe iteration_start m')
                = length (observe iteration_start m) + 1 ∧
                ((step_count l' = step_count l + 1 ∧
                  length (observe logged_error m')
                  = length (observe logged_error m) ∧
                  error_count_of m' = error_count_of m) ∨
                 (step_count l' = step_count l ∧
                  length (observe logged_error m')
                  = length (observe logged_error m) + 1 ∧
                  error_count_of m' = error_count_of m + 1 ∧
                  error_count_of m' ≤ 10))
            | (Raise e, m') =>
                length (observe iteration_start m')
                = length (observe iteration_start m) + 1 ∧
                length (observe logged_error m')
                = length (observe logged_error m) + 1 ∧
                error_count_of m' = error_count_of m + 1 ∧
                10 < error_count_of m' ∧
                e = too_many (error_count_of m')
            end) as Hfailed.
  { intros l0 e0 m1 Hs Hl He Hl0.
    destruct (simulation_step_failed_spec l0 e0 m1) as (m' & Heq & Hs' & Hl' & He').
    rewrite Heq. unfold error_count_of in *.
    destruct (Nat.ltb_spec 10 (WorkflowState.error_count (wf m1) + 1)).
    - split_and!; try lia; [by rewrite Hs'|by rewrite He'].
    - split; [by rewrite Hs'|]. right. split_and!; lia. }
  unfold simulation_step. rewrite bind_unfold. unfold attempt at 1.
  pose proof (simulation_step_calls_spec m) as Hc.
  destruct (simulation_step_calls env m) as [[metrics|e|] m1]; [| |done].
  - destruct Hc as (Hs1 & Hl1 & He1). rewrite bind_unfold. unfold attempt.
    match goal with
    | |- context [simulation_step_progress env simulation_time ?l1 m1] =>
        pose proof (simulation_step_progress_spec simulation_time l1 m1) as Hp;
        destruct (simulation_step_progress env simulation_time l1 m1)
          as [[[]|e|] m2]; [| |done]
    end.
    + destruct Hp as (Hs2 & Hl2 & He2). rewrite bind_unfold.
      pose proof (preserves_sleep env iteration_start 100 plain_iteration_start m2) as Hs3.
      pose proof (preserves_sleep env logged_error 100 plain_logged_error m2) as Hl3.
      pose proof (state_sleep env WorkflowState.error_count 100 error_count_blind m2)
        as He3.
      destruct (asyncio_sleep env 100 m2) as [[[]|e|] m3] eqn:Hsl;
        [|done|done]. simpl in *.
      rewrite Hs3, Hs2, Hs1, length_app. split; [done|]. left.
      unfold error_count_of. unfold observe_state in *.
      rewrite Hl3, Hl2, Hl1, He3, He2, He1. done.
    + destruct Hp as (Hs2 & Hl2 & He2).
      apply Hfailed; unfold error_count_of; unfold observe_state in *;
        rewrite ?Hs2, ?Hs1, ?Hl2, ?Hl1, ?He2, ?He1, ?length_app; done.
  - destruct Hc as (Hs1 & Hl1 & He1).
    apply Hfailed; unfold error_count_of; unfold observe_state in *;
      rewrite ?Hs1, ?Hl1, ?He1, ?length_app; done.
Qed.






(** *** Cancellation *)





End WorkflowLoop.

(** ** Instances at concrete inputs *)


Lemma recovery_attempts_bounded_witness :
  (ErrorHandler.handle_error "system" ErrorHandler.MEMORY_EXHAUSTION
     "Memory usage: 96.0%" None Examples.quiet_env Examples.exhausted).1.1
  = false.
Proof.
  destruct (recovery_attempts_bounded (ErrorHandler.init Examples.empty_store)
              Examples.exhausted "system" ErrorHandler.MEMORY_EXHAUSTION
              "Memory usage: 96.0%" None Examples.quiet_env) as (_ & H & _).
  - apply ErrorHandler.reachable_init.
  - vm_compute. apply le_n.
  - exact H.
Defined.

Lemma restore_checkpoint_exact_witness :
  ∃ vehicle world',
    StateManager.restore_checkpoint "sim-1" Examples.town "vehicle.tesla.model3"
      Examples.store = (Some vehicle, world') ∧
    Carla.get_transform vehicle = Examples.pose.
Proof.
  destruct (restore_checkpoint_exact "sim-1" Examples.town "vehicle.tesla.model3"
              Examples.empty_store Examples.store Examples.checkpoint)
    as (_ & (vehicle & world' & H1 & H2 & _) & _).
  - reflexivity.
  - reflexivity.
  - reflexivity.
  - exists vehicle, world'. split; [exact H1|exact H2].
Defined.

Lemma active_workflows_registry_witness :
  Registry.one_state_per_id (Registry.enter "exp" Registry.init).
Proof.
  destruct (active_workflows_registry Examples.settings Examples.all_fine
              (Registry.enter "exp" Registry.init)
              Registry.init "exp"
              {| Registry.experiment_id := "exp"; Registry.workflow_state := 0 |}
              20 (Examples.experiment 1) ∅)
    as (_ & _ & (H & _) & _).
  - apply Registry.exclusive_enter; [apply Registry.exclusive_init|].
    simpl. apply not_elem_of_nil.
  - apply Registry.reachable_init.
  - exact H.
Defined.

(** C1: two overlapping runs of the same experiment id each hold a
    [WorkflowState] of their own; only the second is registered, and the exit
    of the first removes it while the second is still running. *)
Lemma two_states_for_one_id :
  ¬ (∀ o, Registry.reachable o → Registry.one_state_per_id o) ∧
  let o := Registry.enter "exp" (Registry.enter "exp" Registry.init) in
  Registry.running o
  = [{| Registry.experiment_id := "exp"; Registry.workflow_state := 0 |};
     {| Registry.experiment_id := "exp"; Registry.workflow_state := 1 |}] ∧
  Registry.active_workflows o !! "exp" = Some 1 ∧
  let o' := Registry.leave
              {| Registry.experiment_id := "exp"; Registry.workflow_state := 0 |} o in
  Registry.running o'
  = [{| Registry.experiment_id := "exp"; Registry.workflow_state := 1 |}] ∧
  Registry.active_workflows o' !! "exp" = None.
Proof.
  split.
  - intros H.
    specialize (H (Registry.enter "exp" (Registry.enter "exp" Registry.init))).
    assert (Registry.reachable
              (Registry.enter "exp" (Registry.enter "exp" Registry.init))) as Hr
      by (do 2 apply Registry.reachable_enter; apply Registry.reachable_init).
    specialize (H Hr
                  {| Registry.experiment_id := "exp"; Registry.workflow_state := 0 |}
                  {| Registry.experiment_id := "exp"; Registry.workflow_state := 1 |}).
    assert ({| Registry.experiment_id := "exp"; Registry.workflow_state := 0 |}
            = {| Registry.experiment_id := "exp"; Registry.workflow_state := 1 |})
      as Heq; [|discriminate Heq].
    apply H; [|simpl|done].
    + simpl. apply list_elem_of_here.
    + apply list_elem_of_further, list_elem_of_here.
  - vm_compute. done.
Qed.

Section WorkflowInstances.
Import Workflow.

(** C2: [initialize_carla_simulation] raises while the retry budget is
    untouched.  The orchestrator counts one retry and waits [retry_delay],
    and the Carla setup is not entered again: the session request is made
    once and the workflow fails. *)
Lemma retry_budget_left_but_no_retry :
  let run :=
    execute_experiment_workflow Examples.settings Examples.carla_down 0 "exp"
      (Examples.experiment 300) ∅ in
  run.1 = Ret () ∧
  marks (trace run.2)
  = [MPhase INITIALIZATION; MPhase CARLA_SETUP; MPhaseError "carla_setup";
     MPhase FAILED; MPhase CLEANUP] ∧
  WorkflowState.retry_count (wf run.2) = 1 ∧
  (Z.of_nat 1 <? max_retries Examples.settings)%Z = true ∧
  observe allocation run.2
  = [initialize_carla_simulation (Examples.carla_config 300)] ∧
  length (filter (λ mk, mk = MPhase CARLA_SETUP) (marks (trace run.2))) = 1.
Proof. vm_compute. done. Qed.

(** C5: with a time budget of zero, the state is registered and the phase
    update is sent to the database before validation raises. *)
Lemma phase_update_precedes_validation :
  let run :=
    execute_experiment_workflow Examples.settings Examples.all_fine 0 "exp"
      (Examples.experiment 0) ∅ in
  invalid_config (Examples.experiment 0) = Some "Simulation time must be positive" ∧
  "exp" ∈ active_workflows (workflow_start "exp" (Examples.experiment 0) ∅) ∧
  take 3 (trace run.2)
  = [PhaseSet INITIALIZATION;
     Call (update_experiment_phase "exp" "initialization");
     LogError "Phase error for exp: Error in initialization phase: Simulation time must be positive"].
Proof.
  split; [done|]. split; [|by vm_compute].
  apply elem_of_union. left. by apply elem_of_singleton.
Qed.


(** C9: when the phase update at the entry of Cleanup raises, the error
    leaves the cleanup phase, the workflow is set to [FAILED] and Cleanup is
    entered a second time; and when the write of the failure raises, the
    failure handler raises and Cleanup is not entered at all. *)
Lemma cleanup_error_escalates :
  let run :=
    execute_experiment_workflow Examples.settings Examples.cleanup_update_fails 2
      "exp" (Examples.experiment 300) ∅ in
  let down :=
    execute_experiment_workflow Examples.settings Examples.database_down 0
      "exp" (Examples.experiment 300) ∅ in
  (run.1 = Ret () ∧
   marks (trace run.2)
   = [MPhase INITIALIZATION; MPhase CARLA_SETUP; MPhase DREAMER_SETUP;
      MPhase SIMULATION_EXECUTION; MPhase RESULT_PROCESSING; MPhase CLEANUP;
      MPhase FAILED; MPhase CLEANUP] ∧
   observe logged_error run.2
   = ["Experiment workflow failed for exp: boom"; "Workflow failed for exp: boom"]) ∧
  (down.1 = Raise "boom" ∧
   marks (trace down.2)
   = [MPhase INITIALIZATION; MPhase CARLA_SETUP; MPhase DREAMER_SETUP;
      MPhaseError "dreamer_setup"; MPhase FAILED] ∧
   WorkflowState.carla_session_id (wf down.2) = Some "s1").
Proof. vm_compute. done. Qed.

Lemma phases_forward_without_retry_witness :
  MPhase FAILED
  ∈ marks (trace (execute_experiment_workflow Examples.settings
                    Examples.carla_down 0 "exp" (Examples.experiment 300) ∅).2).
Proof.
  pose proof (phases_forward_without_retry Examples.settings Examples.carla_down
                0 "exp" (Examples.experiment 300) ∅) as H.
  destruct (execute_experiment_workflow Examples.settings Examples.carla_down 0
              "exp" (Examples.experiment 300) ∅) as [[[]|e|] m] eqn:Hrun.
  - destruct H as (_ & H & _). apply (H "carla_setup").
    replace m with
      (execute_experiment_workflow Examples.settings Examples.carla_down 0
         "exp" (Examples.experiment 300) ∅).2 by (by rewrite Hrun).
    vm_compute. apply list_elem_of_In. simpl. tauto.
  - exfalso. vm_compute in Hrun. discriminate Hrun.
  - exfalso. vm_compute in Hrun. discriminate Hrun.
Defined.

Lemma invalid_config_rejected_witness :
  _validate_experiment_config (Examples.experiment 0) Examples.fresh
  = (Raise "Simulation time must be positive", Examples.fresh).
Proof.
  destruct (invalid_config_rejected Examples.settings Examples.all_fine
              (Examples.experiment 0) "Simulation time must be positive"
              (workflow_start "exp" (Examples.experiment 0) ∅) 0 "exp" ∅)
    as (H & _).
  - reflexivity.
  - reflexivity.
  - exact (H Examples.fresh).
Defined.

Lemma cleanup_errors_swallowed_witness :
  (_execute_cleanup_phase Examples.all_fine Examples.fresh).1 = Ret ().
Proof.
  destruct (cleanup_errors_swallowed Examples.all_fine Examples.fresh
              Examples.fresh "boom") as ((H & _) & _).
  - reflexivity.
  - reflexivity.
  - reflexivity.
  - exact H.
Defined.



End WorkflowInstances.

(* ===================================================================== *)
(** * Further properties of the code                                      *)
(* ===================================================================== *)

(** ** Circuit breaker: what holds between calls *)

Section CircuitBreakerInvariants.
Import CircuitBreaker.
Local Open Scope Z_scope.



(** X2.  A closed breaker tolerates failures below its threshold: after
    them it is still closed, having counted each one, the next call reaches
    the dependency, and a success then brings the count back to zero. *)
Theorem breaker_tolerates_failures (cb : t) (times : list (Z * Z)) :
  state cb = closed →
  failure_count cb + Z.of_nat (length times) < failure_threshold cb →
  state (failures times cb) = closed ∧
  failure_count (failures times cb) = failure_count cb + Z.of_nat (length times) ∧
  ∀ (A D : Type) (func : D → Outcome A * D) (t1 t2 : Z) (d : D),
    (call func t1 t2 d (failures times cb)).1.2 = (func d).2 ∧
    ∀ a d', func d = (Returns a, d') →
      call func t1 t2 d (failures times cb)
      = (Returned a, d', _on_success (failures times cb)) ∧
      failure_count (call func t1 t2 d (failures times cb)).2 = 0.
Proof.
  revert cb. induction times as [|tm times IH]; intros cb Hs Hlt.
  - simpl in *. split; [done|]. split; [lia|].
    intros A D func t1 t2 d. unfold call, guard. rewrite Hs.
    destruct (func d) as [[a|e] d'] eqn:Hf; simpl; split; try done.
    intros a0 d0 [= -> ->]. done.
  - change (failures (tm :: times) cb) with (failures times (failed_call tm cb)).
    rewrite failed_call_closed by done.
    simpl in Hlt.
    destruct (IH (_on_failure tm.2 cb)) as (H1 & H2 & H3).
    + unfold _on_failure; simpl.
      destruct (Z.leb_spec (failure_threshold cb) (failure_count cb + 1)); [lia|done].
    + simpl. lia.
    + split; [done|]. split; [rewrite H2; simpl; lia|]. done.
Qed.

End CircuitBreakerInvariants.


Lemma breaker_tolerates_failures_witness :
  CircuitBreaker.state
    (CircuitBreaker.failures [(0, 1)]%Z Examples.breaker) = CircuitBreaker.closed.
Proof.
  destruct (breaker_tolerates_failures Examples.breaker [(0, 1)]%Z) as (H & _).
  - reflexivity.
  - vm_compute. reflexivity.
  - exact H.
Defined.

(** ** Recovery dispatcher: counters and results *)

Section ErrorHandlerResults.
Import ErrorHandler.

Lemma should_attempt_iff simulation_id e h :
  _should_attempt_recovery simulation_id e h
  = bool_decide (attempts simulation_id e h < max_attempts (recovery_strategies e)).
Proof.
  destruct (_should_attempt_recovery simulation_id e h) eqn:Hs; symmetry.
  - apply bool_decide_eq_true. by apply should_attempt_true.
  - apply bool_decide_eq_false. apply should_attempt_false in Hs. lia.
Qed.



(** X4.  A call of [handle_error] for a pair that has attempts left uses up
    exactly one: the counter of that pair goes up by one, every other counter
    stays, and the strategy of the error type is the one that is run.  The
    first error of a pair always has an attempt left. *)
Theorem recovery_attempt_is_counted
    (h : t) (simulation_id : string) (e : ErrorType) (msg : string)
    (context : option Context) (env : Env) :
  attempts simulation_id e h < max_attempts (recovery_strategies e) →
  let h' := (handle_error simulation_id e msg context env h).1.2 in
  attempts simulation_id e h' = attempts simulation_id e h + 1 ∧
  (∀ sim' e', ¬ (simulation_id = sim' ∧ e = e') →
     attempts sim' e' h' = attempts sim' e' h) ∧
  executed h' = executed h ++ [(simulation_id, strategy (recovery_strategies e))] ∧
  (∀ sm sim0 e0,
     attempts sim0 e0 (init sm) = 0 ∧
     attempts sim0 e0 (init sm) < max_attempts (recovery_strategies e0)).
Proof.
  intros Hlt h'.
  assert (_should_attempt_recovery simulation_id e h = true) as Hs.
  { rewrite should_attempt_iff. by apply bool_decide_eq_true. }
  split; [|split; [|split]].
  - unfold h'. rewrite handle_error_attempts, Hs. by rewrite decide_True.
  - intros sim' e' Hne. unfold h'. rewrite handle_error_attempts, Hs.
    by rewrite decide_False.
  - unfold h'. rewrite (handle_error_attempted simulation_id e msg context env h Hs).
    simpl. by rewrite execute_recovery_executed.
  - intros sm sim0 e0.
    assert (attempts sim0 e0 (init sm) = 0) as H0.
    { unfold attempts. simpl. rewrite lookup_empty. simpl. by rewrite lookup_empty. }
    split; [done|]. rewrite H0. pose proof (max_attempts_pos e0). lia.
Qed.


End ErrorHandlerResults.


Lemma recovery_attempt_is_counted_witness :
  ErrorHandler.attempts "system" ErrorHandler.CARLA_CRASH
    (ErrorHandler.handle_error "system" ErrorHandler.CARLA_CRASH
       "CARLA server connection lost" None Examples.quiet_env
       Examples.exhausted).1.2
  = ErrorHandler.attempts "system" ErrorHandler.CARLA_CRASH Examples.exhausted + 1.
Proof.
  destruct (recovery_attempt_is_counted Examples.exhausted "system"
              ErrorHandler.CARLA_CRASH "CARLA server connection lost" None
              Examples.quiet_env) as (H & _).
  - vm_compute. lia.
  - exact H.
Defined.

(** ** Checkpoint store and error log: queries and clean-up *)

Section StateManagerFacts.
Import StateManager.
Local Open Scope Z_scope.

(** X6.  [get_error_history] returns, in the order in which they were
    recorded, the records that are not older than the cut-off and, when a
    simulation is named, belong to it.  An error recorded now is the last
    entry of the history of its simulation and of the history of all
    simulations, and does not show in the history of another simulation. *)
Theorem error_history_query
    (sm : t) (simulation_id : option string) (cutoff_time now : Z)
    (disk_ok : bool) (sid error_type error_message stack_trace : string) :
  cutoff_time ≤ now →
  let recorded :=
    record_error now disk_ok sid error_type error_message stack_trace sm in
  let record :=
    {| ErrorRecord.timestamp := now;
       ErrorRecord.simulation_id := sid;
       ErrorRecord.error_type := error_type;
       ErrorRecord.error_message := error_message;
       ErrorRecord.stack_trace := stack_trace;
       ErrorRecord.recovery_attempted := false;
       ErrorRecord.recovery_successful := false |} in
  sublist (get_error_history simulation_id cutoff_time sm) (error_history sm) ∧
  (∀ r, r ∈ get_error_history simulation_id cutoff_time sm ↔
        r ∈ error_history sm ∧ cutoff_time ≤ ErrorRecord.timestamp r ∧
        ∀ s, simulation_id = Some s → ErrorRecord.simulation_id r = s) ∧
  get_error_history (Some sid) cutoff_time recorded
  = get_error_history (Some sid) cutoff_time sm ++ [record] ∧
  get_error_history None cutoff_time recorded
  = get_error_history None cutoff_time sm ++ [record] ∧
  (∀ other, other ≠ sid →
     get_error_history (Some other) cutoff_time recorded
     = get_error_history (Some other) cutoff_time sm).
Proof.
  intros Hnow recorded record.
  assert (bool_decide (cutoff_time ≤ now) = true) as Hb
    by (by apply bool_decide_eq_true).
  split; [|split; [|split; [|split]]].
  - unfold get_error_history. induction (error_history sm) as [|r l IH]; [done|].
    simpl. destruct (_ && _); by constructor.
  - intros r. unfold get_error_history.
    rewrite list_elem_of_In, List.filter_In, <- list_elem_of_In.
    rewrite andb_true_iff, bool_decide_eq_true.
    destruct simulation_id as [s|].
    + rewrite bool_decide_eq_true. split.
      * intros (? & ? & ?). split_and!; try done. by intros ? [= <-].
      * intros (? & ? & Hs). split_and!; try done. by apply Hs.
    + split; [intros (? & ? & _); split_and!; done|].
      intros (? & ? & _). done.
  - unfold get_error_history, recorded, record_error. simpl.
    rewrite List.filter_app. simpl. rewrite Hb. simpl.
    by rewrite bool_decide_eq_true_2.
  - unfold get_error_history, recorded, record_error. simpl.
    rewrite List.filter_app. simpl. by rewrite Hb.
  - intros other Hne. unfold get_error_history, recorded, record_error. simpl.
    rewrite List.filter_app. simpl. rewrite Hb. simpl.
    rewrite bool_decide_eq_false_2 by done. by rewrite app_nil_r.
Qed.

(** X7.  [cleanup_old_checkpoints] keeps the checkpoints that are not older
    than the cut-off and forgets the others, removing their files and no other
    file; the error log is left alone, a second clean-up with the same cut-off
    changes nothing, and a forgotten checkpoint can no longer be restored. *)
Theorem cleanup_old_checkpoints_spec
    (cutoff_time : Z) (sm : t) (simulation_id : string)
    (world : Carla.World) (vehicle_bp : string) :
  let cleaned := cleanup_old_checkpoints cutoff_time sm in
  let old :=
    ∃ cp, checkpoints sm !! simulation_id = Some cp ∧
          SimulationCheckpoint.timestamp cp < cutoff_time in
  (old → checkpoints cleaned !! simulation_id = None ∧
         checkpoint_files cleaned !! simulation_id = None ∧
         restore_checkpoint simulation_id world vehicle_bp cleaned = (None, world)) ∧
  (¬ old → checkpoints cleaned !! simulation_id = checkpoints sm !! simulation_id ∧
           checkpoint_files cleaned !! simulation_id
           = checkpoint_files sm !! simulation_id) ∧
  error_history cleaned = error_history sm ∧
  errors_jsonl cleaned = errors_jsonl sm ∧
  checkpoints (cleanup_old_checkpoints cutoff_time cleaned) = checkpoints cleaned ∧
  checkpoint_files (cleanup_old_checkpoints cutoff_time cleaned)
  = checkpoint_files cleaned.
Proof.
  intros cleaned old.
  assert (∀ cp : SimulationCheckpoint.t,
            bool_decide (cutoff_time ≤ SimulationCheckpoint.timestamp cp) = false
            ↔ SimulationCheckpoint.timestamp cp < cutoff_time) as Hold.
  { intros cp. rewrite bool_decide_eq_false. lia. }
  assert (∀ cp : SimulationCheckpoint.t,
            bool_decide (cutoff_time ≤ SimulationCheckpoint.timestamp cp) = true
            ↔ ¬ SimulationCheckpoint.timestamp cp < cutoff_time) as Hnew.
  { intros cp. rewrite bool_decide_eq_true. lia. }
  assert (∀ m : t, ∀ id,
            checkpoints (cleanup_old_checkpoints cutoff_time m) !! id
            = (cp ← checkpoints m !! id;
               if bool_decide (cutoff_time ≤ SimulationCheckpoint.timestamp cp)
               then Some cp else None)) as Hmem.
  { intros m id. unfold cleanup_old_checkpoints. simpl.
    rewrite map_lookup_filter.
    destruct (checkpoints m !! id) as [cp|]; simpl; [|done].
    destruct (bool_decide (cutoff_time ≤ SimulationCheckpoint.timestamp cp)) eqn:Hb.
    - by rewrite option_guard_True.
    - by rewrite option_guard_False. }
  assert (∀ m : t, ∀ id,
            checkpoint_files (cleanup_old_checkpoints cutoff_time m) !! id
            = match checkpoints m !! id with
              | Some cp =>
                  if bool_decide (cutoff_time ≤ SimulationCheckpoint.timestamp cp)
                  then checkpoint_files m !! id else None
              | None => checkpoint_files m !! id
              end) as Hfile.
  { intros m id. unfold cleanup_old_checkpoints. simpl.
    destruct (checkpoints m !! id) as [cp|] eqn:Hcp.
    - destruct (bool_decide (cutoff_time ≤ SimulationCheckpoint.timestamp cp))
        eqn:Hb.
      + destruct (checkpoint_files m !! id) as [f|] eqn:Hf.
        * apply lookup_difference_Some. split; [done|].
          apply map_lookup_filter_None. right. intros cp' Hcp' Hb'. simpl in Hb'.
          rewrite Hcp in Hcp'. injection Hcp' as <-. by rewrite Hb in Hb'.
        * apply lookup_difference_None. by left.
      + apply lookup_difference_None. right. exists cp.
        apply map_lookup_filter_Some. done.
    - destruct (checkpoint_files m !! id) as [f|] eqn:Hf.
      + apply lookup_difference_Some. split; [done|].
        apply map_lookup_filter_None. left. done.
      + apply lookup_difference_None. by left. }
  split; [|split; [|split; [|split; [|split]]]].
  - intros (cp & Hcp & Hlt). apply Hold in Hlt.
    assert (checkpoints cleaned !! simulation_id = None) as Hnone.
    { unfold cleaned. rewrite Hmem, Hcp. simpl. by rewrite Hlt. }
    split; [done|]. split.
    + unfold cleaned. rewrite Hfile, Hcp, Hlt. done.
    + unfold restore_checkpoint. by rewrite Hnone.
  - intros Hnot.
    assert (∀ cp, checkpoints sm !! simulation_id = Some cp →
                  bool_decide (cutoff_time ≤ SimulationCheckpoint.timestamp cp)
                  = true) as Hkeep.
    { intros cp Hcp. apply Hnew. intros Hlt. apply Hnot. by exists cp. }
    unfold cleaned. rewrite Hmem, Hfile.
    destruct (checkpoints sm !! simulation_id) as [cp|] eqn:Hcp; [|done]. simpl.
    by rewrite (Hkeep cp eq_refl).
  - done.
  - done.
  - apply map_eq. intros id. rewrite Hmem.
    unfold cleaned. rewrite Hmem.
    destruct (checkpoints sm !! id) as [cp|]; simpl; [|done].
    destruct (bool_decide (cutoff_time ≤ SimulationCheckpoint.timestamp cp)) eqn:Hb;
      simpl; [by rewrite Hb|done].
  - apply map_eq. intros id. rewrite Hfile. unfold cleaned. rewrite Hmem, Hfile.
    destruct (checkpoints sm !! id) as [cp|]; simpl; [|done].
    destruct (bool_decide (cutoff_time ≤ SimulationCheckpoint.timestamp cp)) eqn:Hb;
      simpl; [by rewrite Hb|done].
Qed.

End StateManagerFacts.

Lemma error_history_query_witness :
  StateManager.get_error_history None 0
    (StateManager.record_error 1000 true "sim-1" "simulation_error" "spawn failed"
       "" Examples.empty_store)
  = StateManager.get_error_history None 0 Examples.empty_store
    ++ [{| ErrorRecord.timestamp := 1000;
           ErrorRecord.simulation_id := "sim-1";
           ErrorRecord.error_type := "simulation_error";
           ErrorRecord.error_message := "spawn failed";
           ErrorRecord.stack_trace := "";
           ErrorRecord.recovery_attempted := false;
           ErrorRecord.recovery_successful := false |}].
Proof.
  destruct (error_history_query Examples.empty_store None 0 1000 true "sim-1"
              "simulation_error" "spawn failed" "") as (_ & _ & _ & H & _).
  - lia.
  - exact H.
Defined.

(** ** The runner service: what is on disk *)

Section CarlaRunnerFacts.
Import CarlaRunner.

Lemma foldl_insert_lookup {V : Type} (l : list (string * V)) :
  ∀ (acc : gmap string V) (k : string),
    NoDup l.*1 →
    foldl (λ loaded kv, <[kv.1 := kv.2]> loaded) acc l !! k
    = match (list_to_map l : gmap string V) !! k with
      | Some v => Some v
      | None => acc !! k
      end.
Proof.
  induction l as [|[k0 v0] l IH]; intros acc k Hnd; [done|].
  apply NoDup_cons in Hnd as [Hk0 Hnd]. simpl. rewrite IH by done.
  destruct (decide (k = k0)) as [->|Hne].
  - rewrite !lookup_insert_eq.
    by rewrite (not_elem_of_list_to_map_1 _ _ Hk0).
  - by rewrite !lookup_insert_ne.
Qed.

(** Loading a directory in which every file is named after the checkpoint it
    holds gives back the files. *)
Lemma load_state_checkpoints files jsonl :
  (∀ id cp, files !! id = Some cp → SimulationCheckpoint.simulation_id cp = id) →
  StateManager.checkpoints (StateManager._load_state files jsonl) = files.
Proof.
  intros Hid. unfold StateManager._load_state. simpl.
  assert (∀ (l : list (string * SimulationCheckpoint.t))
            (acc : gmap string SimulationCheckpoint.t),
            Forall (λ kv, SimulationCheckpoint.simulation_id kv.2 = kv.1) l →
            foldl (λ loaded file,
                     <[SimulationCheckpoint.simulation_id file.2 := file.2]> loaded)
                  acc l
            = foldl (λ loaded kv, <[kv.1 := kv.2]> loaded) acc l) as Heq.
  { induction l as [|kv l IH]; intros acc Hall; [done|].
    apply Forall_cons in Hall as [Hkv Hall]. simpl. rewrite Hkv. by apply IH. }
  rewrite Heq.
  - apply map_eq. intros k.
    rewrite foldl_insert_lookup by apply NoDup_fst_map_to_list.
    rewrite list_to_map_to_list. rewrite lookup_empty. by destruct (files !! k).
  - apply Forall_forall. intros [k cp] Hin%elem_of_map_to_list. simpl.
    by apply Hid.
Qed.

(** What [handle_error] does to the store: nothing to the checkpoints; the
    disk log gains the record as it was written, before any recovery. *)
Lemma handle_error_store simulation_id e msg context env h :
  let sm := ErrorHandler.state_manager h in
  let sm' :=
    ErrorHandler.state_manager
      (ErrorHandler.handle_error simulation_id e msg context env h).1.2 in
  StateManager.checkpoints sm' = StateManager.checkpoints sm ∧
  StateManager.checkpoint_files sm' = StateManager.checkpoint_files sm ∧
  ∃ r, ErrorRecord.recovery_attempted r = false ∧
       ErrorRecord.recovery_successful r = false ∧
       StateManager.errors_jsonl sm'
       = StateManager.errors_jsonl sm
         ++ (if ErrorHandler.disk_ok env then [r] else []).
Proof.
  intros sm sm'. unfold sm'.
  destruct (ErrorHandler._should_attempt_recovery simulation_id e h) eqn:Hs.
  - rewrite (handle_error_attempted simulation_id e msg context env h Hs). simpl.
    rewrite execute_recovery_state_manager. simpl.
    split; [done|]. split; [done|]. eexists _. split; [|split]; [| |].
    3:{ destruct (ErrorHandler.disk_ok env); [done|by rewrite app_nil_r]. }
    all: done.
  - rewrite handle_error_refused by done. simpl.
    split; [done|]. split; [done|]. eexists _. split; [|split]; [| |].
    3:{ destruct (ErrorHandler.disk_ok env); [done|by rewrite app_nil_r]. }
    all: done.
Qed.

Lemma reachable_store_invariant h :
  reachable h → store_invariant (ErrorHandler.state_manager h).
Proof.
  induction 1 as [|sim e msg context env h _ (IHa & IHb & IHc)
                  |now disk_ok sim vehicle world h _ (IHa & IHb & IHc)
                  |cutoff h _ (IHa & IHb & IHc)
                  |h _ (IHa & IHb & IHc)].
  - split; [|split]; simpl.
    + intros r Hr. by apply elem_of_nil in Hr.
    + intros id cp Hf. by rewrite lookup_empty in Hf.
    + intros id cp. rewrite map_to_list_empty. simpl. by rewrite lookup_empty.
  - destruct (handle_error_store sim e msg context env h)
      as (Hc & Hf & r & Hr1 & Hr2 & Hj).
    split; [|split].
    + intros r0. rewrite Hj. intros [Hin|Hin]%elem_of_app; [by apply IHa|].
      destruct (ErrorHandler.disk_ok env); [|by apply elem_of_nil in Hin].
      apply list_elem_of_singleton in Hin as ->. done.
    + intros id cp. rewrite Hf, Hc. apply IHb.
    + intros id cp. rewrite Hc. apply IHc.
  - unfold create_checkpoint, StateManager.create_checkpoint. simpl.
    destruct (Carla.is_alive vehicle); simpl; [|done].
    unfold StateManager.set_checkpoints; simpl.
    split; [done|]. split.
    + intros id cp Hf.
      cbn [StateManager.checkpoints StateManager.checkpoint_files] in Hf |- *.
      destruct (decide (id = sim)) as [->|Hne].
      * split; [|rewrite lookup_insert_eq; by eexists].
        destruct disk_ok.
        -- rewrite lookup_insert_eq in Hf. by injection Hf as <-.
        -- by apply IHb in Hf as [? _].
      * rewrite lookup_insert_ne by done.
        apply IHb. destruct disk_ok; [by rewrite lookup_insert_ne in Hf|done].
    + intros id cp. cbn [StateManager.checkpoints].
      destruct (decide (id = sim)) as [->|Hne].
      * rewrite lookup_insert_eq. by intros [= <-].
      * rewrite lookup_insert_ne by done. apply IHc.
  - unfold cleanup_old_checkpoints, StateManager.cleanup_old_checkpoints. simpl.
    split; [done|]. split.
    + intros id cp [Hf Hnot]%lookup_difference_Some.
      destruct (IHb id cp Hf) as [Hid [cp' Hcp']]. split; [done|].
      exists cp'. apply map_lookup_filter_Some. split; [done|]. simpl.
      apply map_lookup_filter_None in Hnot as [Hnone|Hnot]; [congruence|].
      specialize (Hnot cp' Hcp'). simpl in Hnot.
      by destruct (bool_decide _).
    + intros id cp [Hcp _]%map_lookup_filter_Some. by apply IHc.
  - unfold restart, start. simpl.
    assert (StateManager.checkpoints
              (StateManager._load_state
                 (StateManager.checkpoint_files (ErrorHandler.state_manager h))
                 (StateManager.errors_jsonl (ErrorHandler.state_manager h)))
            = StateManager.checkpoint_files (ErrorHandler.state_manager h)) as Hl.
    { apply load_state_checkpoints. intros id cp Hf. by apply IHb in Hf as [? _]. }
    split; [done|]. split.
    + intros id cp Hf. split; [by apply IHb in Hf as [? _]|].
      rewrite Hl. simpl in Hf. by eexists.
    + intros id cp. rewrite Hl. intros Hf. by apply IHb in Hf as [? _].
Qed.

(** X8.  The error log on disk never shows a recovery: a record is written
    to [errors.jsonl] when the error is recorded, before the recovery is
    attempted, and the outcome is only set in memory.  After a restart of the
    service the error history is the disk log, so that no record shows a
    recovery as attempted. *)
Theorem error_log_on_disk_has_no_outcome (h : ErrorHandler.t) :
  reachable h →
  (∀ r, r ∈ StateManager.errors_jsonl (ErrorHandler.state_manager h) →
        ErrorRecord.recovery_attempted r = false ∧
        ErrorRecord.recovery_successful r = false) ∧
  StateManager.error_history (ErrorHandler.state_manager (restart h))
  = StateManager.errors_jsonl (ErrorHandler.state_manager h) ∧
  (∀ r, r ∈ StateManager.error_history (ErrorHandler.state_manager (restart h)) →
        ErrorRecord.recovery_attempted r = false ∧
        ErrorRecord.recovery_successful r = false) ∧
  (∀ simulation_id e msg context env,
     let h' := (ErrorHandler.handle_error simulation_id e msg context env h).1.2 in
     ErrorHandler.disk_ok env = true →
     ∃ r, StateManager.errors_jsonl (ErrorHandler.state_manager h')
          = StateManager.errors_jsonl (ErrorHandler.state_manager h) ++ [r] ∧
          ErrorRecord.simulation_id r = simulation_id ∧
          ErrorRecord.error_message r = msg ∧
          ErrorRecord.recovery_attempted r = false).
Proof.
  intros Hr. destruct (reachable_store_invariant h Hr) as (Ha & _ & _).
  split; [done|]. split; [done|]. split; [done|].
  intros simulation_id e msg context env h' Hdisk. unfold h'.
  destruct (ErrorHandler._should_attempt_recovery simulation_id e h) eqn:Hs.
  - rewrite (handle_error_attempted simulation_id e msg context env h Hs). simpl.
    rewrite execute_recovery_state_manager. simpl. rewrite Hdisk.
    eexists. split; [done|]. done.
  - rewrite handle_error_refused by done. simpl. rewrite Hdisk.
    eexists. split; [done|]. done.
Qed.


End CarlaRunnerFacts.

Lemma error_log_on_disk_has_no_outcome_witness :
  StateManager.error_history
    (ErrorHandler.state_manager (CarlaRunner.restart Examples.served))
  = StateManager.errors_jsonl (ErrorHandler.state_manager Examples.served).
Proof.
  destruct (error_log_on_disk_has_no_outcome Examples.served) as (_ & H & _).
  - apply CarlaRunner.reachable_handle_error, CarlaRunner.reachable_start.
  - exact H.
Defined.


(** ** The workflow: what a run leaves behind *)

Section WorkflowFootprint.
Import Workflow.

Context (settings : Settings) (env : nat → Reply).

Lemma footprint_suspended r m : footprint (suspended r m) = footprint m.
Proof.
  unfold suspended, cancel_workflow. destruct (cancel_requested r); [|done].
  by case_decide.
Qed.

Lemma footprint_await c : preserves footprint (await env c).
Proof.
  intros m. unfold await. destruct (raises (env (tick m))); simpl;
    by rewrite footprint_suspended.
Qed.

Lemma footprint_sleep ms : preserves footprint (asyncio_sleep env ms).
Proof. intros m. unfold asyncio_sleep. simpl. by rewrite footprint_suspended. Qed.

Lemma footprint_emit ev : preserves footprint (emit ev).
Proof. done. Qed.

Lemma footprint_utcnow : preserves footprint (utcnow env).
Proof. done. Qed.

Lemma footprint_modify u :
  (∀ s, WorkflowState.experiment_id (u s) = WorkflowState.experiment_id s) →
  (∀ s, WorkflowState.config (u s) = WorkflowState.config s) →
  preserves footprint (modify u).
Proof. intros Hi Hc m. unfold footprint. simpl. by rewrite Hi, Hc. Qed.

End WorkflowFootprint.

(** Goals [preserves footprint c], by the structure of [c]. *)
Ltac untouched_step :=
  first
    [ apply preserves_ret | apply preserves_raise | apply preserves_get
    | apply preserves_bind; [|intros ?]
    | apply preserves_try_except; [|intros ?]
    | apply preserves_attempt
    | apply footprint_await | apply footprint_sleep | apply footprint_emit
    | apply footprint_utcnow | apply footprint_modify; done
    | match goal with
      | |- Workflow.preserves _ (match ?x with _ => _ end) => destruct x
      end
    | assumption ].

Ltac untouched := repeat untouched_step.

Section WorkflowIdentity.
Import Workflow.

Context (settings : Settings) (env : nat → Reply).

Lemma verify_readiness_footprint service_name label failure attempt remaining :
  preserves footprint
    (verify_readiness env service_name label failure attempt remaining).
Proof.
  revert attempt. induction remaining as [|remaining IH]; intros attempt; simpl.
  - untouched.
  - untouched. apply IH.
Qed.

Lemma simulation_loop_footprint fuel simulation_time l :
  preserves footprint (simulation_loop env fuel simulation_time l).
Proof.
  revert l. induction fuel as [|fuel IH]; intros l; simpl; [done|].
  untouched; apply IH.
Qed.

Lemma store_artifacts_footprint eid artifacts :
  preserves footprint (store_artifacts env eid artifacts).
Proof. induction artifacts as [|a artifacts IH]; simpl; untouched. Qed.

Lemma handle_phase_error_footprint ph e :
  preserves footprint (_handle_phase_error settings env ph e).
Proof. unfold _handle_phase_error. untouched. Qed.

Lemma phase_footprint p body :
  preserves footprint body → preserves footprint (phase settings env p body).
Proof.
  intros Hb. unfold phase, phase_try, set_phase, _update_workflow_phase.
  untouched; apply handle_phase_error_footprint.
Qed.

Lemma cleanup_phase_footprint : preserves footprint (_execute_cleanup_phase env).
Proof.
  unfold _execute_cleanup_phase, set_phase, _update_workflow_phase, cleanup_body,
    _cleanup_temporary_resources.
  untouched.
Qed.

Lemma workflow_body_footprint fuel :
  preserves footprint (workflow_body settings env fuel).
Proof.
  assert (preserves footprint (_execute_initialization_phase settings env)) as H1.
  { apply phase_footprint.
    unfold initialization_body, _validate_experiment_config,
      _initialize_workflow_resources. untouched. }
  assert (preserves footprint (_execute_carla_setup_phase settings env)) as H2.
  { apply phase_footprint.
    unfold carla_setup_body, _verify_carla_readiness.
    untouched; apply verify_readiness_footprint. }
  assert (preserves footprint (_execute_dreamer_setup_phase settings env)) as H3.
  { apply phase_footprint.
    unfold dreamer_setup_body, _verify_dreamer_readiness.
    untouched; apply verify_readiness_footprint. }
  assert (preserves footprint (_execute_simulation_phase settings env fuel)) as H4.
  { apply phase_footprint.
    unfold simulation_body, _run_simulation_loop, loop_results.
    untouched; apply simulation_loop_footprint. }
  assert (preserves footprint (_execute_result_processing_phase settings env))
    as H5.
  { apply phase_footprint.
    unfold result_processing_body, _generate_experiment_summary.
    untouched; apply store_artifacts_footprint. }
  assert (preserves footprint (set_phase COMPLETED)) as H7
    by (unfold set_phase; untouched).
  assert (preserves footprint (_update_workflow_phase env)) as H8
    by (unfold _update_workflow_phase; untouched).
  pose proof cleanup_phase_footprint as H6.
  unfold workflow_body.
  apply preserves_bind; [exact H1|intros _].
  apply preserves_bind; [exact H2|intros _].
  apply preserves_bind; [exact H3|intros _].
  apply preserves_bind; [exact H4|intros _].
  apply preserves_bind; [exact H5|intros _].
  apply preserves_bind; [exact H6|intros _].
  apply preserves_bind; [exact H7|intros _].
  exact H8.
Qed.

Lemma workflow_failed_footprint e : preserves footprint (workflow_failed env e).
Proof.
  unfold workflow_failed, set_phase, _handle_workflow_failure.
  untouched; apply cleanup_phase_footprint.
Qed.

(** X10.  A run of the workflow never changes the experiment id or the
    configuration of its workflow state, and leaves the other entries of
    [active_workflows] alone.  Once it has ended, returning or raising, its
    own entry is gone: [get_workflow_status] returns [None] for it, and
    [cancel_workflow] returns [False] without setting the flag or publishing
    anything. *)
Theorem finished_workflow_is_forgotten
    (fuel : nat) (experiment_id : string) (config : ExperimentConfig.t)
    (active : gset string) :
  match execute_experiment_workflow settings env fuel experiment_id config active with
  | (OutOfFuel, _) => True
  | (_, m) =>
      WorkflowState.experiment_id (wf m) = experiment_id ∧
      WorkflowState.config (wf m) = config ∧
      active_workflows m = active ∖ {[experiment_id]} ∧
      get_workflow_status m = None ∧
      cancel_workflow m = (false, m)
  end.
Proof.
  assert (∀ m, footprint m
               = (experiment_id, config, {[experiment_id]} ∪ active) →
          let m' := with_active (λ a, a ∖ {[experiment_id]}) m in
          WorkflowState.experiment_id (wf m') = experiment_id ∧
          WorkflowState.config (wf m') = config ∧
          active_workflows m' = active ∖ {[experiment_id]} ∧
          get_workflow_status m' = None ∧
          cancel_workflow m' = (false, m')) as Hend.
  { intros m [= Hi Hc Ha] m'.
    assert (active_workflows m' = active ∖ {[experiment_id]}) as Ha'.
    { unfold m'. simpl. rewrite Ha. apply set_eq. intros x.
      rewrite !elem_of_difference, elem_of_union, elem_of_singleton. tauto. }
    assert (WorkflowState.experiment_id (wf m') ∉ active_workflows m') as Hout.
    { rewrite Ha'. unfold m'. simpl. rewrite Hi.
      intros [_ Hn]%elem_of_difference. by apply Hn, elem_of_singleton. }
    split; [done|]. split; [done|]. split; [done|].
    unfold get_workflow_status, cancel_workflow.
    rewrite !decide_False by done. done. }
  unfold execute_experiment_workflow, try_finally, try_except, workflow_finally.
  set (m0 := workflow_start experiment_id config active).
  assert (footprint m0 = (experiment_id, config, {[experiment_id]} ∪ active)) as H0
    by done.
  pose proof (workflow_body_footprint fuel m0) as Hb. rewrite H0 in Hb.
  destruct (workflow_body settings env fuel m0) as [[[]|e|] m1]; [| |done].
  - by apply Hend.
  - pose proof (workflow_failed_footprint e m1) as Hf. simpl in Hb. rewrite Hb in Hf.
    destruct (workflow_failed env e m1) as [[[]|e'|] m2]; [| |done];
      by apply Hend.
Qed.

End WorkflowIdentity.

(** ** The workflow: readiness checks and phase errors *)

Section Readiness.
Import Workflow.

Context (settings : Settings) (env : nat → Reply).

Lemma slept_cancel :
  ∀ eid ph, slept (Call (publish_experiment_event eid "workflow_cancelled"
                           (data_phase ph))) = None.
Proof. done. Qed.

Lemma health_check_cancel :
  ∀ eid ph, health_check (Call (publish_experiment_event eid "workflow_cancelled"
                                  (data_phase ph))) = None.
Proof. done. Qed.

(** After an attempt that did not find the service healthy: a warning, and
    a sleep of two seconds. *)
Lemma readiness_retry {X : Type} (f : Event → option X) msg m :
  (∀ eid ph, f (Call (publish_experiment_event eid "workflow_cancelled"
                        (data_phase ph))) = None) →
  f (LogWarning msg) = None →
  ∃ m', bind (emit (LogWarning msg))
          (λ _, bind (asyncio_sleep env 2000) (λ _, ret false)) m
        = (Ret false, m') ∧
        tick m' = S (tick m) ∧
        observe f m' = observe f m
                       ++ from_option (λ x, [x]) [] (f (Call (sleep 2000))).
Proof.
  intros Hf Hw. eexists. split; [done|]. simpl. split.
  - by rewrite tick_suspended.
  - rewrite observe_suspended by done. unfold observe. simpl.
    rewrite !omap_app. simpl. rewrite Hw. simpl. rewrite app_nil_r.
    by destruct (f (Call (sleep 2000))).
Qed.

Lemma verify_readiness_spec service_name label failure :
  ∀ remaining attempt m,
    match verify_readiness env service_name label failure attempt remaining m with
    | (Ret _, m') =>
        ∃ k, k < remaining ∧ healthy_at env (tick m + 2 * k) ∧
             (∀ j, j < k → ¬ healthy_at env (tick m + 2 * j)) ∧
             observe health_check m'
             = observe health_check m ++ replicate (S k) service_name ∧
             observe slept m' = observe slept m ++ replicate k 2000%Z ∧
             tick m' = tick m + 2 * k + 1
    | (Raise e, m') =>
        e = failure ∧
        (∀ j, j < remaining → ¬ healthy_at env (tick m + 2 * j)) ∧
        observe health_check m'
        = observe health_check m ++ replicate remaining service_name ∧
        observe slept m' = observe slept m ++ replicate remaining 2000%Z ∧
        tick m' = tick m + 2 * remaining
    | (OutOfFuel, _) => False
    end.
Proof.
  induction remaining as [|remaining IH]; intros attempt m.
  { simpl. split; [done|]. split; [intros j Hj; lia|].
    rewrite !app_nil_r. split; [done|]. split; [done|lia]. }
  cbn [verify_readiness]. rewrite bind_unfold. unfold try_except.
  rewrite bind_unfold.
  set (c := check_service_health service_name).
  pose proof (observe_await env health_check c m health_check_cancel) as Hh1.
  pose proof (observe_await env slept c m slept_cancel) as Hs1.
  assert (tick (await env c m).2 = S (tick m)) as Ht1.
  { unfold await. destruct (raises (env (tick m))); simpl;
      by rewrite tick_suspended. }
  simpl in Hh1, Hs1. rewrite app_nil_r in Hs1.
  assert (∀ m1 msg,
            observe health_check m1 = observe health_check m ++ [service_name] →
            observe slept m1 = observe slept m →
            tick m1 = S (tick m) →
            ¬ healthy_at env (tick m) →
            match
              (let '(r, m2) :=
                 bind (emit (LogWarning msg))
                   (λ _, bind (asyncio_sleep env 2000) (λ _, ret false)) m1 in
               match r with
               | Ret healthy =>
                   (if healthy : bool then ret ()
                    else verify_readiness env service_name label failure
                           (attempt + 1) remaining) m2
               | Raise e => (Raise e, m2)
               | OutOfFuel => (OutOfFuel, m2)
               end)
            with
            | (Ret _, m') =>
                ∃ k, k < S remaining ∧ healthy_at env (tick m + 2 * k) ∧
                     (∀ j, j < k → ¬ healthy_at env (tick m + 2 * j)) ∧
                     observe health_check m'
                     = observe health_check m ++ replicate (S k) service_name ∧
                     observe slept m' = observe slept m ++ replicate k 2000%Z ∧
                     tick m' = tick m + 2 * k + 1
            | (Raise e, m') =>
                e = failure ∧
                (∀ j, j < S remaining → ¬ healthy_at env (tick m + 2 * j)) ∧
                observe health_check m'
                = observe health_check m ++ replicate (S remaining) service_name ∧
                observe slept m' = observe slept m ++ replicate (S remaining) 2000%Z ∧
                tick m' = tick m + 2 * S remaining
            | (OutOfFuel, _) => False
            end) as Hretry.
  { intros m1 msg Hh Hs Ht Hbad.
    destruct (readiness_retry health_check msg m1 health_check_cancel eq_refl)
      as (m2 & Heq & Ht2 & Hh2).
    destruct (readiness_retry slept msg m1 slept_cancel eq_refl)
      as (m2' & Heq' & _ & Hs2).
    rewrite Heq in Heq'. injection Heq' as <-. rewrite Heq.
    simpl in Hh2, Hs2. rewrite app_nil_r in Hh2.
    specialize (IH (attempt + 1) m2).
    assert (∀ j, tick m2 + 2 * j = tick m + 2 * S j) as Hshift
      by (intros j; lia).
    destruct (verify_readiness env service_name label failure (attempt + 1)
                remaining m2) as [[[]|e|] m3]; [| |done].
    - destruct IH as (k & Hk & Hok & Hno & Hh3 & Hs3 & Ht3).
      exists (S k). split; [lia|]. split; [by rewrite <- Hshift|]. split.
      + intros [|j] Hj;
          [by replace (tick m + 2 * 0) with (tick m) by lia|].
        rewrite <- Hshift. apply Hno. lia.
      + rewrite Hh3, Hh2, Hh, Hs3, Hs2, Hs, <- !app_assoc. simpl.
        split; [done|]. split; [done|]. lia.
    - destruct IH as (-> & Hno & Hh3 & Hs3 & Ht3). split; [done|]. split.
      + intros [|j] Hj;
          [by replace (tick m + 2 * 0) with (tick m) by lia|].
        rewrite <- Hshift. apply Hno. lia.
      + rewrite Hh3, Hh2, Hh, Hs3, Hs2, Hs, <- !app_assoc. simpl.
        split; [done|]. split; [done|]. lia. }
  unfold await in *. destruct (raises (env (tick m))) as [e0|] eqn:Hr;
    cbn [fst snd] in *.
  - apply Hretry; try done.
    intros [Hnone _]. congruence.
  - destruct (decide (status (env (tick m)) = "healthy")) as [Hst|Hst].
    + cbn. exists 0.
      replace (tick m + 2 * 0) with (tick m) by lia.
      split; [lia|]. split.
      { match goal with
        | |- healthy_at env ?n => replace n with (tick m) by lia
        end. by split. }
      split; [intros j Hj; lia|].
      rewrite Hh1, Hs1, app_nil_r. split; [done|]. split; [done|]. lia.
    + apply Hretry; try done. intros [_ Hok]. done.
Qed.

End Readiness.

Section PhaseErrors.
Import Workflow.

Context (settings : Settings) (env : nat → Reply).

(** X11.  [_verify_carla_readiness] and [_verify_dreamer_readiness] check
    the health of their service at most five times, two seconds apart.  They
    return at the first check that is answered without an exception and with
    status "healthy", having slept once for each check before it; an exception
    of a check counts as "not healthy" and is not passed on.  When none of the
    five checks finds the service healthy they raise their own exception,
    after the fifth sleep. *)
Theorem readiness_checks_bounded
    (verify : M unit) (service_name failure : string) (m : Machine) :
  (verify = _verify_carla_readiness env ∧ service_name = "carla-runner" ∧
   failure = "CARLA simulation failed to become ready") ∨
  (verify = _verify_dreamer_readiness env ∧ service_name = "dreamerv3-service" ∧
   failure = "DreamerV3 model failed to become ready") →
  match verify m with
  | (Ret _, m') =>
      ∃ k, k < 5 ∧ healthy_at env (tick m + 2 * k) ∧
           (∀ j, j < k → ¬ healthy_at env (tick m + 2 * j)) ∧
           observe health_check m'
           = observe health_check m ++ replicate (S k) service_name ∧
           observe slept m' = observe slept m ++ replicate k 2000%Z
  | (Raise e, m') =>
      e = failure ∧
      (∀ j, j < 5 → ¬ healthy_at env (tick m + 2 * j)) ∧
      observe health_check m'
      = observe health_check m ++ replicate 5 service_name ∧
      observe slept m' = observe slept m ++ replicate 5 2000%Z
  | (OutOfFuel, _) => False
  end.
Proof.
  intros [(-> & -> & ->)|(-> & -> & ->)].
  - pose proof (verify_readiness_spec env "carla-runner" "CARLA"
                  "CARLA simulation failed to become ready" 5 0 m) as H.
    unfold _verify_carla_readiness.
    destruct (verify_readiness env _ _ _ 0 5 m) as [[[]|e|] m']; [| |done].
    + destruct H as (k & ? & ? & ? & ? & ? & _). by exists k.
    + destruct H as (? & ? & ? & ? & _). done.
  - pose proof (verify_readiness_spec env "dreamerv3-service" "DreamerV3"
                  "DreamerV3 model failed to become ready" 5 0 m) as H.
    unfold _verify_dreamer_readiness.
    destruct (verify_readiness env _ _ _ 0 5 m) as [[[]|e|] m']; [| |done].
    + destruct H as (k & ? & ? & ? & ? & ? & _). by exists k.
    + destruct H as (? & ? & ? & ? & _). done.
Qed.

Lemma state_bind_tail {A B X : Type} (g : Machine → X) (c : M A) (k : A → M B) m :
  (∀ a, preserves g (k a)) → g (bind c k m).2 = g (c m).2.
Proof.
  intros Hk. unfold bind. destruct (c m) as [[a|e|] m1]; simpl; try done.
  apply Hk.
Qed.

Lemma retry_count_blind : blind_to_cancel WorkflowState.retry_count.
Proof. done. Qed.

(** What [_handle_phase_error] does to the counters, the trace and the
    sleeps, by the answers to its two calls. *)
Lemma handle_phase_error_outcome (phase error : string) (m : Machine) :
  let '(r, m') := _handle_phase_error settings env phase error m in
  let retries := WorkflowState.retry_count (wf m) in
  let retry := (Z.of_nat retries <? max_retries settings)%Z in
  error_count_of m' = error_count_of m + 1 ∧
  observe mark m' = observe mark m ++ [MPhaseError phase] ∧
  match raises (env (tick m)) with
  | Some e =>
      r = Raise e ∧ WorkflowState.retry_count (wf m') = retries ∧
      observe slept m' = observe slept m
  | None =>
      WorkflowState.retry_count (wf m') = (if retry then retries + 1 else retries) ∧
      observe slept m'
      = observe slept m ++ (if retry then [1000 * retry_delay settings]%Z else []) ∧
      r = match raises (env (tick m + (if retry then 2 else 1))) with
          | Some e => Raise e
          | None => Ret ()
          end
  end.
Proof.
  pose proof (handle_phase_error_marks settings env phase error m) as Hmarks.
  assert (error_count_of (_handle_phase_error settings env phase error m).2
          = error_count_of m + 1) as Hcount.
  { unfold _handle_phase_error.
    change error_count_of with (observe_state WorkflowState.error_count).
    rewrite state_bind_tail; [done|]. intros _. quiet. }
  destruct (_handle_phase_error settings env phase error m) as [r m'] eqn:Heq.
  simpl in Hmarks, Hcount. intros retries retry.
  split; [done|]. split; [done|].
  revert Heq. unfold _handle_phase_error.
  rewrite bind_unfold. simpl. rewrite bind_unfold. simpl.
  rewrite bind_unfold. simpl. rewrite bind_unfold. simpl.
  rewrite bind_unfold.
  set (m1 := record_event _ _).
  assert (tick m1 = tick m) as Ht1 by done.
  assert (observe slept m1 = observe slept m) as Hs1.
  { unfold m1. rewrite observe_record. simpl. by rewrite app_nil_r. }
  assert (WorkflowState.retry_count (wf m1) = retries) as Hr1 by done.
  set (c1 := publish_experiment_event _ _ _).
  pose proof (observe_await env slept c1 m1 slept_cancel) as Hs2.
  pose proof (state_await env WorkflowState.retry_count c1 retry_count_blind m1)
    as Hr2.
  assert (tick (await env c1 m1).2 = S (tick m)) as Ht2.
  { unfold await. rewrite Ht1. destruct (raises (env (tick m))); simpl;
      by rewrite tick_suspended. }
  assert ((await env c1 m1).1
          = match raises (env (tick m)) with
            | Some e => Raise e
            | None => Ret (env (tick m))
            end) as Ho2.
  { unfold await. rewrite Ht1. by destruct (raises (env (tick m))). }
  destruct (await env c1 m1) as [r2 m2]. simpl in Hs2, Hr2, Ht2, Ho2.
  rewrite app_nil_r in Hs2. unfold observe_state in Hr2.
  destruct (raises (env (tick m))) as [e0|]; subst r2.
  { intros [= <- <-]. split; [done|]. split; [congruence|congruence]. }
  rewrite bind_unfold. simpl. rewrite bind_unfold.
  rewrite Hr2, Hr1. fold retry.
  destruct retry eqn:Hretry.
  - rewrite bind_unfold. simpl.
    set (m3 := with_wf _ m2).
    set (m4 := suspended _ (next_tick (record_event (Call (sleep _)) m3))).
    assert (observe slept m4
            = observe slept m3 ++ [(1000 * retry_delay settings)%Z]) as Hs4
      by apply (observe_sleep env slept (1000 * retry_delay settings) m3
                  slept_cancel).
    assert (WorkflowState.retry_count (wf m4) = WorkflowState.retry_count (wf m3))
      as Hr4
      by apply (state_sleep env WorkflowState.retry_count
                  (1000 * retry_delay settings) retry_count_blind m3).
    assert (tick m4 = S (S (tick m))) as Ht4.
    { unfold m4. rewrite tick_suspended. simpl. by rewrite Ht2. }
    rewrite bind_unfold.
    set (c5 := update_experiment_result_error _ _).
    pose proof (observe_await env slept c5 m4 slept_cancel) as Hs5.
    pose proof (state_await env WorkflowState.retry_count c5 retry_count_blind m4)
      as Hr5.
    assert ((await env c5 m4).1
            = match raises (env (tick m + 2)) with
              | Some e => Raise e
              | None => Ret (env (tick m + 2))
              end) as Ho5.
    { unfold await. rewrite Ht4. replace (S (S (tick m))) with (tick m + 2) by lia.
      by destruct (raises (env (tick m + 2))). }
    destruct (await env c5 m4) as [r5 m5]. simpl in Hs5, Hr5, Ho5.
    rewrite app_nil_r in Hs5. unfold observe_state in Hr5.
    assert (WorkflowState.retry_count (wf m5) = retries + 1) as Hfinal.
    { rewrite Hr5, Hr4. unfold m3. simpl. done. }
    assert (observe slept m5
            = observe slept m ++ [(1000 * retry_delay settings)%Z]) as Hslept.
    { rewrite Hs5, Hs4. unfold m3.
      change (observe slept (with_wf ?f m2)) with (observe slept m2).
      by rewrite Hs2, Hs1. }
    destruct (raises (env (tick m + 2))) as [e5|]; subst r5.
    + simpl. intros [= <- <-]. done.
    + simpl. intros [= <- <-]. done.
  - change (ret () m2) with (Ret (), m2). cbv beta iota. rewrite bind_unfold.
    set (c5 := update_experiment_result_error _ _).
    pose proof (observe_await env slept c5 m2 slept_cancel) as Hs5.
    pose proof (state_await env WorkflowState.retry_count c5 retry_count_blind m2)
      as Hr5.
    assert ((await env c5 m2).1
            = match raises (env (tick m + 1)) with
              | Some e => Raise e
              | None => Ret (env (tick m + 1))
              end) as Ho5.
    { unfold await. rewrite Ht2. replace (S (tick m)) with (tick m + 1) by lia.
      by destruct (raises (env (tick m + 1))). }
    destruct (await env c5 m2) as [r5 m5]. simpl in Hs5, Hr5, Ho5.
    rewrite app_nil_r in Hs5. unfold observe_state in Hr5.
    assert (WorkflowState.retry_count (wf m5) = retries) as Hfinal
      by (rewrite Hr5, Hr2; done).
    assert (observe slept m5 = observe slept m ++ []) as Hslept
      by (rewrite Hs5, Hs2, Hs1, app_nil_r; done).
    destruct (raises (env (tick m + 1))) as [e5|]; subst r5.
    + simpl. intros [= <- <-]. done.
    + simpl. intros [= <- <-]. done.
Qed.

(** X12.  [_handle_phase_error] counts the error once, whatever happens
    next, and publishes one phase error.  If the publication goes through it
    uses up one retry, when one is left, and then sleeps for [retry_delay]
    seconds; it never runs the phase again.  It returns when the write of the
    error to the database goes through, and otherwise raises what the
    publication or the write raised. *)
Theorem handle_phase_error_spec (phase error : string) (m : Machine) :
  let '(r, m') := _handle_phase_error settings env phase error m in
  let retries := WorkflowState.retry_count (wf m) in
  let retry := (Z.of_nat retries <? max_retries settings)%Z in
  error_count_of m' = error_count_of m + 1 ∧
  observe mark m' = observe mark m ++ [MPhaseError phase] ∧
  match raises (env (tick m)) with
  | Some e =>
      r = Raise e ∧ WorkflowState.retry_count (wf m') = retries ∧
      observe slept m' = observe slept m
  | None =>
      WorkflowState.retry_count (wf m') = (if retry then retries + 1 else retries) ∧
      observe slept m'
      = observe slept m ++ (if retry then [1000 * retry_delay settings]%Z else []) ∧
      r = match raises (env (tick m + (if retry then 2 else 1))) with
          | Some e => Raise e
          | None => Ret ()
          end
  end.
Proof. apply handle_phase_error_outcome. Qed.

End PhaseErrors.

(** ** The workflow: the counters of a run *)

Section RunCounters.
Import Workflow.

Context (settings : Settings) (env : nat → Reply).

Lemma within_preserves {A : Type} (a : nat) (c : M A) :
  preserves (observe_state WorkflowState.error_count) c → within a a a c.
Proof.
  intros Hc m Hm. specialize (Hc m). unfold observe_state, error_count_of in *.
  destruct (c m) as [[x|e|] m']; simpl in *; [lia|lia|done].
Qed.

Lemma within_bind {A B : Type} (a R1 R E : nat) (c : M A) (k : A → M B) :
  within a R1 E c → (∀ x, within R1 R E (k x)) → within a R E (bind c k).
Proof.
  intros Hc Hk m Hm. unfold bind. specialize (Hc m Hm).
  destruct (c m) as [[x|e|] m1]; [|done|done]. by apply Hk.
Qed.

Lemma within_weaken {A : Type} (a a' R R' E E' : nat) (c : M A) :
  a' ≤ a → R ≤ R' → E ≤ E' → within a R E c → within a' R' E' c.
Proof.
  intros Ha HR HE Hc m Hm. assert (error_count_of m ≤ a) as Hm' by lia.
  specialize (Hc m Hm'). destruct (c m) as [[x|e|] m']; [lia|lia|done].
Qed.

(** From at most ten errors, the loop returns with at most ten and raises
    at the eleventh. *)
Lemma simulation_loop_eleventh fuel simulation_time : ∀ l m,
  error_count_of m ≤ 10 →
  match simulation_loop env fuel simulation_time l m with
  | (Ret _, m') => error_count_of m' ≤ 10
  | (Raise e, m') => error_count_of m' = 11 ∧ e = too_many 11
  | (OutOfFuel, _) => True
  end.
Proof.
  induction fuel as [|fuel IH]; intros l m Hm; [done|].
  simpl. rewrite bind_unfold. simpl.
  destruct (timedelta_seconds _ <? simulation_time)%Z; [|done].
  rewrite bind_unfold. simpl.
  destruct (WorkflowState.is_cancelled (wf m)); [done|].
  rewrite bind_unfold.
  pose proof (simulation_step_spec env simulation_time l (next_tick m)) as Hstep.
  change (error_count_of (next_tick m)) with (error_count_of m) in Hstep.
  destruct (simulation_step env simulation_time l (next_tick m))
    as [[l1|e|] m1]; [| |done].
  - apply IH. destruct Hstep as [_ [(_ & _ & ->)|(_ & _ & _ & ?)]]; done.
  - destruct Hstep as (_ & _ & Hec & Hgt & ->).
    assert (error_count_of m1 = 11) as -> by lia. done.
Qed.

Lemma within_quiet {A : Type} (a R E : nat) (c : M A) :
  a ≤ R → a ≤ E →
  preserves (observe_state WorkflowState.error_count) c → within a R E c.
Proof.
  intros HR HE Hc. eapply within_weaken; [| | |by apply (within_preserves a)]; lia.
Qed.

Lemma simulation_body_within fuel : within 0 10 11 (simulation_body env fuel).
Proof.
  unfold simulation_body.
  apply (within_bind 0 0); [apply within_quiet; [lia|lia|quiet]|intros carla].
  apply (within_bind 0 0); [apply within_quiet; [lia|lia|quiet]|intros _].
  apply (within_bind 0 10).
  - unfold _run_simulation_loop.
    apply (within_bind 0 0); [apply within_quiet; [lia|lia|quiet]|intros config].
    destruct (ExperimentConfig.carla_config config) as [cc|];
      [|apply within_quiet; [lia|lia|quiet]].
    apply (within_bind 0 0); [apply within_quiet; [lia|lia|quiet]|intros start].
    apply (within_bind 0 10).
    + intros m Hm.
      pose proof (simulation_loop_eleventh fuel
                    (ExperimentConfig.simulation_time cc)
                    {| start_time := start; step_count := 0; loop_metrics := ∅ |}
                    m ltac:(lia)) as H.
      destruct (simulation_loop env fuel _ _ m) as [[l'|e|] m']; [done| |done].
      destruct H as [-> _]. lia.
    + intros l'. unfold loop_results. apply within_quiet; [lia|lia|quiet].
  - intros results. apply within_quiet; [lia|lia|quiet].
Qed.

(** What a phase does to the two counters. *)
Lemma phase_counters (a R E b : nat) p body m :
  a ≤ R →
  within a R E body →
  preserves (observe_state WorkflowState.retry_count) body →
  error_count_of m ≤ a →
  WorkflowState.retry_count (wf m) = b →
  match phase settings env p body m with
  | (Ret _, m') => error_count_of m' ≤ R ∧ WorkflowState.retry_count (wf m') = b
  | (Raise _, m') =>
      error_count_of m' ≤ S (Nat.max R E) ∧ WorkflowState.retry_count (wf m') ≤ S b
  | (OutOfFuel, _) => True
  end.
Proof.
  intros HaR Hbody Hretry Hm Hb. unfold phase, phase_try, set_phase.
  rewrite bind_unfold. simpl. rewrite bind_unfold.
  set (m1 := record_event (PhaseSet p) _).
  assert (preserves (observe_state WorkflowState.error_count)
            (_update_workflow_phase env)) as Hu
    by (unfold _update_workflow_phase; quiet).
  assert (preserves (observe_state WorkflowState.retry_count)
            (_update_workflow_phase env)) as Hu'
    by (unfold _update_workflow_phase; quiet).
  specialize (Hu m1). specialize (Hu' m1).
  unfold observe_state, error_count_of in *.
  destruct (_update_workflow_phase env m1) as [[[]|e|] m2]; simpl in Hu, Hu';
    [| |done].
  2:{ simpl in *. split; lia. }
  unfold try_except.
  assert (WorkflowState.error_count (wf m2) ≤ a) as Hm2 by (rewrite Hu; done).
  specialize (Hbody m2 Hm2). specialize (Hretry m2).
  unfold observe_state, error_count_of in *.
  destruct (body m2) as [[[]|e|] m3]; simpl in Hretry; [| |done].
  - split; [done|]. rewrite Hretry, Hu'. done.
  - rewrite bind_unfold.
    pose proof (handle_phase_error_outcome settings env (value p) e m3) as Hh.
    destruct (_handle_phase_error settings env (value p) e m3) as [r m4].
    destruct Hh as (Hec & _ & Hrest). unfold error_count_of in Hec.
    assert (WorkflowState.retry_count (wf m4)
            ≤ S (WorkflowState.retry_count (wf m3))) as Hrc.
    { destruct (raises (env (tick m3))).
      - destruct Hrest as (_ & -> & _). lia.
      - destruct Hrest as (-> & _). case_match; lia. }
    assert (WorkflowState.retry_count (wf m3) = b) as Hb3
      by (rewrite Hretry, Hu'; done).
    destruct r as [[]|e'|]; [| |done]; simpl; split; lia.
Qed.


Lemma store_artifacts_state {X : Type} (g : WorkflowState.t → X) eid artifacts :
  blind_to_cancel g →
  preserves (observe_state g) (store_artifacts env eid artifacts).
Proof. intros Hg. induction artifacts as [|a artifacts IH]; simpl; quiet. Qed.

Lemma simulation_loop_retries fuel simulation_time l :
  preserves (observe_state WorkflowState.retry_count)
    (simulation_loop env fuel simulation_time l).
Proof.
  revert l. induction fuel as [|fuel IH]; intros l; simpl; [done|].
  quiet; apply IH.
Qed.

Lemma cleanup_phase_state {X : Type} (g : WorkflowState.t → X) :
  blind_to_cancel g →
  (∀ p s, g (WorkflowState.set_current_phase p s) = g s) →
  preserves (observe_state g) (_execute_cleanup_phase env).
Proof.
  intros Hg Hp.
  unfold _execute_cleanup_phase, set_phase, _update_workflow_phase, cleanup_body,
    _cleanup_temporary_resources.
  quiet.
Qed.

Lemma workflow_body_counters fuel m :
  error_count_of m = 0 →
  WorkflowState.retry_count (wf m) = 0 →
  match workflow_body settings env fuel m with
  | (Ret _, m') =>
      error_count_of m' ≤ 10 ∧ WorkflowState.retry_count (wf m') = 0
  | (Raise _, m') =>
      error_count_of m' ≤ 12 ∧ WorkflowState.retry_count (wf m') ≤ 1
  | (OutOfFuel, _) => True
  end.
Proof.
  intros He Hr.
  assert (within 0 0 0 (initialization_body env)) as Ei.
  { apply within_quiet; [lia|lia|].
    unfold initialization_body, _validate_experiment_config,
      _initialize_workflow_resources. quiet. }
  assert (preserves (observe_state WorkflowState.retry_count)
            (initialization_body env)) as Ri.
  { unfold initialization_body, _validate_experiment_config,
      _initialize_workflow_resources. quiet. }
  assert (within 0 0 0 (carla_setup_body env)) as Ec.
  { apply within_quiet; [lia|lia|].
    unfold carla_setup_body, _verify_carla_readiness. quiet. }
  assert (preserves (observe_state WorkflowState.retry_count)
            (carla_setup_body env)) as Rc.
  { unfold carla_setup_body, _verify_carla_readiness. quiet. }
  assert (within 0 0 0 (dreamer_setup_body env)) as Ed.
  { apply within_quiet; [lia|lia|].
    unfold dreamer_setup_body, _verify_dreamer_readiness. quiet. }
  assert (preserves (observe_state WorkflowState.retry_count)
            (dreamer_setup_body env)) as Rd.
  { unfold dreamer_setup_body, _verify_dreamer_readiness. quiet. }
  pose proof (simulation_body_within fuel) as Es.
  assert (preserves (observe_state WorkflowState.retry_count)
            (simulation_body env fuel)) as Rs.
  { unfold simulation_body, _run_simulation_loop, loop_results.
    quiet; apply simulation_loop_retries. }
  assert (within 10 10 10 (result_processing_body env)) as Er.
  { apply within_quiet; [lia|lia|].
    unfold result_processing_body, _generate_experiment_summary.
    quiet; by apply store_artifacts_state. }
  assert (preserves (observe_state WorkflowState.retry_count)
            (result_processing_body env)) as Rr.
  { unfold result_processing_body, _generate_experiment_summary.
    quiet; by apply store_artifacts_state. }
  unfold workflow_body.
  rewrite bind_unfold. unfold _execute_initialization_phase.
  pose proof (phase_counters 0 0 0 0 INITIALIZATION _ m (le_n _) Ei Ri
                ltac:(lia) Hr) as H1.
  destruct (phase settings env INITIALIZATION _ m) as [[[]|e|] m1]; [| |done].
  2:{ simpl in H1. split; lia. }
  destruct H1 as [He1 Hr1].
  rewrite bind_unfold. unfold _execute_carla_setup_phase.
  pose proof (phase_counters 0 0 0 0 CARLA_SETUP _ m1 (le_n _) Ec Rc He1 Hr1) as H2.
  destruct (phase settings env CARLA_SETUP _ m1) as [[[]|e|] m2]; [| |done].
  2:{ simpl in H2. split; lia. }
  destruct H2 as [He2 Hr2].
  rewrite bind_unfold. unfold _execute_dreamer_setup_phase.
  pose proof (phase_counters 0 0 0 0 DREAMER_SETUP _ m2 (le_n _) Ed Rd He2 Hr2)
    as H3.
  destruct (phase settings env DREAMER_SETUP _ m2) as [[[]|e|] m3]; [| |done].
  2:{ simpl in H3. split; lia. }
  destruct H3 as [He3 Hr3].
  rewrite bind_unfold. unfold _execute_simulation_phase.
  pose proof (phase_counters 0 10 11 0 SIMULATION_EXECUTION _ m3 ltac:(lia) Es Rs
                He3 Hr3) as H4.
  destruct (phase settings env SIMULATION_EXECUTION _ m3) as [[[]|e|] m4];
    [| |done].
  2:{ simpl in H4. split; lia. }
  destruct H4 as [He4 Hr4].
  rewrite bind_unfold. unfold _execute_result_processing_phase.
  pose proof (phase_counters 10 10 10 0 RESULT_PROCESSING _ m4 (le_n _) Er Rr
                He4 Hr4) as H5.
  destruct (phase settings env RESULT_PROCESSING _ m4) as [[[]|e|] m5]; [| |done].
  2:{ simpl in H5. split; lia. }
  destruct H5 as [He5 Hr5].
  rewrite bind_unfold.
  pose proof (cleanup_phase_state WorkflowState.error_count error_count_blind
                (λ _ _, eq_refl) m5) as He6.
  pose proof (cleanup_phase_state WorkflowState.retry_count (retry_count_blind)
                (λ _ _, eq_refl) m5) as Hr6.
  unfold observe_state in He6, Hr6. unfold error_count_of in *.
  destruct (_execute_cleanup_phase env m5) as [[[]|e|] m6]; simpl in He6, Hr6;
    [| |done].
  2:{ split; lia. }
  assert (preserves (observe_state WorkflowState.error_count)
            (bind (set_phase COMPLETED) (λ _, _update_workflow_phase env))) as He7
    by (unfold set_phase, _update_workflow_phase; quiet).
  assert (preserves (observe_state WorkflowState.retry_count)
            (bind (set_phase COMPLETED) (λ _, _update_workflow_phase env))) as Hr7
    by (unfold set_phase, _update_workflow_phase; quiet).
  specialize (He7 m6). specialize (Hr7 m6). unfold observe_state in He7, Hr7.
  destruct (bind (set_phase COMPLETED) (λ _, _update_workflow_phase env) m6)
    as [[[]|e|] m7]; simpl in He7, Hr7; [| |done]; split; lia.
Qed.

(** X13.  The counters of a workflow at the end of a run.  No run ends with
    more than one retry counted or more than twelve errors: a phase error is
    handled at most once in a run, and the loop of the Execution phase, which
    starts from no error, gives up at the eleventh.  A run that ends in
    [COMPLETED] has counted no retry and at most ten errors, all of them in
    the loop.  The only exception that the loop itself raises in a run is
    "Too many simulation errors (11)". *)
Theorem run_counters_bounded
    (fuel : nat) (experiment_id : string) (config : ExperimentConfig.t)
    (active : gset string) :
  match execute_experiment_workflow settings env fuel experiment_id config active with
  | (OutOfFuel, _) => True
  | (_, m) =>
      WorkflowState.retry_count (wf m) ≤ 1 ∧
      error_count_of m ≤ 12 ∧
      (current_phase_of m = COMPLETED →
       WorkflowState.retry_count (wf m) = 0 ∧ error_count_of m ≤ 10)
  end ∧
  ∀ simulation_time l m,
    error_count_of m ≤ 10 →
    match simulation_loop env fuel simulation_time l m with
    | (Ret _, m') => error_count_of m' ≤ 10
    | (Raise e, m') =>
        error_count_of m' = 11 ∧ e = "Too many simulation errors (11)"
    | (OutOfFuel, _) => True
    end.
Proof.
  split; [|apply simulation_loop_eleventh].
  unfold execute_experiment_workflow, try_finally, try_except, workflow_finally.
  set (m0 := workflow_start experiment_id config active).
  pose proof (workflow_body_counters fuel m0 eq_refl eq_refl) as Hb.
  destruct (workflow_body settings env fuel m0) as [[[]|e|] m1]; [| |done].
  - simpl. destruct Hb as [He Hr]. split; [lia|]. split; [unfold error_count_of in *; simpl; lia|].
    intros _. done.
  - assert (preserves (observe_state WorkflowState.error_count)
              (workflow_failed env e)) as Hfe.
    { unfold workflow_failed, set_phase, _handle_workflow_failure.
      quiet; by apply cleanup_phase_state. }
    assert (preserves (observe_state WorkflowState.retry_count)
              (workflow_failed env e)) as Hfr.
    { unfold workflow_failed, set_phase, _handle_workflow_failure.
      quiet; by apply cleanup_phase_state. }
    specialize (Hfe m1). specialize (Hfr m1).
    pose proof (workflow_failed_spec env e m1) as Hf.
    unfold observe_state, error_count_of in *. destruct Hb as [He Hr].
    destruct (workflow_failed env e m1) as [[[]|e'|] m2]; simpl in *; [| |done].
    + destruct Hf as [_ Hp]. split; [lia|]. split; [lia|].
      unfold current_phase_of in *. simpl. rewrite Hp. done.
    + destruct Hf as [_ Hp]. split; [lia|]. split; [lia|].
      unfold current_phase_of in *. simpl. rewrite Hp. done.
Qed.

End RunCounters.

(** ** The workflow: runs in healthy surroundings *)

Section CalmRuns.
Import Workflow.

Context (settings : Settings) (env : nat → Reply) (config : ExperimentConfig.t).
Context (Hcalm : calm env).

Lemma on_course_suspended n m :
  on_course env config m → on_course env config (suspended (env n) m).
Proof.
  intros [Hc Hf]. unfold suspended, cancel_workflow.
  destruct (cancel_requested (env n)) eqn:Hreq; [|done].
  case_decide; [|done]. split; [done|]. intros Hn. rewrite Hn in Hreq. done.
Qed.

Lemma proceeds_ret {A : Type} (a : A) (Q : A → Prop) :
  Q a → proceeds env config 0 (ret a) Q.
Proof. intros Ha m Hm. exists a, m. split_and!; [done|done|done|lia|lia]. Qed.

Lemma proceeds_get {A : Type} (f : WorkflowState.t → A) :
  proceeds env config 0 (get f) (λ _, True).
Proof.
  intros m Hm. exists (f (wf m)), m. split_and!; [done|done|done|lia|lia].
Qed.

Lemma proceeds_get_config :
  proceeds env config 0 (get WorkflowState.config) (λ c, c = config).
Proof.
  intros m Hm. exists (WorkflowState.config (wf m)), m.
  split_and!; [done|by destruct Hm|done|lia|lia].
Qed.

Lemma proceeds_emit ev : proceeds env config 0 (emit ev) (λ _, True).
Proof.
  intros m Hm. exists (), (record_event ev m).
  split_and!; [done|done|done|simpl; lia|simpl; lia].
Qed.

Lemma proceeds_utcnow : proceeds env config 1 (utcnow env) (λ _, True).
Proof.
  intros m Hm. exists (clock (env (tick m))), (next_tick m).
  split_and!; [done|done|done|simpl; lia|simpl; lia].
Qed.

Lemma proceeds_modify u :
  (∀ s, WorkflowState.config (u s) = WorkflowState.config s) →
  (∀ s, WorkflowState.is_cancelled (u s) = WorkflowState.is_cancelled s) →
  proceeds env config 0 (modify u) (λ _, True).
Proof.
  intros Hc Hf m [Hm1 Hm2]. exists (), (with_wf u m).
  split_and!; [done|done| |simpl; lia|simpl; lia].
  split; simpl; [by rewrite Hc|by rewrite Hf].
Qed.

Lemma proceeds_sleep ms :
  proceeds env config 1 (asyncio_sleep env ms) (λ _, True).
Proof.
  intros m Hm. eexists _, _. split; [done|]. split; [done|]. split.
  - by apply on_course_suspended.
  - rewrite tick_suspended. simpl. lia.
Qed.

Lemma proceeds_await c :
  proceeds env config 1 (await env c) (λ r, ∃ n, r = env n).
Proof.
  intros m Hm. rewrite await_returns by apply Hcalm.
  eexists _, _. split; [done|]. split; [by eexists|]. split.
  - by apply on_course_suspended.
  - rewrite tick_suspended. simpl. lia.
Qed.

Lemma proceeds_bind {A B : Type} (c : M A) (k : A → M B)
    (Q : A → Prop) (Q' : B → Prop) (cost cost' : nat) :
  proceeds env config cost c Q →
  (∀ a, Q a → proceeds env config cost' (k a) Q') →
  proceeds env config (cost + cost') (bind c k) Q'.
Proof.
  intros Hc Hk m Hm. destruct (Hc m Hm) as (a & m1 & Heq & Ha & Hm1 & Ht1).
  destruct (Hk a Ha m1 Hm1) as (b & m2 & Heq2 & Hb & Hm2 & Ht2).
  exists b, m2. unfold bind. rewrite Heq. split; [done|]. split; [done|].
  split; [done|lia].
Qed.

Lemma proceeds_weaken {A : Type} (c : M A) (Q Q' : A → Prop) (cost cost' : nat) :
  proceeds env config cost c Q → (∀ a, Q a → Q' a) → cost ≤ cost' →
  proceeds env config cost' c Q'.
Proof.
  intros Hc HQ Hle m Hm. destruct (Hc m Hm) as (a & m1 & Heq & Ha & Hm1 & Ht1).
  exists a, m1. split; [done|]. split; [by apply HQ|]. split; [done|lia].
Qed.

Lemma proceeds_try_except {A : Type} (c : M A) (h : string → M A)
    (Q : A → Prop) (cost : nat) :
  proceeds env config cost c Q → proceeds env config cost (try_except c h) Q.
Proof.
  intros Hc m Hm. destruct (Hc m Hm) as (a & m1 & Heq & Ha & Hm1 & Ht1).
  exists a, m1. unfold try_except. by rewrite Heq.
Qed.

Lemma proceeds_attempt {A : Type} (c : M A) (Q : A → Prop) (cost : nat) :
  proceeds env config cost c Q →
  proceeds env config cost (attempt c)
    (λ x, match x with inl a => Q a | inr _ => False end).
Proof.
  intros Hc m Hm. destruct (Hc m Hm) as (a & m1 & Heq & Ha & Hm1 & Ht1).
  exists (inl a), m1. unfold attempt. by rewrite Heq.
Qed.

End CalmRuns.

(** Goals [proceeds env config ?cost c (λ _, True)], by the structure of
    [c]; the cost is found on the way. *)
Ltac onward_step :=
  first
    [ eassumption
    | apply (proceeds_ret _ _ _ (λ _, True)); done
    | apply proceeds_emit | apply proceeds_utcnow | apply proceeds_sleep
    | apply proceeds_modify; done
    | eapply proceeds_weaken;
        [apply proceeds_await; assumption|done|apply Nat.le_refl]
    | apply proceeds_get
    | eapply proceeds_bind; [|intros ? _]
    | apply proceeds_try_except ].

Ltac onward := repeat onward_step.

(** The same for a goal with a given cost. *)
Ltac onward_within :=
  (eapply proceeds_weaken; [onward|done|]); simpl; lia.

Section CalmPhases.
Import Workflow.

Context (settings : Settings) (env : nat → Reply) (config : ExperimentConfig.t).
Context (Hcalm : calm env).

Lemma update_workflow_phase_proceeds :
  proceeds env config 1 (_update_workflow_phase env) (λ _, True).
Proof. unfold _update_workflow_phase. onward_within. Qed.

Lemma phase_proceeds p body cost :
  proceeds env config cost body (λ _, True) →
  proceeds env config (1 + cost) (phase settings env p body) (λ _, True).
Proof.
  intros Hb. unfold phase, phase_try, set_phase.
  pose proof update_workflow_phase_proceeds. onward_within.
Qed.

Lemma verify_readiness_proceeds service_name label failure attempt remaining :
  proceeds env config 1
    (verify_readiness env service_name label failure attempt (S remaining))
    (λ _, True).
Proof.
  cbn [verify_readiness].
  eapply proceeds_weaken with (Q := λ _, True); [|done|].
  - eapply proceeds_bind with (Q := λ healthy, healthy = true).
    + apply proceeds_try_except.
      eapply proceeds_bind; [by apply proceeds_await|].
      intros r [n ->]. rewrite decide_True by apply Hcalm.
      by apply proceeds_ret.
    + intros healthy ->. by apply proceeds_ret.
  - simpl. lia.
Qed.

Lemma carla_setup_proceeds (carla_config : ExperimentConfig.CarlaConfig) :
  ExperimentConfig.carla_config config = Some carla_config →
  proceeds env config 3 (carla_setup_body env) (λ _, True).
Proof.
  intros Hcfg. unfold carla_setup_body.
  eapply proceeds_weaken with (Q := λ _, True); [|done|].
  - eapply proceeds_bind; [apply proceeds_get_config|]. intros c ->.
    rewrite Hcfg.
    pose proof (verify_readiness_proceeds "carla-runner" "CARLA"
                  "CARLA simulation failed to become ready" 0 4) as Hv.
    unfold _verify_carla_readiness. onward.
  - simpl. lia.
Qed.

Lemma dreamer_setup_proceeds (dreamer_config : ExperimentConfig.DreamerConfig) :
  ExperimentConfig.dreamer_config config = Some dreamer_config →
  proceeds env config 3 (dreamer_setup_body env) (λ _, True).
Proof.
  intros Hcfg. unfold dreamer_setup_body.
  eapply proceeds_weaken with (Q := λ _, True); [|done|].
  - eapply proceeds_bind; [apply proceeds_get_config|]. intros c ->.
    rewrite Hcfg.
    pose proof (verify_readiness_proceeds "dreamerv3-service" "DreamerV3"
                  "DreamerV3 model failed to become ready" 0 4) as Hv.
    unfold _verify_dreamer_readiness. onward.
  - simpl. lia.
Qed.

Lemma initialization_proceeds :
  invalid_config config = None →
  proceeds env config 1 (initialization_body env) (λ _, True).
Proof.
  intros Hvalid. unfold initialization_body.
  eapply proceeds_weaken with (Q := λ _, True); [|done|].
  - eapply proceeds_bind; [apply proceeds_get_config|]. intros c ->.
    unfold _validate_experiment_config, _initialize_workflow_resources.
    rewrite Hvalid. onward.
  - simpl. lia.
Qed.

Lemma store_artifacts_proceeds eid artifacts :
  proceeds env config (length artifacts) (store_artifacts env eid artifacts)
    (λ _, True).
Proof.
  induction artifacts as [|a artifacts IH]; simpl; [onward|].
  change (S (length artifacts)) with (1 + length artifacts). onward.
Qed.

Lemma proceeds_returns {A : Type} (c : M A) (Q : A → Prop) cost m :
  proceeds env config cost c Q → on_course env config m →
  ∃ a m', c m = (Ret a, m') ∧ Q a ∧ on_course env config m' ∧
          tick m ≤ tick m' ≤ tick m + cost.
Proof. intros Hc Hm. by apply Hc. Qed.

Lemma result_processing_returns m :
  on_course env config m →
  ∃ m', result_processing_body env m = (Ret (), m') ∧ on_course env config m'.
Proof.
  intros Hm. unfold result_processing_body.
  rewrite bind_unfold. cbn [get fst snd]. rewrite bind_unfold. cbn [get fst snd].
  rewrite bind_unfold.
  destruct (proceeds_await env config Hcalm
              (store_experiment_metrics (WorkflowState.experiment_id (wf m))
                 (WorkflowState.metrics (wf m))) m Hm)
    as (r & m1 & -> & _ & Hm1 & _).
  rewrite bind_unfold. cbn [get fst snd].
  set (eid := WorkflowState.experiment_id (wf m)).
  set (artifacts := WorkflowState.artifacts (wf m1)).
  pose proof (store_artifacts_proceeds eid artifacts) as Hs.
  assert (∃ cost,
    proceeds env config cost
      (bind (store_artifacts env eid artifacts)
         (λ _, bind _generate_experiment_summary
            (λ summary,
               bind (await env (store_experiment_summary eid summary))
                 (λ _, bind (await env (submit_experiment_results eid))
                    (λ _, bind (await env
                                  (publish_experiment_event eid
                                     "result_processing_completed"
                                     (data_summary summary)))
                       (λ _, ret ()))))))
      (λ _, True)) as [cost Htail].
  { eexists. unfold _generate_experiment_summary. onward. }
  destruct (Htail m1 Hm1) as ([] & m2 & Htl & _ & Hm2 & _).
  exists m2. split; [exact Htl|exact Hm2].
Qed.

Lemma session_call_proceeds (session : option string) (c : string → ExternalCall) :
  proceeds env config 1
    (match session with
     | Some sid => if decide (sid = "") then ret ()
                   else bind (await env (c sid)) (λ _, ret ())
     | None => ret ()
     end) (λ _, True).
Proof. destruct session; [case_decide|]; onward_within. Qed.

Lemma cleanup_phase_proceeds :
  proceeds env config 4 (_execute_cleanup_phase env) (λ _, True).
Proof.
  unfold _execute_cleanup_phase, set_phase, cleanup_body,
    _cleanup_temporary_resources.
  pose proof update_workflow_phase_proceeds.
  eapply proceeds_weaken with (Q := λ _, True); [|done|].
  - onward; try apply (session_call_proceeds _ stop_carla_simulation);
      onward; try apply (session_call_proceeds _ release_dreamer_session);
      onward.
  - simpl. lia.
Qed.

(** An iteration of the loop goes through and counts as a step. *)
Lemma simulation_step_proceeds simulation_time l :
  proceeds env config 7 (simulation_step env simulation_time l)
    (λ l', start_time l' = start_time l).
Proof.
  unfold simulation_step.
  eapply proceeds_weaken
    with (Q := λ l', start_time l' = start_time l) (cost := 4 + (2 + (1 + 0)));
    [|done|lia].
  eapply proceeds_bind.
  { apply proceeds_attempt with (Q := λ _, True).
    unfold simulation_step_calls. onward_within. }
  intros [metrics|e] Hq; [|done].
  eapply proceeds_bind.
  { apply proceeds_attempt with (Q := λ _, True).
    unfold simulation_step_progress. onward_within. }
  intros [[]|e] Hq'; [|done].
  eapply proceeds_bind; [apply proceeds_sleep|]. intros _ _.
  by apply proceeds_ret.
Qed.

End CalmPhases.

Section CalmWorkflow.
Import Workflow.

Context (settings : Settings) (env : nat → Reply) (config : ExperimentConfig.t).
Context (Hcalm : calm env).
Context (carla_config : ExperimentConfig.CarlaConfig).
Context (Hvalid : invalid_config config = None).
Context (Hcarla : ExperimentConfig.carla_config config = Some carla_config).

Lemma simulation_loop_unfold fuel simulation_time l :
  simulation_loop env (S fuel) simulation_time l
  = bind (utcnow env)
      (λ now,
         if (timedelta_seconds (now - start_time l) <? simulation_time)%Z then
           bind (get WorkflowState.is_cancelled)
             (λ cancelled : bool,
                if cancelled then ret l
                else bind (simulation_step env simulation_time l)
                       (λ l', simulation_loop env fuel simulation_time l'))
         else ret l).
Proof. done. Qed.

Lemma timedelta_seconds_range (microseconds : Z) :
  (0 ≤ timedelta_seconds microseconds < 86400)%Z.
Proof. unfold timedelta_seconds. apply Z.mod_pos_bound. lia. Qed.

Lemma dreamer_config_present :
  ∃ dreamer_config, ExperimentConfig.dreamer_config config = Some dreamer_config.
Proof.
  revert Hvalid. unfold invalid_config. case_decide; [done|]. rewrite Hcarla.
  destruct (ExperimentConfig.dreamer_config config); [by eexists|done].
Qed.

(** The loop returns once the clock has passed the budget. *)
Lemma simulation_loop_returns (N : nat) (simulation_time : Z) :
  (∀ n0 n, n0 < N → N ≤ n →
     (simulation_time
      ≤ timedelta_seconds (clock (env n) - clock (env n0)))%Z) →
  ∀ fuel l m n0,
    on_course env config m → start_time l = clock (env n0) → n0 < N →
    N ≤ tick m + fuel →
    ∃ l' m', simulation_loop env (S fuel) simulation_time l m = (Ret l', m') ∧
             on_course env config m'.
Proof.
  intros Helapsed. induction fuel as [|fuel IH]; intros l m n0 Hm Hl Hn0 HN;
    rewrite simulation_loop_unfold, bind_unfold; cbn [utcnow fst snd]; rewrite Hl.
  - destruct (Z.ltb_spec (timedelta_seconds (clock (env (tick m)) - clock (env n0)))
                simulation_time) as [Hlt|_].
    { specialize (Helapsed n0 (tick m) Hn0 ltac:(lia)). lia. }
    by exists l, (next_tick m).
  - destruct (Z.ltb_spec (timedelta_seconds (clock (env (tick m)) - clock (env n0)))
                simulation_time) as [_|_].
    2:{ by exists l, (next_tick m). }
    rewrite bind_unfold. cbn [get fst snd].
    destruct (WorkflowState.is_cancelled (wf (next_tick m))).
    { by exists l, (next_tick m). }
    rewrite bind_unfold.
    destruct (simulation_step_proceeds env config Hcalm simulation_time l
                (next_tick m) Hm) as (l1 & m1 & Hstep & Hl1 & Hm1 & Ht1).
    rewrite Hstep. simpl in Ht1.
    apply (IH l1 m1 n0 Hm1); [congruence|done|lia].
Qed.

(** With a budget of a day or more the condition of the loop never fails. *)
Lemma simulation_loop_runs_on (simulation_time : Z) :
  never_cancelled env → (86400 ≤ simulation_time)%Z →
  ∀ fuel l m,
    on_course env config m →
    ∃ m', simulation_loop env fuel simulation_time l m = (OutOfFuel, m').
Proof.
  intros Hnever Hday. induction fuel as [|fuel IH]; intros l m Hm.
  { by eexists. }
  rewrite simulation_loop_unfold, bind_unfold. cbn [utcnow fst snd].
  pose proof (timedelta_seconds_range (clock (env (tick m)) - start_time l)).
  destruct (Z.ltb_spec (timedelta_seconds (clock (env (tick m)) - start_time l))
              simulation_time) as [_|?]; [|lia].
  rewrite bind_unfold. cbn [get fst snd].
  assert (WorkflowState.is_cancelled (wf (next_tick m)) = false) as ->
    by (by apply Hm).
  rewrite bind_unfold.
  destruct (simulation_step_proceeds env config Hcalm simulation_time l
              (next_tick m) Hm) as (l1 & m1 & Hstep & Hl1 & Hm1 & Ht1).
  rewrite Hstep. by apply IH.
Qed.

(** The three set-up phases take ten interactions. *)
Lemma setup_then {B : Type} (k : M B) m :
  on_course env config m →
  ∃ m3, on_course env config m3 ∧ tick m ≤ tick m3 ≤ tick m + 10 ∧
        bind (_execute_initialization_phase settings env)
          (λ _, bind (_execute_carla_setup_phase settings env)
                  (λ _, bind (_execute_dreamer_setup_phase settings env)
                          (λ _, k))) m
        = k m3.
Proof.
  intros Hm. destruct dreamer_config_present as [dreamer_config Hdreamer].
  destruct (phase_proceeds settings env config Hcalm INITIALIZATION _ _
              (initialization_proceeds env config Hcalm Hvalid) m Hm)
    as ([] & m1 & E1 & _ & Hm1 & Ht1).
  destruct (phase_proceeds settings env config Hcalm CARLA_SETUP _ _
              (carla_setup_proceeds env config Hcalm _ Hcarla) m1 Hm1)
    as ([] & m2 & E2 & _ & Hm2 & Ht2).
  destruct (phase_proceeds settings env config Hcalm DREAMER_SETUP _ _
              (dreamer_setup_proceeds env config Hcalm _ Hdreamer) m2 Hm2)
    as ([] & m3 & E3 & _ & Hm3 & Ht3).
  exists m3. split; [done|]. split; [lia|].
  unfold _execute_initialization_phase, _execute_carla_setup_phase,
    _execute_dreamer_setup_phase.
  rewrite bind_unfold, E1, bind_unfold, E2, bind_unfold, E3. done.
Qed.

(** The entry of a phase takes one interaction. *)
Lemma phase_then p body m :
  on_course env config m →
  ∃ m1, on_course env config m1 ∧ tick m ≤ tick m1 ≤ tick m + 1 ∧
        current_phase_of m1 = p ∧
        phase settings env p body m = phase_try settings env p body m1.
Proof.
  intros Hm.
  set (m0 := record_event (PhaseSet p)
               (with_wf (WorkflowState.set_current_phase p) m)).
  assert (phase settings env p body m
          = bind (_update_workflow_phase env)
              (λ _, phase_try settings env p body) m0) as -> by done.
  assert (on_course env config m0) as Hm0 by (by destruct Hm).
  rewrite bind_unfold.
  destruct (update_workflow_phase_proceeds env config Hcalm m0 Hm0)
    as ([] & m1 & E & _ & Hm1 & Ht1).
  pose proof (update_workflow_phase_phase env m0) as Hp.
  rewrite E in Hp |- *. exists m1. split; [done|]. split; [done|].
  split; [exact Hp|done].
Qed.

Lemma phase_try_returns p body m m' :
  body m = (Ret (), m') → phase_try settings env p body m = (Ret (), m').
Proof. intros E. unfold phase_try, try_except. by rewrite E. Qed.

Lemma phase_try_out_of_fuel p body m m' :
  body m = (OutOfFuel, m') → phase_try settings env p body m = (OutOfFuel, m').
Proof. intros E. unfold phase_try, try_except. by rewrite E. Qed.

(** The body of the Execution phase, up to the loop: two interactions. *)
Lemma simulation_body_then fuel m :
  on_course env config m →
  ∃ m1, on_course env config m1 ∧ tick m ≤ tick m1 ≤ tick m + 1 ∧
        simulation_body env fuel m
        = bind (bind (simulation_loop env fuel
                        (ExperimentConfig.simulation_time carla_config)
                        {| start_time := clock (env (tick m1));
                           step_count := 0; loop_metrics := ∅ |})
                  (loop_results env))
            (λ simulation_results,
               bind (modify (WorkflowState.store_simulation_results
                               simulation_results))
                 (λ _, bind (get WorkflowState.experiment_id)
                    (λ eid,
                       bind (await env
                               (publish_experiment_event eid "simulation_completed"
                                  (data_results_summary
                                     (total_steps simulation_results)
                                     (results_error_count simulation_results))))
                         (λ _, ret ()))))
            (next_tick m1).
Proof.
  intros Hm. unfold simulation_body.
  rewrite bind_unfold. cbn [get fst snd]. rewrite bind_unfold.
  destruct (proceeds_await env config Hcalm
              (start_carla_simulation (WorkflowState.carla_session_id (wf m)))
              m Hm) as (r & m1 & -> & _ & Hm1 & Ht1).
  exists m1. split; [done|]. split; [done|].
  assert (_run_simulation_loop env fuel m1
          = bind (simulation_loop env fuel
                    (ExperimentConfig.simulation_time carla_config)
                    {| start_time := clock (env (tick m1));
                       step_count := 0; loop_metrics := ∅ |})
              (loop_results env) (next_tick m1)) as Hrun.
  { unfold _run_simulation_loop. rewrite bind_unfold. cbn [get fst snd].
    destruct Hm1 as [-> _]. rewrite Hcarla. by rewrite bind_unfold. }
  rewrite bind_unfold, Hrun. done.
Qed.

(** The Execution phase returns once the budget has elapsed. *)
Lemma simulation_phase_returns (N fuel : nat) m :
  (∀ n0 n, n0 < N → N ≤ n →
     (ExperimentConfig.simulation_time carla_config
      ≤ timedelta_seconds (clock (env n) - clock (env n0)))%Z) →
  N < fuel → on_course env config m → tick m + 2 < N →
  ∃ m', _execute_simulation_phase settings env fuel m = (Ret (), m') ∧
        on_course env config m'.
Proof.
  intros Helapsed Hfuel Hm Ht. unfold _execute_simulation_phase.
  destruct (phase_then SIMULATION_EXECUTION (simulation_body env fuel) m Hm)
    as (m1 & Hm1 & Ht1 & _ & ->).
  destruct (simulation_body_then fuel m1 Hm1) as (m2 & Hm2 & Ht2 & Ebody).
  destruct fuel as [|fuel]; [lia|].
  destruct (simulation_loop_returns N _ Helapsed fuel
              {| start_time := clock (env (tick m2));
                 step_count := 0; loop_metrics := ∅ |}
              (next_tick m2) (tick m2) Hm2 eq_refl ltac:(lia)
              ltac:(simpl; lia)) as (l' & m3 & Eloop & Hm3).
  assert (∃ cost,
    proceeds env config cost
      (bind (loop_results env l')
         (λ simulation_results,
            bind (modify (WorkflowState.store_simulation_results
                            simulation_results))
              (λ _, bind (get WorkflowState.experiment_id)
                 (λ eid,
                    bind (await env
                            (publish_experiment_event eid "simulation_completed"
                               (data_results_summary
                                  (total_steps simulation_results)
                                  (results_error_count simulation_results))))
                      (λ _, ret ())))))
      (λ _, True)) as [cost Htail].
  { eexists. unfold loop_results. onward. }
  destruct (Htail m3 Hm3) as ([] & m4 & Etail & _ & Hm4 & _).
  exists m4. split; [|done]. apply phase_try_returns.
  rewrite Ebody, bind_unfold, bind_unfold, Eloop. exact Etail.
Qed.

(** With a budget of a day or more it never does. *)
Lemma simulation_phase_runs_on (fuel : nat) m :
  never_cancelled env →
  (86400 ≤ ExperimentConfig.simulation_time carla_config)%Z →
  on_course env config m →
  ∃ m', _execute_simulation_phase settings env fuel m = (OutOfFuel, m') ∧
        current_phase_of m' = SIMULATION_EXECUTION.
Proof.
  intros Hnever Hday Hm. unfold _execute_simulation_phase.
  destruct (phase_then SIMULATION_EXECUTION (simulation_body env fuel) m Hm)
    as (m1 & Hm1 & Ht1 & Hp & ->).
  destruct (simulation_body_then fuel m1 Hm1) as (m2 & Hm2 & Ht2 & Ebody).
  destruct (simulation_loop_runs_on _ Hnever Hday fuel
              {| start_time := clock (env (tick m2));
                 step_count := 0; loop_metrics := ∅ |}
              (next_tick m2) Hm2) as (m3 & Eloop).
  assert (simulation_body env fuel m1 = (OutOfFuel, m3)) as Eb.
  { by rewrite Ebody, bind_unfold, bind_unfold, Eloop. }
  exists m3. split; [by apply phase_try_out_of_fuel|].
  pose proof (simulation_body_phase env fuel m1) as Hphase.
  rewrite Eb in Hphase. simpl in Hphase. congruence.
Qed.

End CalmWorkflow.

Section CalmOutcomes.
Import Workflow.

Context (settings : Settings) (env : nat → Reply).

Lemma workflow_start_on_course experiment_id config active :
  on_course env config (workflow_start experiment_id config active).
Proof. by split. Qed.

(** What follows the Execution phase goes through. *)
Lemma closing_phases_return config m :
  calm env → on_course env config m →
  ∃ m',
    bind (_execute_result_processing_phase settings env)
      (λ _, bind (_execute_cleanup_phase env)
              (λ _, bind (set_phase COMPLETED)
                      (λ _, _update_workflow_phase env))) m
    = (Ret (), m').
Proof.
  intros Hcalm Hm. unfold _execute_result_processing_phase.
  rewrite bind_unfold.
  destruct (phase_then settings env config Hcalm RESULT_PROCESSING
              (result_processing_body env) m Hm) as (m1 & Hm1 & _ & _ & ->).
  destruct (result_processing_returns env config Hcalm m1 Hm1)
    as (m2 & E2 & Hm2).
  rewrite (phase_try_returns settings env _ _ _ _ E2).
  assert (proceeds env config 5
            (bind (_execute_cleanup_phase env)
               (λ _, bind (set_phase COMPLETED)
                       (λ _, _update_workflow_phase env)))
            (λ _, True)) as Htail.
  { pose proof (cleanup_phase_proceeds env config Hcalm).
    pose proof (update_workflow_phase_proceeds env config Hcalm).
    unfold set_phase. onward_within. }
  destruct (Htail m2 Hm2) as ([] & m3 & E3 & _). by exists m3.
Qed.

(** X14.  In surroundings where every call goes through and every service
    reports itself healthy, a run with a valid configuration completes: if
    from some interaction [N] on (later than the thirteen that precede the
    loop) the clock is past the time budget, and the loop may evaluate its
    condition more than [N] times, the run returns, in the phase Completed,
    having gone through the seven phases in order and with no phase error,
    and its id has left the registry. *)
Theorem healthy_run_completes (N fuel : nat) (experiment_id : string)
    (config : ExperimentConfig.t) (carla_config : ExperimentConfig.CarlaConfig)
    (active : gset string) :
  calm env →
  invalid_config config = None →
  ExperimentConfig.carla_config config = Some carla_config →
  13 ≤ N →
  (∀ n0 n, n0 < N → N ≤ n →
     (ExperimentConfig.simulation_time carla_config
      ≤ timedelta_seconds (clock (env n) - clock (env n0)))%Z) →
  N < fuel →
  ∃ m,
    execute_experiment_workflow settings env fuel experiment_id config active
    = (Ret (), m) ∧
    current_phase_of m = COMPLETED ∧
    marks (trace m) = MPhase <$> phase_order ∧
    experiment_id ∉ active_workflows m.
Proof.
  intros Hcalm Hvalid Hcarla HN Helapsed Hfuel.
  set (m0 := workflow_start experiment_id config active).
  assert (∃ m1, workflow_body settings env fuel m0 = (Ret (), m1)) as [m1 E].
  { unfold workflow_body.
    destruct (setup_then settings env config Hcalm carla_config Hvalid Hcarla
                (bind (_execute_simulation_phase settings env fuel)
                   (λ _, bind (_execute_result_processing_phase settings env)
                           (λ _, bind (_execute_cleanup_phase env)
                                   (λ _, bind (set_phase COMPLETED)
                                           (λ _, _update_workflow_phase env)))))
                m0 (workflow_start_on_course _ _ _)) as (m3 & Hm3 & Ht3 & ->).
    rewrite bind_unfold.
    destruct (simulation_phase_returns settings env config Hcalm carla_config
                Hcarla N fuel m3 Helapsed Hfuel Hm3) as (m4 & -> & Hm4).
    { change (tick m0) with 0 in Ht3. lia. }
    by apply (closing_phases_return config). }
  pose proof (workflow_body_spec settings env fuel m0) as Hspec.
  rewrite E in Hspec. destruct Hspec as [Hmarks Hphase].
  unfold execute_experiment_workflow, try_finally, try_except.
  fold m0. rewrite E. eexists. split; [done|]. simpl.
  split; [exact Hphase|]. split; [exact Hmarks|].
  intros [_ Hn]%elem_of_difference. by apply Hn, elem_of_singleton.
Qed.

(** X15.  The loop compares [timedelta.seconds], which is less than 86400,
    with the time budget: with a budget of a day or more, in surroundings
    where every call goes through and nobody cancels, the run never leaves
    the loop, however often the condition may be evaluated; it stays in the
    phase Execution and in the registry. *)
Theorem day_long_budget_never_elapses (fuel : nat) (experiment_id : string)
    (config : ExperimentConfig.t) (carla_config : ExperimentConfig.CarlaConfig)
    (active : gset string) :
  calm env → never_cancelled env →
  invalid_config config = None →
  ExperimentConfig.carla_config config = Some carla_config →
  (86400 ≤ ExperimentConfig.simulation_time carla_config)%Z →
  ∃ m,
    execute_experiment_workflow settings env fuel experiment_id config active
    = (OutOfFuel, m) ∧
    current_phase_of m = SIMULATION_EXECUTION ∧
    experiment_id ∈ active_workflows m.
Proof.
  intros Hcalm Hnever Hvalid Hcarla Hday.
  set (m0 := workflow_start experiment_id config active).
  assert (∃ m1, workflow_body settings env fuel m0 = (OutOfFuel, m1) ∧
                current_phase_of m1 = SIMULATION_EXECUTION) as (m1 & E & Hp).
  { unfold workflow_body.
    destruct (setup_then settings env config Hcalm carla_config Hvalid Hcarla
                (bind (_execute_simulation_phase settings env fuel)
                   (λ _, bind (_execute_result_processing_phase settings env)
                           (λ _, bind (_execute_cleanup_phase env)
                                   (λ _, bind (set_phase COMPLETED)
                                           (λ _, _update_workflow_phase env)))))
                m0 (workflow_start_on_course _ _ _)) as (m3 & Hm3 & Ht3 & ->).
    rewrite bind_unfold.
    destruct (simulation_phase_runs_on settings env config Hcalm carla_config
                Hcarla fuel m3 Hnever Hday Hm3) as (m4 & -> & Hp).
    by exists m4. }
  pose proof (workflow_body_footprint settings env fuel m0) as Hfoot.
  unfold execute_experiment_workflow, try_finally, try_except.
  fold m0. rewrite E. exists m1. split; [done|]. split; [done|].
  rewrite E in Hfoot. unfold footprint in Hfoot. cbn [snd] in Hfoot.
  injection Hfoot as _ _ ->.
  apply elem_of_union. left. by apply elem_of_singleton.
Qed.

End CalmOutcomes.

(** ** The workflow: artifacts *)

Section WorkflowArtifacts.
Import Workflow.

Context (settings : Settings) (env : nat → Reply).

Lemma artifact_stored_plain : plain artifact_stored.
Proof. by split. Qed.

Lemma artifacts_blind : blind_to_cancel WorkflowState.artifacts.
Proof. done. Qed.

Lemma no_artifacts_kept {A : Type} (c : M A) :
  preserves (observe_state WorkflowState.artifacts) c →
  preserves (observe artifact_stored) c →
  maintains no_artifacts c.
Proof.
  intros Hs Ho m [Ha Hm]. split.
  - specialize (Hs m). unfold observe_state in Hs. by rewrite Hs.
  - by rewrite Ho.
Qed.

Lemma maintains_try_except {A : Type} (P : Machine → Prop) (c : M A)
    (h : string → M A) :
  maintains P c → (∀ e, maintains P (h e)) → maintains P (try_except c h).
Proof.
  intros Hc Hh m Hm. unfold try_except. specialize (Hc m Hm).
  destruct (c m) as [[a|e|] m1]; simpl in *; [done| |done]. by apply Hh.
Qed.

(** A [bind] whose continuation may rely on what the first part returns. *)
Lemma maintains_bind_value {A B : Type} (P : Machine → Prop) (Q : A → Prop)
    (c : M A) (k : A → M B) :
  maintains P c → (∀ m a m', c m = (Ret a, m') → Q a) →
  (∀ a, Q a → maintains P (k a)) → maintains P (bind c k).
Proof.
  intros Hc HQ Hk m Hm. unfold bind. specialize (Hc m Hm). specialize (HQ m).
  destruct (c m) as [[a|e|] m1]; simpl in *; [|done|done].
  apply Hk; [by eapply HQ|done].
Qed.

Lemma verify_readiness_artifacts service_name label failure attempt remaining :
  maintains no_artifacts
    (verify_readiness env service_name label failure attempt remaining).
Proof.
  apply no_artifacts_kept; revert attempt;
    induction remaining as [|remaining IH]; intros attempt; simpl;
    quiet; apply IH.
Qed.

Lemma update_workflow_phase_artifacts :
  maintains no_artifacts (_update_workflow_phase env).
Proof. unfold _update_workflow_phase. apply no_artifacts_kept; quiet. Qed.

Lemma handle_phase_error_artifacts ph e :
  maintains no_artifacts (_handle_phase_error settings env ph e).
Proof. unfold _handle_phase_error. apply no_artifacts_kept; quiet. Qed.

Lemma phase_artifacts p body :
  maintains no_artifacts body → maintains no_artifacts (phase settings env p body).
Proof.
  intros Hb. unfold phase, phase_try.
  apply maintains_bind; [unfold set_phase; apply no_artifacts_kept; quiet|].
  intros _. apply maintains_bind; [apply update_workflow_phase_artifacts|].
  intros _. apply maintains_try_except; [done|]. intros e.
  apply maintains_bind; [apply handle_phase_error_artifacts|].
  intros _. apply maintains_raise.
Qed.

Lemma initialization_artifacts : maintains no_artifacts (initialization_body env).
Proof.
  unfold initialization_body, _validate_experiment_config,
    _initialize_workflow_resources.
  apply no_artifacts_kept; quiet.
Qed.

Lemma carla_setup_artifacts : maintains no_artifacts (carla_setup_body env).
Proof.
  pose proof (verify_readiness_artifacts "carla-runner" "CARLA"
                "CARLA simulation failed to become ready" 0 5) as Hv.
  unfold carla_setup_body, _verify_carla_readiness.
  apply maintains_bind; [apply maintains_get|]. intros config.
  destruct (ExperimentConfig.carla_config config); [|apply maintains_raise].
  apply maintains_bind; [apply no_artifacts_kept; quiet|]. intros r.
  apply maintains_bind; [apply no_artifacts_kept; quiet|]. intros _.
  apply maintains_bind; [exact Hv|]. intros _.
  apply no_artifacts_kept; quiet.
Qed.

Lemma dreamer_setup_artifacts : maintains no_artifacts (dreamer_setup_body env).
Proof.
  pose proof (verify_readiness_artifacts "dreamerv3-service" "DreamerV3"
                "DreamerV3 model failed to become ready" 0 5) as Hv.
  unfold dreamer_setup_body, _verify_dreamer_readiness.
  apply maintains_bind; [apply maintains_get|]. intros config.
  destruct (ExperimentConfig.dreamer_config config); [|apply maintains_raise].
  apply maintains_bind; [apply no_artifacts_kept; quiet|]. intros r.
  apply maintains_bind; [apply no_artifacts_kept; quiet|]. intros _.
  apply maintains_bind; [exact Hv|]. intros _.
  apply no_artifacts_kept; quiet.
Qed.

Lemma simulation_loop_artifacts fuel simulation_time l :
  maintains no_artifacts (simulation_loop env fuel simulation_time l).
Proof.
  apply no_artifacts_kept; revert l;
    induction fuel as [|fuel IH]; intros l; simpl; try done;
    unfold simulation_step, simulation_step_calls, simulation_step_progress,
      simulation_step_failed;
    quiet; apply IH.
Qed.

(** The dictionary that the loop returns lists no artifact. *)
Lemma run_simulation_loop_results fuel m results m' :
  _run_simulation_loop env fuel m = (Ret results, m') →
  results_artifacts results = [].
Proof.
  unfold _run_simulation_loop. rewrite bind_unfold. cbn [get fst snd].
  destruct (ExperimentConfig.carla_config _); [|done].
  rewrite bind_unfold. cbn [utcnow fst snd]. rewrite bind_unfold.
  destruct (simulation_loop env fuel _ _ _) as [[l|e|] m1]; [|done|done].
  unfold loop_results. rewrite bind_unfold. cbn [utcnow fst snd].
  rewrite bind_unfold. cbn [get ret fst snd]. by intros [= <- _].
Qed.

Lemma run_simulation_loop_artifacts fuel :
  maintains no_artifacts (_run_simulation_loop env fuel).
Proof.
  unfold _run_simulation_loop.
  apply maintains_bind; [apply maintains_get|]. intros config.
  destruct (ExperimentConfig.carla_config config); [|apply maintains_raise].
  apply maintains_bind; [apply no_artifacts_kept; quiet|]. intros start.
  apply maintains_bind; [apply simulation_loop_artifacts|]. intros l.
  unfold loop_results. apply no_artifacts_kept; quiet.
Qed.

Lemma simulation_body_artifacts fuel :
  maintains no_artifacts (simulation_body env fuel).
Proof.
  unfold simulation_body.
  apply maintains_bind; [apply maintains_get|]. intros carla.
  apply maintains_bind; [apply no_artifacts_kept; quiet|]. intros _.
  apply maintains_bind_value with (Q := λ r, results_artifacts r = []).
  - apply run_simulation_loop_artifacts.
  - intros m r m'. apply run_simulation_loop_results.
  - intros r Hr.
    apply maintains_bind.
    { intros m [Ha Ho]. split; [|done]. simpl. by rewrite Ha, Hr. }
    intros _. apply no_artifacts_kept; quiet.
Qed.

(** With no artifact listed, the [for] loop over [state.artifacts] has no
    iteration. *)
Lemma result_processing_artifacts :
  maintains no_artifacts (result_processing_body env).
Proof.
  unfold result_processing_body.
  apply maintains_bind; [apply maintains_get|]. intros eid.
  apply maintains_bind; [apply maintains_get|]. intros metrics.
  apply maintains_bind; [apply no_artifacts_kept; quiet|]. intros _.
  intros m Hm. rewrite bind_unfold. cbn [get fst snd].
  rewrite (proj1 Hm). cbn [store_artifacts]. revert m Hm.
  unfold _generate_experiment_summary. apply no_artifacts_kept; quiet.
Qed.

Lemma cleanup_phase_artifacts :
  maintains no_artifacts (_execute_cleanup_phase env).
Proof.
  unfold _execute_cleanup_phase, set_phase, _update_workflow_phase, cleanup_body,
    _cleanup_temporary_resources.
  apply no_artifacts_kept; quiet.
Qed.

Lemma workflow_body_artifacts fuel :
  maintains no_artifacts (workflow_body settings env fuel).
Proof.
  unfold workflow_body, _execute_initialization_phase, _execute_carla_setup_phase,
    _execute_dreamer_setup_phase, _execute_simulation_phase,
    _execute_result_processing_phase.
  apply maintains_bind;
    [apply phase_artifacts, initialization_artifacts|intros _].
  apply maintains_bind; [apply phase_artifacts, carla_setup_artifacts|intros _].
  apply maintains_bind; [apply phase_artifacts, dreamer_setup_artifacts|intros _].
  apply maintains_bind; [apply phase_artifacts, simulation_body_artifacts|intros _].
  apply maintains_bind;
    [apply phase_artifacts, result_processing_artifacts|intros _].
  apply maintains_bind; [apply cleanup_phase_artifacts|intros _].
  apply maintains_bind; [unfold set_phase; apply no_artifacts_kept; quiet|].
  intros _. apply update_workflow_phase_artifacts.
Qed.

Lemma workflow_failed_artifacts e :
  maintains no_artifacts (workflow_failed env e).
Proof.
  pose proof cleanup_phase_artifacts as Hc.
  unfold workflow_failed, set_phase, _handle_workflow_failure.
  apply maintains_bind; [apply maintains_get|]. intros eid.
  apply maintains_bind; [apply no_artifacts_kept; quiet|]. intros _.
  apply maintains_bind; [apply no_artifacts_kept; quiet|]. intros _.
  apply maintains_bind; [apply maintains_get|]. intros eid'.
  apply maintains_bind; [apply no_artifacts_kept; quiet|]. intros _.
  apply maintains_bind; [apply no_artifacts_kept; quiet|]. intros _.
  apply maintains_bind; [apply no_artifacts_kept; quiet|]. intros _.
  apply maintains_try_except; [exact Hc|]. intros e'.
  apply no_artifacts_kept; quiet.
Qed.

(** X16.  No run of the workflow stores an artifact.  The dictionary that
    [_run_simulation_loop] returns always has an empty list under
    ["artifacts"]; so [state.artifacts], empty at the start, is empty at every
    point of the run, and the loop over it in the Result-processing phase
    never calls [store_experiment_artifact]: however the run ends, and also
    while it is still in the loop, no such call is in its trace. *)
Theorem no_artifact_is_stored
    (fuel : nat) (experiment_id : string) (config : ExperimentConfig.t)
    (active : gset string) :
  let m := (execute_experiment_workflow settings env fuel experiment_id config
              active).2 in
  observe artifact_stored m = [] ∧
  WorkflowState.artifacts (wf m) = [] ∧
  ∀ m0 results m',
    _run_simulation_loop env fuel m0 = (Ret results, m') →
    results_artifacts results = [].
Proof.
  intros m.
  assert (no_artifacts m) as [Ha Ho].
  { unfold m, execute_experiment_workflow.
    set (m0 := workflow_start experiment_id config active).
    assert (no_artifacts m0) as H0 by done.
    assert (maintains no_artifacts
              (try_except (workflow_body settings env fuel) (workflow_failed env)))
      as Hrun.
    { apply maintains_try_except; [apply workflow_body_artifacts|].
      apply workflow_failed_artifacts. }
    specialize (Hrun m0 H0). unfold try_finally, workflow_finally.
    destruct (try_except _ _ m0) as [[[]|e|] m1]; simpl in *; done. }
  split; [done|]. split; [done|]. intros m0 results m'.
  apply run_simulation_loop_results.
Qed.

End WorkflowArtifacts.

(** ** Instances of the further properties of the workflow *)

Lemma readiness_checks_bounded_witness :
  match Workflow._verify_carla_readiness Examples.all_fine Examples.fresh with
  | (Workflow.Ret _, m') =>
      ∃ k, k < 5 ∧ Workflow.healthy_at Examples.all_fine (0 + 2 * k) ∧
           (∀ j, j < k → ¬ Workflow.healthy_at Examples.all_fine (0 + 2 * j)) ∧
           Workflow.observe Workflow.health_check m'
           = [] ++ replicate (S k) "carla-runner" ∧
           Workflow.observe Workflow.slept m' = [] ++ replicate k 2000%Z
  | (Workflow.Raise e, m') =>
      e = "CARLA simulation failed to become ready" ∧
      (∀ j, j < 5 → ¬ Workflow.healthy_at Examples.all_fine (0 + 2 * j)) ∧
      Workflow.observe Workflow.health_check m'
      = [] ++ replicate 5 "carla-runner" ∧
      Workflow.observe Workflow.slept m' = [] ++ replicate 5 2000%Z
  | (Workflow.OutOfFuel, _) => False
  end.
Proof.
  apply (readiness_checks_bounded Examples.all_fine
           (Workflow._verify_carla_readiness Examples.all_fine)
           "carla-runner" "CARLA simulation failed to become ready"
           Examples.fresh).
  left. split; [reflexivity|]. split; reflexivity.
Defined.

Lemma healthy_run_completes_witness :
  ∃ m,
    Workflow.execute_experiment_workflow Examples.settings Examples.budget_elapsed
      14 "exp" (Examples.experiment 300) ∅
    = (Workflow.Ret (), m) ∧
    Workflow.current_phase_of m = Workflow.COMPLETED ∧
    Workflow.marks (Workflow.trace m) = Workflow.MPhase <$> Workflow.phase_order ∧
    "exp" ∉ Workflow.active_workflows m.
Proof.
  apply (healthy_run_completes Examples.settings Examples.budget_elapsed 13 14
           "exp" (Examples.experiment 300) (Examples.carla_config 300) ∅).
  - intros n. split; reflexivity.
  - reflexivity.
  - reflexivity.
  - lia.
  - intros n0 n Hbefore Hafter. unfold Examples.budget_elapsed.
    rewrite (decide_True (P := n0 < 13)) by lia.
    rewrite (decide_False (P := n < 13)) by lia.
    vm_compute. discriminate.
  - lia.
Defined.

Lemma day_long_budget_never_elapses_witness :
  ∃ m,
    Workflow.execute_experiment_workflow Examples.settings Examples.all_fine
      30 "exp" (Examples.experiment 86400) ∅
    = (Workflow.OutOfFuel, m) ∧
    Workflow.current_phase_of m = Workflow.SIMULATION_EXECUTION ∧
    "exp" ∈ Workflow.active_workflows m.
Proof.
  apply (day_long_budget_never_elapses Examples.settings Examples.all_fine 30
           "exp" (Examples.experiment 86400) (Examples.carla_config 86400) ∅).
  - intros n. split; reflexivity.
  - intros n. reflexivity.
  - reflexivity.
  - reflexivity.
  - simpl. lia.
Defined.
